(** * quicklhe: the two-pass LHE parser of [parse_lhe.cpp]

    A shallow embedding of [countDimensions] (pass 1), of the expat
    callbacks [onStart], [onEnd], [onChar] with the extractors
    [processEvent] and [processWeight] (pass 2), and of the entry point
    [parseLHE] with its read loop, followed by the properties of the
    specification and by further properties of the code.

    Conventions of the embedding.
    - A C++ [int] is a [Z]. [std::from_chars] and [operator>>] reject values
      outside the 32-bit range, as the library does. The sum
      [n_particles += n] is undefined behaviour when it leaves that range;
      the line, event and weight counters only count lines or tags and stay
      far below 2^31.
    - A [double] is the exact rational value of the decimal token (or an
      infinity or a NaN). [std::from_chars] rejects a token whose value
      lies outside the range of binary64, as the library does; the
      rounding of a value in range to binary64 and the sign of a zero are
      not modelled.
    - An array is the flat row-major list of its cells. A reference to a
      cell outside the buffer is undefined behaviour in C++: the embedding
      stops with [Undefined] there.
    - [throw std::runtime_error(msg)] is [Throw msg].
    - The file is its text, or nothing when it cannot be opened; expat is
      the function from a document to the callbacks it makes and the error
      it stops with. For the read loop it is taken call by call: a
      function from the parser, a chunk and the final flag to the next
      parser, the callbacks made and the error reported. *)

From Stdlib Require Import ZArith QArith String Ascii List Lia DecimalString Bool.
From stdpp Require Import base list.
Import ListNotations.
Open Scope string_scope.
Open Scope Z_scope.

(** ** Outcomes of a computation that may throw or leave defined behaviour *)

Inductive outcome (A : Type) : Type :=
| Ok (a : A)
| Throw (what : string)
| Undefined.
Arguments Ok {A} a.
Arguments Throw {A} what.
Arguments Undefined {A}.

Definition bind {A B : Type} (m : outcome A) (k : A -> outcome B) : outcome B :=
  match m with
  | Ok a => k a
  | Throw w => Throw w
  | Undefined => Undefined
  end.

Notation "'let*' x ':=' m 'in' k" := (bind m (fun x => k))
  (at level 10, x pattern, m at level 100, k at level 200).

(** [std::to_string(int)] *)
Definition to_string (z : Z) : string := NilZero.string_of_int (Z.to_int z).

Definition INT_MIN : Z := - 2 ^ 31.
Definition INT_MAX : Z := 2 ^ 31 - 1.
Definition in_int (z : Z) : bool := (INT_MIN <=? z) && (z <=? INT_MAX).

(** ** Characters and [std::string_view] *)

Definition tab : ascii := "009"%char.
Definition newline : ascii := "010"%char.
Definition vtab : ascii := "011"%char.
Definition formfeed : ascii := "012"%char.
Definition cr : ascii := "013"%char.

(** The delimiter set [" \t\n\r"] of [consume_next]. *)
Definition delims : string :=
  String " " (String tab (String newline (String cr ""))).

Fixpoint mem_char (c : ascii) (set : string) : bool :=
  match set with
  | "" => false
  | String d set' => Ascii.eqb c d || mem_char c set'
  end.

Arguments mem_char : simpl never.

(** [sv.find_first_not_of(set)]; [None] is [npos]. *)
Fixpoint find_first_not_of (set sv : string) : option nat :=
  match sv with
  | "" => None
  | String c sv' =>
      if mem_char c set then option_map S (find_first_not_of set sv') else Some 0%nat
  end.

(** [sv.find_first_of(set)]; [None] is [npos]. *)
Fixpoint find_first_of (set sv : string) : option nat :=
  match sv with
  | "" => None
  | String c sv' =>
      if mem_char c set then Some 0%nat else option_map S (find_first_of set sv')
  end.

(** [sv.remove_prefix(n)] *)
Fixpoint remove_prefix (n : nat) (sv : string) : string :=
  match n, sv with
  | O, _ => sv
  | S n', String _ sv' => remove_prefix n' sv'
  | S _, "" => ""
  end.

(** [sv.substr(0, n)], where [None] is [npos]. *)
Fixpoint prefix_of (n : nat) (sv : string) : string :=
  match n, sv with
  | S n', String c sv' => String c (prefix_of n' sv')
  | _, _ => ""
  end.

Definition substr0 (sv : string) (n : option nat) : string :=
  match n with
  | None => sv
  | Some k => prefix_of k sv
  end.

(** [line.find(needle) != std::string::npos] *)
Definition contains (needle line : string) : bool :=
  match index 0 needle line with
  | Some _ => true
  | None => false
  end.

(** ** Reading numbers *)

Definition digit (c : ascii) : option Z :=
  let n := nat_of_ascii c in
  if (48 <=? n)%nat && (n <=? 57)%nat then Some (Z.of_nat n - 48) else None.

(** The longest run of decimal digits at the head of [s], most significant
    first, and what follows it. *)
Fixpoint span_digits (s : string) : list Z * string :=
  match s with
  | "" => ([], "")
  | String c s' =>
      match digit c with
      | Some d => let (ds, r) := span_digits s' in (d :: ds, r)
      | None => ([], s)
      end
  end.

Definition number (ds : list Z) : Z := fold_left (fun acc d => 10 * acc + d) ds 0.

Definition strip_minus (s : string) : bool * string :=
  match s with
  | String "-" s' => (true, s')
  | _ => (false, s)
  end.

(** [std::from_chars(first, last, int&)]: an optional minus sign and a run
    of decimal digits at the head of the token. [Some v] stands for
    [ec == std::errc()] with [v] stored; [None] for [invalid_argument] or
    [result_out_of_range], where the referenced value is left as it was. *)
Definition from_chars_int (token : string) : option Z :=
  let (neg, body) := strip_minus token in
  match span_digits body with
  | ([], _) => None
  | (ds, _) =>
      let v := if neg then - number ds else number ds in
      if in_int v then Some v else None
  end.

(** [iss >> n] for an [int n] on a fresh [std::istringstream]: white space
    is skipped, then an optional sign and decimal digits are read; without
    a digit, or with a value that does not fit an [int], the stream fails. *)
Definition isspace (c : ascii) : bool :=
  mem_char c (String " " (String tab (String newline
             (String vtab (String formfeed (String cr "")))))).

Fixpoint skipws (s : string) : string :=
  match s with
  | String c s' => if isspace c then skipws s' else s
  | "" => ""
  end.

Definition istream_int (line : string) : option Z :=
  let s := skipws line in
  let (neg, body) :=
    match s with
    | String "-" s' => (true, s')
    | String "+" s' => (false, s')
    | _ => (false, s)
    end in
  match span_digits body with
  | ([], _) => None
  | (ds, _) =>
      let v := if neg then - number ds else number ds in
      if in_int v then Some v else None
  end.

(** The value of a [double]. *)
Inductive double : Type :=
| Finite (q : Q)
| Infinity (negative : bool)
| NaN.

Definition dzero : double := Finite 0.

Definition lower (c : ascii) : ascii :=
  let n := nat_of_ascii c in
  if (65 <=? n)%nat && (n <=? 90)%nat then ascii_of_nat (n + 32) else c.

(** [s] starts with [word], letter case ignored. *)
Fixpoint starts_with_ci (word s : string) : bool :=
  match word, s with
  | "", _ => true
  | String w word', String c s' => Ascii.eqb w (lower c) && starts_with_ci word' s'
  | String _ _, "" => false
  end.

(** The exponent part [e], [e+] or [e-] followed by digits; 0 when the
    token has no complete exponent part. *)
Definition exponent (s : string) : Z :=
  match s with
  | String c s' =>
      if Ascii.eqb (lower c) "e" then
        let (neg, body) :=
          match s' with
          | String "-" r => (true, r)
          | String "+" r => (false, r)
          | _ => (false, s')
          end in
        match span_digits body with
        | ([], _) => 0
        | (ds, _) => if neg then - number ds else number ds
        end
      else 0
  | "" => 0
  end.

Definition scale10 (m e : Z) : Q :=
  if 0 <=? e then inject_Z (m * 10 ^ e) else Qred (m # Z.to_pos (10 ^ (- e))).

(** The range of a [double]: zero, and the values that round neither to
    an infinity nor to zero, those between [2^-1075] and [2^1024 - 2^970]
    in magnitude, both excluded. *)
Definition in_double (q : Q) : bool :=
  let a := if Qle_bool 0 q then q else Qopp q in
  Qeq_bool q 0 ||
  (negb (Qle_bool a (1 # Z.to_pos (2 ^ 1075))) &&
   negb (Qle_bool (inject_Z (2 ^ 1024 - 2 ^ 970)) a)).

(** [std::from_chars(first, last, double&)] in the general format: an
    optional minus sign, then [inf], [infinity] or [nan], or decimal digits
    with an optional point and an optional exponent part. [None] stands
    for [invalid_argument] and for [result_out_of_range]: the referenced
    value is left as it was. *)
Definition from_chars_double (token : string) : option double :=
  let (neg, body) := strip_minus token in
  if starts_with_ci "inf" body then Some (Infinity neg)
  else if starts_with_ci "nan" body then Some NaN
  else
    let (ip, r1) := span_digits body in
    let (fp, r2) :=
      match r1 with
      | String "." r => span_digits r
      | _ => ([], r1)
      end in
    match (ip ++ fp)%list with
    | [] => None
    | ds =>
        let m := if neg then - number ds else number ds in
        let q := scale10 m (exponent r2 - Z.of_nat (List.length fp)) in
        if in_double q then Some (Finite q) else None
    end.

(** The template parameter of [consume_next]: the types [std::from_chars]
    is used at. *)
Class FromChars (T : Type) := from_chars : string -> option T.
#[export] Instance from_chars_Z : FromChars Z := from_chars_int.
#[export] Instance from_chars_dbl : FromChars double := from_chars_double.

(** [consume_next(sv, value)]: the result is the value stored through the
    reference ([None] when the function returns [false], the referenced
    value being left untouched) and the view after the call. *)
Definition consume_next {T : Type} `{FromChars T} (sv : string) : option T * string :=
  match find_first_not_of delims sv with
  | None => (None, sv)
  | Some begin =>
      let sv := remove_prefix begin sv in
      let end_ := find_first_of delims sv in
      let token := substr0 sv end_ in
      let r := from_chars token in
      let sv := match end_ with
                | None => ""
                | Some e => remove_prefix e sv
                end in
      (r, sv)
  end.

(** ** Pass 1: [countDimensions] *)

(** The lines [std::getline] yields from the text of the file, in order. *)
Fixpoint getlines (text : string) : list string :=
  match text with
  | "" => []
  | String c text' =>
      if Ascii.eqb c newline then "" :: getlines text'
      else match getlines text' with
           | [] => [String c ""]
           | line :: rest => String c line :: rest
           end
  end.

(** Whether the last line is ended by the end of the file and not by a
    newline: reading it sets [eofbit], and a further [std::getline] then
    leaves its string argument as it was. After a final newline a further
    [std::getline] stores the empty string before it fails. *)
Fixpoint open_ended (text : string) : bool :=
  match text with
  | "" => false
  | String c "" => negb (Ascii.eqb c newline)
  | String _ text' => open_ended text'
  end.

Record dims : Type := mk_dims {
  d_events : Z;
  d_weights : Z;
  d_particles : Z;
  d_line : Z
}.

Definition scan_error (n_line : Z) : string :=
  "Failed to parse particle count from event header on line: " ++ to_string n_line.

Definition count_weight (line : string) (d : dims) : dims :=
  if contains "<weight " line
  then mk_dims (d_events d) (d_weights d + 1) (d_particles d) (d_line d)
  else d.

(** The body of the [if] on an event-open line once the unchecked inner
    [std::getline] has run: [header] is what [line] then holds. *)
Definition read_header (header : string) (d : dims) : outcome dims :=
  let d := mk_dims (d_events d + 1) (d_weights d) (d_particles d) (d_line d + 1) in
  match istream_int header with
  | None => Throw (scan_error (d_line d))
  | Some n =>
      if in_int (d_particles d + n)
      then Ok (mk_dims (d_events d) (d_weights d) (d_particles d + n) (d_line d))
      else Undefined
  end.

(** The [while (std::getline(f, line))] loop over the lines still to be
    read. [stale] tells what the inner [std::getline] leaves in [line] when
    no line is left: the event-open line itself, or the empty string. The
    weight test after the [if] looks at [line] as the [if] left it. *)
Fixpoint scan (stale : bool) (lines : list string) (d : dims) : outcome dims :=
  match lines with
  | [] => Ok d
  | line :: rest =>
      let d := mk_dims (d_events d) (d_weights d) (d_particles d) (d_line d + 1) in
      if contains "<event>" line then
        match rest with
        | header :: rest' =>
            let* d := read_header header d in
            scan stale rest' (count_weight header d)
        | [] =>
            let header := if stale then line else "" in
            let* d := read_header header d in
            Ok (count_weight header d)
        end
      else scan stale rest (count_weight line d)
  end.

Definition open_error (filename : string) : string := "Cannot open file: " ++ filename.

(** [countDimensions(filename)]; [file] is the text of the file, or [None]
    when the file cannot be opened. *)
Definition countDimensions (filename : string) (file : option string)
  : outcome (Z * Z * Z) :=
  match file with
  | None => Throw (open_error filename)
  | Some text =>
      let* d := scan (open_ended text) (getlines text) (mk_dims 0 0 0 0) in
      Ok (d_events d, d_weights d, d_particles d)
  end.

(** ** Pass 2: the state of the capture machine *)

Definition NO_CAPTURE : Z := 0.
Definition EVENT_HEADER : Z := 1.
Definition WGT_TAG : Z := 2.

(** [struct ParseState]; the four pointers are the buffers they point to. *)
Record ParseState : Type := mk_state {
  fevt_arr : list double;
  ievt_arr : list Z;
  fptc_arr : list double;
  iptc_arr : list Z;
  n_weights : Z;
  n_events : Z;
  n_particles : Z;
  cur_event : Z;
  cur_weight : Z;
  cur_particle : Z;
  capture : Z;
  charBuf : string
}.

Definition set_fevt (a : list double) (s : ParseState) : ParseState :=
  mk_state a (ievt_arr s) (fptc_arr s) (iptc_arr s) (n_weights s) (n_events s)
    (n_particles s) (cur_event s) (cur_weight s) (cur_particle s) (capture s) (charBuf s).
Definition set_ievt (a : list Z) (s : ParseState) : ParseState :=
  mk_state (fevt_arr s) a (fptc_arr s) (iptc_arr s) (n_weights s) (n_events s)
    (n_particles s) (cur_event s) (cur_weight s) (cur_particle s) (capture s) (charBuf s).
Definition set_fptc (a : list double) (s : ParseState) : ParseState :=
  mk_state (fevt_arr s) (ievt_arr s) a (iptc_arr s) (n_weights s) (n_events s)
    (n_particles s) (cur_event s) (cur_weight s) (cur_particle s) (capture s) (charBuf s).
Definition set_iptc (a : list Z) (s : ParseState) : ParseState :=
  mk_state (fevt_arr s) (ievt_arr s) (fptc_arr s) a (n_weights s) (n_events s)
    (n_particles s) (cur_event s) (cur_weight s) (cur_particle s) (capture s) (charBuf s).
Definition set_cur_event (v : Z) (s : ParseState) : ParseState :=
  mk_state (fevt_arr s) (ievt_arr s) (fptc_arr s) (iptc_arr s) (n_weights s) (n_events s)
    (n_particles s) v (cur_weight s) (cur_particle s) (capture s) (charBuf s).
Definition set_cur_weight (v : Z) (s : ParseState) : ParseState :=
  mk_state (fevt_arr s) (ievt_arr s) (fptc_arr s) (iptc_arr s) (n_weights s) (n_events s)
    (n_particles s) (cur_event s) v (cur_particle s) (capture s) (charBuf s).
Definition set_cur_particle (v : Z) (s : ParseState) : ParseState :=
  mk_state (fevt_arr s) (ievt_arr s) (fptc_arr s) (iptc_arr s) (n_weights s) (n_events s)
    (n_particles s) (cur_event s) (cur_weight s) v (capture s) (charBuf s).
Definition set_capture (v : Z) (s : ParseState) : ParseState :=
  mk_state (fevt_arr s) (ievt_arr s) (fptc_arr s) (iptc_arr s) (n_weights s) (n_events s)
    (n_particles s) (cur_event s) (cur_weight s) (cur_particle s) v (charBuf s).
Definition set_charBuf (v : string) (s : ParseState) : ParseState :=
  mk_state (fevt_arr s) (ievt_arr s) (fptc_arr s) (iptc_arr s) (n_weights s) (n_events s)
    (n_particles s) (cur_event s) (cur_weight s) (cur_particle s) (capture s) v.

(** ** Cells of a buffer *)

(** The position of cell [i] of [arr], when the buffer has such a cell. *)
Definition cell {A : Type} (arr : list A) (i : Z) : outcome nat :=
  if (0 <=? i) && (i <? Z.of_nat (List.length arr)) then Ok (Z.to_nat i) else Undefined.

(** [arr[i] = v] *)
Definition assign {A : Type} (arr : list A) (i : Z) (v : A) : outcome (list A) :=
  let* k := cell arr i in Ok (<[k := v]> arr).

(** [consume_next(sv, arr[i])] *)
Definition consume_into {T : Type} `{FromChars T} (sv : string) (arr : list T) (i : Z)
  : outcome (string * list T) :=
  let* k := cell arr i in
  match consume_next sv with
  | (Some v, sv') => Ok (sv', <[k := v]> arr)
  | (None, sv') => Ok (sv', arr)
  end.

(** [for (i = from; i < from + count; i++) consume_next(sv, base[i]);] *)
Fixpoint consume_run {T : Type} `{FromChars T} (count : nat) (sv : string)
    (arr : list T) (from : Z) : outcome (string * list T) :=
  match count with
  | O => Ok (sv, arr)
  | S count' =>
      let* (sv, arr) := consume_into sv arr from in
      consume_run count' sv arr (from + 1)
  end.

(** ** The extractors *)

Definition token_error (event : Z) : string :=
  "Failed to parse particle count from event number: " ++ to_string event.

(** The particle loop of [processEvent], [left] iterations to go. *)
Fixpoint read_particles (left : nat) (event : Z) (sv : string)
    (iptc : list Z) (fptc : list double) (particle : Z)
  : outcome (list Z * list double * Z) :=
  match left with
  | O => Ok (iptc, fptc, particle)
  | S left' =>
      let ip := particle * 7 in
      let fp := particle * 7 in
      let* iptc := assign iptc (ip + 0) event in
      let* (sv, iptc) := consume_run 6 sv iptc (ip + 1) in
      let* (sv, fptc) := consume_run 7 sv fptc (fp + 0) in
      read_particles left' event sv iptc fptc (particle + 1)
  end.

(** [processEvent(s)] *)
Definition processEvent (s : ParseState) : outcome ParseState :=
  let sv := charBuf s in
  match consume_next (T := Z) sv with
  | (None, _) => Throw (token_error (cur_event s))
  | (Some n_ptc, sv) =>
      let ie := cur_event s * 2 in
      let* ievt := assign (ievt_arr s) (ie + 0) n_ptc in
      let* (sv, ievt) := consume_into sv ievt (ie + 1) in
      let fe := cur_event s * (4 + n_weights s) in
      let* (sv, fevt) := consume_run 4 sv (fevt_arr s) (fe + 0) in
      let* (iptc, fptc, particle) :=
        read_particles (Z.to_nat n_ptc) (cur_event s) sv
          (iptc_arr s) (fptc_arr s) (cur_particle s) in
      Ok (set_cur_particle particle
            (set_fptc fptc (set_iptc iptc (set_fevt fevt (set_ievt ievt s)))))
  end.

(** [processWeight(s)] *)
Definition processWeight (s : ParseState) : outcome ParseState :=
  let sv := charBuf s in
  let fe := cur_event s * (4 + n_weights s) in
  let* (_, fevt) := consume_into sv (fevt_arr s) (fe + (4 + cur_weight s)) in
  Ok (set_capture NO_CAPTURE
        (set_charBuf "" (set_fevt fevt (set_cur_weight (cur_weight s + 1) s)))).

(** ** The expat callbacks *)

(** What expat reports: a start tag with its attributes, an end tag, a
    piece of character data. *)
Inductive sax : Type :=
| StartElement (name : string) (attributes : list (string * string))
| EndElement (name : string)
| CharacterData (buf : string).

Definition onStart (name : string) (attributes : list (string * string))
    (s : ParseState) : outcome ParseState :=
  let* s :=
    if String.eqb name "event" then
      Ok (set_cur_weight 0 (set_capture EVENT_HEADER s))
    else if capture s =? EVENT_HEADER then
      let* s := processEvent s in
      Ok (set_capture NO_CAPTURE (set_charBuf "" s))
    else Ok s in
  if String.eqb name "wgt" then Ok (set_capture WGT_TAG s) else Ok s.

Definition onEnd (name : string) (s : ParseState) : outcome ParseState :=
  if String.eqb name "event" then Ok (set_cur_event (cur_event s + 1) s)
  else if String.eqb name "wgt" then processWeight s
  else Ok s.

Definition onChar (buf : string) (s : ParseState) : ParseState :=
  if capture s =? 0 then s else set_charBuf (charBuf s ++ buf) s.

Definition handle (e : sax) (s : ParseState) : outcome ParseState :=
  match e with
  | StartElement name attributes => onStart name attributes s
  | EndElement name => onEnd name s
  | CharacterData buf => Ok (onChar buf s)
  end.

(** The callbacks of one parse, in the order expat makes them. *)
Fixpoint run (events : list sax) (s : ParseState) : outcome ParseState :=
  match events with
  | [] => Ok s
  | e :: events' => let* s := handle e s in run events' s
  end.

(** ** The entry point [parseLHE] *)

(** A [py::array_t] of two dimensions with its cells in row-major order. *)
Record ndarray (A : Type) : Type := mk_array {
  nrows : Z;
  ncols : Z;
  data : list A
}.
Arguments mk_array {A} nrows ncols data.
Arguments nrows {A} n.
Arguments ncols {A} n.
Arguments data {A} n.

(** [py::array_t<T> a({rows, cols})] followed by the [std::memset] to zero.
    The array host refuses a negative dimension with an exception. *)
Definition array_t {A : Type} (zero : A) (rows cols : Z) : outcome (ndarray A) :=
  if (rows <? 0) || (cols <? 0) then Throw "negative dimensions are not allowed"
  else Ok (mk_array rows cols (replicate (Z.to_nat (rows * cols)) zero)).

(** Row [r] of an array, and all its rows in order. *)
Definition row {A : Type} (a : ndarray A) (r : nat) : list A :=
  take (Z.to_nat (ncols a)) (drop (r * Z.to_nat (ncols a)) (data a)).

Definition rows {A : Type} (a : ndarray A) : list (list A) :=
  map (row a) (seq 0 (Z.to_nat (nrows a))).

(** What [XML_Parse] does over the chunks of one document: the callbacks
    it makes, in order, and the line and text of the error it stops with,
    if any. *)
Record expat_result : Type := mk_expat {
  callbacks : list sax;
  error : option (Z * string)
}.

Definition empty_error : string := "Found no events, weights, or particles.".

Definition expat_error (line : Z) (msg : string) : string :=
  "Expat error at line " ++ to_string line ++ ": " ++ msg.

Definition lhe_arrays : Type :=
  ndarray Z * ndarray double * ndarray Z * ndarray double.

Section Parse.

(** The XML tokenizer is the expat library: the parser is given what expat
    reports for the bytes of a document. *)
Variable XML_Parse : string -> expat_result.

(** [parseLHE(filename)]; [file] is the text of the file, or [None] when
    it cannot be opened. The result is the tuple
    [(i_evt, f_evt, i_ptc, f_ptc)]. *)
Definition parseLHE (filename : string) (file : option string) : outcome lhe_arrays :=
  let* (n_events, n_weights, n_particles) := countDimensions filename file in
  if (n_events =? 0) || (n_weights =? 0) || (n_particles =? 0) then Throw empty_error
  else
    let* f_evt := array_t dzero n_events (4 + n_weights) in
    let* f_ptc := array_t dzero n_particles 7 in
    let* i_evt := array_t 0 n_events 2 in
    let* i_ptc := array_t 0 n_particles 7 in
    match file with
    | None => Throw (open_error filename)
    | Some text =>
        let state :=
          mk_state (data f_evt) (data i_evt) (data f_ptc) (data i_ptc)
            n_weights n_events n_particles 0 0 0 NO_CAPTURE "" in
        let r := XML_Parse text in
        let* s := run (callbacks r) state in
        match error r with
        | Some (line, msg) => Throw (expat_error line msg)
        | None =>
            Ok (mk_array (nrows i_evt) (ncols i_evt) (ievt_arr s),
                mk_array (nrows f_evt) (ncols f_evt) (fevt_arr s),
                mk_array (nrows i_ptc) (ncols i_ptc) (iptc_arr s),
                mk_array (nrows f_ptc) (ncols f_ptc) (fptc_arr s))
        end
    end.

End Parse.

(** ** The read loop of [parseLHE] *)

(** [constexpr size_t CHUNK = 65536] *)
Definition CHUNK : nat := Z.to_nat 65536.

(** The loop [while (f.read(chunk, n) || f.gcount() > 0)] over the bytes
    [rest] the file still holds: the pairs [(chunk, isFinal)] it hands to
    [XML_Parse], as long as no call reports an error. [f.read] stores [n]
    bytes when that many are left and leaves the stream good; with fewer
    left it stores them all and sets [eofbit]. [isFinal] is [f.eof()], and
    the loop ends after a final call. [fuel] bounds the iterations: one
    more than the number of bytes is always enough. *)
Fixpoint read_loop (n fuel : nat) (rest : string) : list (string * bool) :=
  match fuel with
  | O => []
  | S fuel' =>
      let chunk := prefix_of n rest in
      let good := (n <=? String.length rest)%nat in
      let gcount := String.length chunk in
      if good || (0 <? gcount)%nat then
        let isFinal := negb good in
        (chunk, isFinal) ::
          (if isFinal then [] else read_loop n fuel' (remove_prefix n rest))
      else []
  end.

Definition read_calls (text : string) : list (string * bool) :=
  read_loop CHUNK (S (String.length text)) text.

Section Chunks.

(** Expat by the call: [XML_Parse(parser, chunk, bytes, isFinal)] moves the
    parser on and reports the callbacks it made and the error it stopped
    with, if any ([XML_STATUS_ERROR]). *)
Variable parser : Type.
Variable XML_ParserCreate : parser.
Variable XML_Parse : parser -> string -> bool -> parser * expat_result.

(** The calls of the loop, with its two [break]s: after a call that
    reports an error, and after the final call. *)
Fixpoint feed (p : parser) (calls : list (string * bool)) : expat_result :=
  match calls with
  | [] => mk_expat [] None
  | (chunk, isFinal) :: calls' =>
      let (p', r) := XML_Parse p chunk isFinal in
      match error r with
      | Some e => r
      | None =>
          if isFinal then r
          else
            let r' := feed p' calls' in
            mk_expat (callbacks r ++ callbacks r') (error r')
      end
  end.

(** What the loop of [parseLHE] gets out of expat on a file. *)
Definition parse_chunks (text : string) : expat_result :=
  feed XML_ParserCreate (read_calls text).

End Chunks.

(** * Notions of the specification *)

(** ** Tokens *)

(** The text split at the delimiters: the non-empty pieces in order. This
    is the reading of the specification, "tokenize on arbitrary
    whitespace"; [consume_next] is compared with it below. *)
Fixpoint split_acc (sv cur : string) : list string :=
  match sv with
  | "" => match cur with "" => [] | _ => [cur] end
  | String c sv' =>
      if mem_char c delims
      then match cur with "" => split_acc sv' "" | _ => cur :: split_acc sv' "" end
      else split_acc sv' (cur ++ String c "")
  end.

Definition tokens (sv : string) : list string := split_acc sv "".

(** The piece before the first delimiter, and the text from it on. *)
Fixpoint word (sv : string) : string :=
  match sv with
  | String c sv' => if mem_char c delims then "" else String c (word sv')
  | "" => ""
  end.

Fixpoint after_word (sv : string) : string :=
  match sv with
  | String c sv' => if mem_char c delims then sv else after_word sv'
  | "" => ""
  end.

(** ** Cells written by the extractors *)

(** The value of a cell after [consume_next] ran on it with the token
    [tok] ([None]: no token was left): the parsed value, or the old one. *)
Definition stored {T : Type} `{FromChars T} (tok : option string) (old : T) : T :=
  match tok with
  | Some t => match from_chars t with
              | Some v => v
              | None => old
              end
  | None => old
  end.

(** The cells of a buffer after [consume_run n] from cell [from] over the
    tokens [toks]. *)
Definition filled {T : Type} `{FromChars T} (toks : list string) (from n : nat)
    (arr : list T) (k : nat) : option T :=
  if decide (from <= k < from + n)%nat
  then stored (toks !! (k - from)%nat) <$> arr !! k
  else arr !! k.

(** The particle count [processEvent] reads from the buffer. *)
Definition read_nup (s : ParseState) : option Z :=
  fst (consume_next (T := Z) (charBuf s)).

(** The test of [processEvent] on the NUP field, [consume_next] returning
    [false]: the first token of the buffered text is absent, or
    [std::from_chars] reports an error on it, because the token does not
    start with a decimal integer or the integer does not fit an [int]. *)
Definition nup_unreadable (s : ParseState) : Prop :=
  match tokens (charBuf s) with
  | [] => True
  | t :: _ => from_chars_int t = None
  end.

(** ** States and callbacks *)

(** The state [parseLHE] hands to expat: zeroed buffers of the scanned
    sizes, all cursors at 0, nothing being captured. *)
Definition fresh (events weights particles : Z) : ParseState :=
  mk_state (replicate (Z.to_nat (events * (4 + weights))) dzero)
           (replicate (Z.to_nat (events * 2)) 0)
           (replicate (Z.to_nat (particles * 7)) dzero)
           (replicate (Z.to_nat (particles * 7)) 0)
           weights events particles 0 0 0 NO_CAPTURE "".

(** Whenever nothing is being captured the buffer is empty: both ways into
    the non-capturing state clear it. *)
Definition idle_empty (s : ParseState) : Prop :=
  capture s = NO_CAPTURE -> charBuf s = "".

(** A tag-begin named [event]; a tag-end named [wgt]. *)
Definition is_event_start (e : sax) : bool :=
  match e with
  | StartElement name _ => String.eqb name "event"
  | _ => false
  end.

Definition is_wgt_end (e : sax) : bool :=
  match e with
  | EndElement name => String.eqb name "wgt"
  | _ => false
  end.

(** The number of tag-ends named [wgt] among the callbacks. *)
Definition wgt_ends (events : list sax) : Z :=
  Z.of_nat (List.length (filter (fun e => is_wgt_end e = true) events)).

(** ** Lines of the file *)

Definition nl : string := String newline "".

(** A line that pass 1 takes for an event-open line. *)
Definition is_marker (line : string) : Prop := contains "<event>" line = true.

(** A text without newline. *)
Fixpoint one_line (line : string) : bool :=
  match line with
  | "" => true
  | String c line' => negb (Ascii.eqb c newline) && one_line line'
  end.

(** A line of character data: no newline in it and no tag. *)
Fixpoint plain (line : string) : bool :=
  match line with
  | "" => true
  | String c line' =>
      negb (Ascii.eqb c newline) && negb (Ascii.eqb c "<") && plain line'
  end.

(** The loop of [scan] leaves no line of [lines] unread and reads nothing
    beyond them: no event-open line it meets at the top of the loop is the
    last of [lines]. *)
Fixpoint whole (lines : list string) : bool :=
  match lines with
  | [] => true
  | line :: rest =>
      if contains "<event>" line
      then match rest with
           | _ :: rest' => whole rest'
           | [] => false
           end
      else whole rest
  end.

(** ** Particle rows *)

(** The owning-event cell of particle row [r]. *)
Definition owner (s : ParseState) (r : nat) : option Z := iptc_arr s !! (7 * r)%nat.

(** What one step does to the particle buffers: the rows from the old
    particle cursor up to the new one get the current event index, and no
    cell outside these rows changes. *)
Definition writes_block (s s' : ParseState) : Prop :=
  cur_event s <= cur_event s' /\
  cur_particle s <= cur_particle s' /\
  (forall r : nat,
     (Z.to_nat (cur_particle s) <= r < Z.to_nat (cur_particle s'))%nat ->
     owner s' r = Some (cur_event s)) /\
  (forall k : nat,
     (k < 7 * Z.to_nat (cur_particle s))%nat \/
     (7 * Z.to_nat (cur_particle s') <= k)%nat ->
     iptc_arr s' !! k = iptc_arr s !! k /\ fptc_arr s' !! k = fptc_arr s !! k).


(** ** Fields of an event text *)

(** The fields of an event text after NUP: the process id, the four
    event-level reals, and for particle [q] its six integers and seven
    reals. *)
Inductive field : Type :=
| IDPRUP
| event_real (i : nat)
| particle_int (q i : nat)
| particle_real (q i : nat).

(** The fields of an event of [nup] particles. *)
Definition field_of_event (nup : nat) (f : field) : Prop :=
  match f with
  | IDPRUP => True
  | event_real i => (i < 4)%nat
  | particle_int q i => (q < nup)%nat /\ (i < 6)%nat
  | particle_real q i => (q < nup)%nat /\ (i < 7)%nat
  end.

(** The place of the field's token in the event text; token 0 is NUP. *)
Definition token_index (f : field) : nat :=
  match f with
  | IDPRUP => 1
  | event_real i => 2 + i
  | particle_int q i => 6 + 13 * q + i
  | particle_real q i => 12 + 13 * q + i
  end.

(** The case in which [consume_next] leaves the cell of the field alone:
    the token is missing, or [std::from_chars] reports an error on it at
    the type of the field. *)
Definition unreadable (f : field) (tok : option string) : Prop :=
  match tok with
  | None => True
  | Some t =>
      match f with
      | IDPRUP | particle_int _ _ => from_chars_int t = None
      | event_real _ | particle_real _ _ => from_chars_double t = None
      end
  end.

(** The output cell of the field, for an extraction that starts in the
    state [base], holds the zero it was initialized with. *)
Definition at_default (base : ParseState) (f : field) (s : ParseState) : Prop :=
  match f with
  | IDPRUP =>
      ievt_arr s !! Z.to_nat (cur_event base * 2 + 1) = Some 0
  | event_real i =>
      fevt_arr s !! (Z.to_nat (cur_event base * (4 + n_weights base)) + i)%nat
      = Some dzero
  | particle_int q i =>
      iptc_arr s !! (7 * (Z.to_nat (cur_particle base) + q) + 1 + i)%nat = Some 0
  | particle_real q i =>
      fptc_arr s !! (7 * (Z.to_nat (cur_particle base) + q) + i)%nat = Some dzero
  end.

(** ** Numerals *)

(** The reading of the specification's "numeric" for an integer field: the
    token as a whole is a decimal integer numeral, an optional sign
    followed by digits and nothing else. The result is its value. *)
Definition integer_numeral (t : string) : option Z :=
  let (neg, body) :=
    match t with
    | String c r =>
        if Ascii.eqb c "-" then (true, r)
        else if Ascii.eqb c "+" then (false, r) else (false, t)
    | "" => (false, t)
    end in
  match span_digits body with
  | (d :: ds, "") => Some (if neg then - number (d :: ds) else number (d :: ds))
  | _ => None
  end.

(** The token is such a numeral. *)
Definition numeric (t : string) : bool :=
  match integer_numeral t with
  | Some _ => true
  | None => false
  end.

(** The token starts with a plus sign. *)
Definition has_plus (t : string) : bool :=
  match t with
  | String c _ => Ascii.eqb c "+"
  | "" => false
  end.

(** The text does not start with a decimal digit. *)
Definition no_digit_ahead (t : string) : bool :=
  match t with
  | String c _ => match digit c with Some _ => false | None => true end
  | "" => true
  end.

(** The reading of "numeric" for a real field: the token as a whole is a
    decimal numeral, an optional sign, digits with an optional point, and
    an optional exponent part. *)
Definition real_numeral (t : string) : bool :=
  let body :=
    match t with
    | String c r => if Ascii.eqb c "-" || Ascii.eqb c "+" then r else t
    | "" => t
    end in
  let (ip, r1) := span_digits body in
  let (fp, r2) :=
    match r1 with
    | String "." r => span_digits r
    | _ => ([], r1)
    end in
  match (ip ++ fp)%list, r2 with
  | [], _ => false
  | _ :: _, "" => true
  | _ :: _, String c r3 => Ascii.eqb (lower c) "e" && numeric r3
  end.

(** The reading of "malformed": the token is not, as a whole, a numeral of
    the type of the field. *)
Definition malformed (f : field) (t : string) : bool :=
  match f with
  | IDPRUP | particle_int _ _ => negb (numeric t)
  | event_real _ | particle_real _ _ => negb (real_numeral t)
  end.

(** ** Counts of the two passes *)

Definition total (l : list Z) : Z := foldr Z.add 0 l.


(** The extraction a step makes, if any: the event row [processEvent]
    writes and the particle count it reads. *)
Definition extraction (e : sax) (s : ParseState) : option (Z * Z) :=
  match e with
  | StartElement name _ =>
      if String.eqb name "event" then None
      else if capture s =? EVENT_HEADER then
        match read_nup s with
        | Some n => Some (cur_event s, n)
        | None => None
        end
      else None
  | _ => None
  end.

(** The extractions of a run, in order. *)
Fixpoint extractions (events : list sax) (s : ParseState) : list (Z * Z) :=
  match events with
  | [] => []
  | e :: events' =>
      match handle e s with
      | Ok s' =>
          (match extraction e s with
           | Some x => [x]
           | None => []
           end ++ extractions events' s')%list
      | _ => []
      end
  end.


(** The four buffers keep their sizes. *)
Definition same_lengths (s s' : ParseState) : Prop :=
  List.length (ievt_arr s') = List.length (ievt_arr s) /\
  List.length (fevt_arr s') = List.length (fevt_arr s) /\
  List.length (iptc_arr s') = List.length (iptc_arr s) /\
  List.length (fptc_arr s') = List.length (fptc_arr s).


(** Expat hands over a run of character data in as many pieces as it
    likes. [merge] joins the adjacent pieces: two lists of callbacks with
    the same [merge] report the same document. *)
Fixpoint merge (events : list sax) : list sax :=
  match events with
  | [] => []
  | CharacterData a :: rest =>
      match merge rest with
      | CharacterData b :: rest' => CharacterData (a ++ b) :: rest'
      | rest' => CharacterData a :: rest'
      end
  | e :: rest => e :: merge rest
  end.

(** ** Cells written in a run *)

(** The cells of [f_evt] the Weight Extractor writes in a run, in order. *)
Fixpoint weight_cells (events : list sax) (s : ParseState) : list Z :=
  match events with
  | [] => []
  | e :: events' =>
      match handle e s with
      | Ok s' =>
          ((if is_wgt_end e
            then [cur_event s * (4 + n_weights s) + (4 + cur_weight s)]
            else []) ++ weight_cells events' s')%list
      | _ => []
      end
  end.

(** No step of the run wrote cell [c] of [f_evt]: it is none of the first
    four cells of a row the Event Extractor was at, and no weight went to
    it. *)
Definition fevt_unwritten (events : list sax) (s : ParseState) (c : Z) : Prop :=
  (forall row n : Z,
     In (row, n) (extractions events s) ->
     ~ (row * (4 + n_weights s) <= c < row * (4 + n_weights s) + 4)) /\
  ~ In c (weight_cells events s).

(** No step of the run [before], which leads from [s0] to [s1], wrote the
    cell the field has for an extraction in [s1]. The particle rows from
    the particle cursor on are written by no earlier step. *)
Definition unwritten (before : list sax) (s0 s1 : ParseState) (f : field) : Prop :=
  match f with
  | IDPRUP => ~ In (cur_event s1) (map fst (extractions before s0))
  | event_real i =>
      fevt_unwritten before s0 (cur_event s1 * (4 + n_weights s1) + Z.of_nat i)
  | particle_int _ _ | particle_real _ _ => True
  end.

(** ** The particles of an event text *)



(** * Notions of the further properties *)

(** ** Values of the fields *)

(** What a cell of the four arrays holds. *)
Inductive value : Type :=
| int_value (z : Z)
| real_value (d : double).

(** The value [std::from_chars] reads from the token at the type of the
    field. *)
Definition parsed (f : field) (t : string) : option value :=
  match f with
  | IDPRUP | particle_int _ _ => int_value <$> from_chars_int t
  | event_real _ | particle_real _ _ => real_value <$> from_chars_double t
  end.

(** The output cell of the field, for an extraction that starts in the
    state [base]. *)
Definition field_cell (base : ParseState) (f : field) (s : ParseState) : option value :=
  match f with
  | IDPRUP =>
      int_value <$> ievt_arr s !! Z.to_nat (cur_event base * 2 + 1)
  | event_real i =>
      real_value <$>
        fevt_arr s !! (Z.to_nat (cur_event base * (4 + n_weights base)) + i)%nat
  | particle_int q i =>
      int_value <$> iptc_arr s !! (7 * (Z.to_nat (cur_particle base) + q) + 1 + i)%nat
  | particle_real q i =>
      real_value <$> fptc_arr s !! (7 * (Z.to_nat (cur_particle base) + q) + i)%nat
  end.

(** The cells [processEvent] refers to when it reads the count [n] lie in
    the four buffers: the two cells of the event row of [i_evt], the first
    four cells of the event row of [f_evt], and the [n] particle rows from
    the particle cursor on. *)
Definition event_fits (s : ParseState) (n : Z) : Prop :=
  (0 <= cur_event s * 2 /\
   cur_event s * 2 + 1 < Z.of_nat (List.length (ievt_arr s))) /\
  (0 <= cur_event s * (4 + n_weights s) /\
   cur_event s * (4 + n_weights s) + 4 <= Z.of_nat (List.length (fevt_arr s))) /\
  (0 < n ->
   0 <= cur_particle s /\
   7 * (cur_particle s + n) <= Z.of_nat (List.length (iptc_arr s)) /\
   7 * (cur_particle s + n) <= Z.of_nat (List.length (fptc_arr s))).

(** ** More on the callbacks *)

(** A tag-end named [event], and their number among the callbacks. *)
Definition is_event_end (e : sax) : bool :=
  match e with
  | EndElement name => String.eqb name "event"
  | _ => false
  end.

Definition event_ends (events : list sax) : Z :=
  Z.of_nat (List.length (filter (fun e => is_event_end e = true) events)).

(** A tag-begin of another name than [event]: the only callback that can
    run [processEvent]. *)
Definition is_child_start (e : sax) : bool :=
  match e with
  | StartElement name _ => negb (String.eqb name "event")
  | _ => false
  end.

(** The state with other values in [n_events] and [n_particles]. *)
Definition set_counts (events particles : Z) (s : ParseState) : ParseState :=
  mk_state (fevt_arr s) (ievt_arr s) (fptc_arr s) (iptc_arr s) (n_weights s) events
    particles (cur_event s) (cur_weight s) (cur_particle s) (capture s) (charBuf s).

Definition map_outcome {A B : Type} (f : A -> B) (m : outcome A) : outcome B :=
  match m with
  | Ok a => Ok (f a)
  | Throw w => Throw w
  | Undefined => Undefined
  end.

(** A [wgt] element as expat reports it: the character data before its
    tag, its attributes, its text. *)
Record wgt_element : Type := mk_wgt {
  wgt_gap : string;
  wgt_attributes : list (string * string);
  wgt_text : string
}.

Definition wgt_callbacks (w : wgt_element) : list sax :=
  [CharacterData (wgt_gap w); StartElement "wgt" (wgt_attributes w);
   CharacterData (wgt_text w); EndElement "wgt"].

Definition wgts_callbacks (ws : list wgt_element) : list sax :=
  concat (map wgt_callbacks ws).

(** ** More on the lines and bytes of the file *)

(** The number of lines that hold the text [<weight ]. *)
Definition weight_lines (lines : list string) : Z :=
  Z.of_nat (List.length (filter (fun l => contains "<weight " l = true) lines)).

(** The bytes of the chunks, one after the other. *)
Definition joined (calls : list (string * bool)) : string :=
  foldr (fun c acc => fst c ++ acc) "" calls.

(** ** Event elements *)

(** An [event] element with [wgt] children as expat reports it: the
    character data before its tag, its attributes, the character data up
    to the first child, the [wgt] children, the character data before its
    closing tag. *)
Record event_element : Type := mk_event {
  ev_gap : string;
  ev_attributes : list (string * string);
  ev_text : string;
  ev_weights : list wgt_element;
  ev_tail : string
}.

Definition event_callbacks (ev : event_element) : list sax :=
  CharacterData (ev_gap ev) :: StartElement "event" (ev_attributes ev) ::
  CharacterData (ev_text ev) ::
  (wgts_callbacks (ev_weights ev) ++ [CharacterData (ev_tail ev); EndElement "event"])%list.

Definition events_callbacks (evs : list event_element) : list sax :=
  concat (map event_callbacks evs).

(** The text buffered when the first child tag arrives, and its tokens. *)
Definition ev_buffer (ev : event_element) : string :=
  ev_text ev ++ match ev_weights ev with
                | w :: _ => wgt_gap w
                | [] => ""
                end.

Definition ev_tokens (ev : event_element) : list string := tokens (ev_buffer ev).

(** The particle count of the event, as [processEvent] reads it. *)
Definition ev_count (ev : event_element) : option Z :=
  match ev_tokens ev with
  | t :: _ => from_chars_int t
  | [] => None
  end.

(** An event the buffers of [weights] declared weights are made for: it
    has a [wgt] child and no more of them than declared, and its count is
    readable and not negative. *)
Definition regular (weights : Z) (ev : event_element) : Prop :=
  ev_weights ev <> [] /\
  Z.of_nat (List.length (ev_weights ev)) <= weights /\
  exists n : Z, ev_count ev = Some n /\ 0 <= n.

Definition ev_particles (ev : event_element) : Z := default 0 (ev_count ev).

(** The number of particles of the events. *)
Definition particles_of (evs : list event_element) : Z := total (map ev_particles evs).

(** What an event element leaves in the buffers, told from the state [s]
    it starts in. *)
Definition event_rows (s : ParseState) (ev : event_element) (n : Z) (s1 : ParseState)
  : Prop :=
  let i := Z.to_nat (cur_event s) in
  let W := Z.to_nat (4 + n_weights s) in
  let p := Z.to_nat (cur_particle s) in
  ievt_arr s1 !! (2 * i)%nat = Some n /\
  ievt_arr s1 !! (2 * i + 1)%nat
  = stored (ev_tokens ev !! 1%nat) <$> ievt_arr s !! (2 * i + 1)%nat /\
  (forall c : nat,
     (c < 4)%nat ->
     fevt_arr s1 !! (i * W + c)%nat
     = stored (ev_tokens ev !! (2 + c)%nat) <$> fevt_arr s !! (i * W + c)%nat) /\
  (forall (j : nat) (w : wgt_element),
     ev_weights ev !! j = Some w ->
     fevt_arr s1 !! (i * W + 4 + j)%nat
     = stored (head (tokens (wgt_text w))) <$> fevt_arr s !! (i * W + 4 + j)%nat) /\
  (forall q c : nat,
     (q < Z.to_nat n)%nat -> (c < 7)%nat ->
     iptc_arr s1 !! (7 * (p + q) + c)%nat
     = match c with
       | O => Some (cur_event s)
       | S c' => stored (ev_tokens ev !! (6 + 13 * q + c')%nat)
                   <$> iptc_arr s !! (7 * (p + q) + c)%nat
       end /\
     fptc_arr s1 !! (7 * (p + q) + c)%nat
     = stored (ev_tokens ev !! (12 + 13 * q + c)%nat)
         <$> fptc_arr s !! (7 * (p + q) + c)%nat).

(** The cells outside the rows of the event are left alone. *)
Definition event_frame (s : ParseState) (ev : event_element) (n : Z) (s1 : ParseState)
  : Prop :=
  let i := Z.to_nat (cur_event s) in
  let W := Z.to_nat (4 + n_weights s) in
  let p := Z.to_nat (cur_particle s) in
  (forall k : nat,
     (k < 2 * i)%nat \/ (2 * (i + 1) <= k)%nat -> ievt_arr s1 !! k = ievt_arr s !! k) /\
  (forall k : nat,
     (k < i * W)%nat \/ (i * W + 4 + List.length (ev_weights ev) <= k)%nat ->
     fevt_arr s1 !! k = fevt_arr s !! k) /\
  (forall k : nat,
     (k < 7 * p)%nat \/ (7 * (p + Z.to_nat n) <= k)%nat ->
     iptc_arr s1 !! k = iptc_arr s !! k /\ fptc_arr s1 !! k = fptc_arr s !! k).

Definition header_state (s : ParseState) (ev : event_element) : ParseState :=
  set_charBuf (ev_buffer ev) (set_cur_weight 0 (set_capture EVENT_HEADER s)).

(** The rows of an event in the arrays of a parse that started on zeroed
    buffers: row [i] of the event arrays of width [W] for [f_evt], and the
    particle rows from row [p] on. A cell whose token is missing or not
    accepted holds the zero it started with. *)
Definition event_stored (W i p : nat) (ev : event_element) (s' : ParseState) : Prop :=
  ievt_arr s' !! (2 * i)%nat = Some (ev_particles ev) /\
  ievt_arr s' !! (2 * i + 1)%nat = Some (stored (ev_tokens ev !! 1%nat) 0) /\
  (forall c : nat,
     (c < 4)%nat ->
     fevt_arr s' !! (i * W + c)%nat = Some (stored (ev_tokens ev !! (2 + c)%nat) dzero)) /\
  (forall j : nat,
     (4 + j < W)%nat ->
     fevt_arr s' !! (i * W + 4 + j)%nat
     = Some (match ev_weights ev !! j with
             | Some w => stored (head (tokens (wgt_text w))) dzero
             | None => dzero
             end)) /\
  (forall q c : nat,
     (q < Z.to_nat (ev_particles ev))%nat -> (c < 7)%nat ->
     iptc_arr s' !! (7 * (p + q) + c)%nat
     = Some (match c with
             | O => Z.of_nat i
             | S c' => stored (ev_tokens ev !! (6 + 13 * q + c')%nat) 0
             end) /\
     fptc_arr s' !! (7 * (p + q) + c)%nat
     = Some (stored (ev_tokens ev !! (12 + 13 * q + c)%nat) dzero)).

(** The cells from the cursors on still hold their zeros. *)
Definition blank (s : ParseState) : Prop :=
  (forall k : nat,
     (2 * Z.to_nat (cur_event s) <= k < List.length (ievt_arr s))%nat ->
     ievt_arr s !! k = Some 0) /\
  (forall k : nat,
     (Z.to_nat (cur_event s) * Z.to_nat (4 + n_weights s) <= k
      < List.length (fevt_arr s))%nat ->
     fevt_arr s !! k = Some dzero) /\
  (forall k : nat,
     (7 * Z.to_nat (cur_particle s) <= k)%nat ->
     ((k < List.length (iptc_arr s))%nat -> iptc_arr s !! k = Some 0) /\
     ((k < List.length (fptc_arr s))%nat -> fptc_arr s !! k = Some dzero)).

(** A callback that is no tag of [event] or [wgt]. *)
Definition is_neutral (e : sax) : bool :=
  match e with
  | StartElement name _ | EndElement name =>
      negb (String.eqb name "event") && negb (String.eqb name "wgt")
  | CharacterData _ => true
  end.

(** ** Event blocks of the file *)

(** The lines of an event block as pass 1 sees them: the line with the
    event-open tag, the line after it, and the lines up to the next
    event-open line. *)
Record line_block : Type := mk_block {
  lb_marker : string;
  lb_header : string;
  lb_body : list string
}.

Definition block_lines (b : line_block) : list string :=
  lb_marker b :: lb_header b :: lb_body b.

(** The lines of the block the weight test of the scan looks at. *)
Definition block_tested (b : line_block) : list string := lb_header b :: lb_body b.

(** The particle count [operator>>] reads from the header line. *)
Definition block_count (b : line_block) : Z := default 0 (istream_int (lb_header b)).

(** A block whose first line holds [<event>], whose second line starts
    with a count that is not negative, and whose other lines do not hold
    [<event>]. *)
Definition regular_block (b : line_block) : Prop :=
  contains "<event>" (lb_marker b) = true /\
  (exists n : Z, istream_int (lb_header b) = Some n /\ 0 <= n) /\
  Forall (fun l => contains "<event>" l = false) (lb_body b).

(** A block whose first line holds [<event>], whose second line starts
    with an integer of either sign, and whose other lines do not hold
    [<event>]. *)
Definition readable_block (b : line_block) : Prop :=
  contains "<event>" (lb_marker b) = true /\
  (exists n : Z, istream_int (lb_header b) = Some n) /\
  Forall (fun l => contains "<event>" l = false) (lb_body b).

(** Every sum of the first counts is an [int]. *)
Definition sums_in_int (counts : list Z) : Prop :=
  forall k : nat, in_int (total (take k counts)) = true.

(** * Documents, callbacks and states of the examples *)

(** The double quote. *)
Definition dq : string := String "034"%char "".

(** A tokenizer that reports [r] on the document [text]. *)
Definition reports (text : string) (r : expat_result) : string -> expat_result :=
  fun t => if String.eqb t text then r else mk_expat [] (Some (1, "syntax error")).

Definition one_event_run : list sax :=
  [StartElement "event" []; CharacterData "1 1 1.0 2.0 3.0 4.0 21 1";
   StartElement "wgt" []; CharacterData "0.5"; EndElement "wgt";
   EndElement "event"].

Definition two_weights_run : list sax :=
  [CharacterData "1 1 1.0 2.0 3.0 4.0 21 1";
   StartElement "wgt" []; CharacterData "0.5"; EndElement "wgt";
   StartElement "wgt" []; CharacterData "oops"; EndElement "wgt"].

(** A document whose second event-open tag carries an attribute. *)
Definition attributed_text : string :=
  "<LesHouchesEvents>" ++ nl ++
  "<weight id=" ++ dq ++ "w0" ++ dq ++ ">nominal</weight>" ++ nl ++
  "<event>" ++ nl ++
  "1 1 1.0 2.0 3.0 4.0" ++ nl ++
  "21 -1 0 0 501 0 0.0 0.0 100.5 100.5 0.0 0.0 1.0" ++ nl ++
  "<wgt id=" ++ dq ++ "w0" ++ dq ++ ">0.5</wgt>" ++ nl ++
  "</event>" ++ nl ++
  "<event npart=" ++ dq ++ "1" ++ dq ++ ">" ++ nl ++
  "1 1 1.0 2.0 3.0 4.0" ++ nl ++
  "21 1 0 0 0 501 0.0 0.0 -100.5 100.5 0.0 0.0 -1.0" ++ nl ++
  "<wgt id=" ++ dq ++ "w0" ++ dq ++ ">0.25</wgt>" ++ nl ++
  "</event>" ++ nl ++
  "</LesHouchesEvents>" ++ nl.

(** The callbacks expat makes on it. *)
Definition attributed_callbacks : list sax :=
  [StartElement "LesHouchesEvents" []; CharacterData nl;
   StartElement "weight" [("id", "w0")]; CharacterData "nominal";
   EndElement "weight"; CharacterData nl;
   StartElement "event" [];
   CharacterData (nl ++ "1 1 1.0 2.0 3.0 4.0" ++ nl ++
                  "21 -1 0 0 501 0 0.0 0.0 100.5 100.5 0.0 0.0 1.0" ++ nl);
   StartElement "wgt" [("id", "w0")]; CharacterData "0.5"; EndElement "wgt";
   CharacterData nl; EndElement "event"; CharacterData nl;
   StartElement "event" [("npart", "1")];
   CharacterData (nl ++ "1 1 1.0 2.0 3.0 4.0" ++ nl ++
                  "21 1 0 0 0 501 0.0 0.0 -100.5 100.5 0.0 0.0 -1.0" ++ nl);
   StartElement "wgt" [("id", "w0")]; CharacterData "0.25"; EndElement "wgt";
   CharacterData nl; EndElement "event"; CharacterData nl;
   EndElement "LesHouchesEvents"].

Definition bad_header_text : string :=
  "<LesHouchesEvents>" ++ nl ++
  "<event>" ++ nl ++
  "1 1 1.0 2.0 3.0 4.0" ++ nl ++
  "</event>" ++ nl ++
  "<event>" ++ nl ++
  "one 1 1.0 2.0 3.0 4.0" ++ nl ++
  "</event>" ++ nl.

(** An event of one particle whose process id is a bare sign, with a real
    that is no number, an integer that starts with a letter, and a text
    that stops in the middle of the particle line. *)
Definition lenient_state : ParseState :=
  set_charBuf "1 - 1.0 n/a 3.0 4.0 21 -1 0 0 x501 0 0.0 0.0 9.5"
    (set_capture EVENT_HEADER (fresh 1 1 1)).

Definition lenient_result : ParseState :=
  Eval vm_compute in
    match processEvent lenient_state with
    | Ok s => s
    | _ => fresh 0 0 0
    end.





Definition header_line : string := "2 1 1.0 2.0 3.0 4.0".

Definition wgt_line : string := "<wgt id=" ++ dq ++ "w0" ++ dq ++ ">0.5</wgt>".

Definition weight_line : string :=
  "<weight id=" ++ dq ++ "w0" ++ dq ++ ">nominal</weight>".

(** The file of the scenario as the specification words it: one event
    block, the header line, two particle lines [p1] and [p2], one [wgt]
    element. *)
Definition event_only_text (p1 p2 : string) : string :=
  "<event>" ++ nl ++ header_line ++ nl ++ p1 ++ nl ++ p2 ++ nl ++
  wgt_line ++ nl ++ "</event>" ++ nl.

Definition event_only_callbacks (p1 p2 : string) : list sax :=
  [StartElement "event" [];
   CharacterData (nl ++ header_line ++ nl ++ p1 ++ nl ++ p2 ++ nl);
   StartElement "wgt" [("id", "w0")]; CharacterData "0.5"; EndElement "wgt";
   CharacterData nl; EndElement "event"].

(** The same event block in a document that declares the weight: the line
    with [<weight ] is what pass 1 counts. *)
Definition scenario_text (p1 p2 : string) : string :=
  "<LesHouchesEvents>" ++ nl ++ weight_line ++ nl ++
  "<event>" ++ nl ++ header_line ++ nl ++ p1 ++ nl ++ p2 ++ nl ++
  wgt_line ++ nl ++ "</event>" ++ nl ++ "</LesHouchesEvents>" ++ nl.

Definition scenario_prologue : list sax :=
  [StartElement "LesHouchesEvents" []; CharacterData nl;
   StartElement "weight" [("id", "w0")]; CharacterData "nominal";
   EndElement "weight"; CharacterData nl].

Definition scenario_body (p1 p2 : string) : string :=
  nl ++ header_line ++ nl ++ p1 ++ nl ++ p2 ++ nl.

Definition scenario_epilogue : list sax :=
  [CharacterData "0.5"; EndElement "wgt"; CharacterData nl; EndElement "event";
   CharacterData nl; EndElement "LesHouchesEvents"].

(** The callbacks expat makes on [scenario_text]. *)
Definition scenario_callbacks (p1 p2 : string) : list sax :=
  (scenario_prologue ++
   [StartElement "event" []; CharacterData (scenario_body p1 p2);
    StartElement "wgt" [("id", "w0")]] ++
   scenario_epilogue)%list.

(** The same callbacks as expat makes them, line by line. *)
Definition scenario_pieces (p1 p2 : string) : list sax :=
  (scenario_prologue ++
   [StartElement "event" []; CharacterData nl; CharacterData header_line;
    CharacterData nl; CharacterData p1; CharacterData nl; CharacterData p2;
    CharacterData nl; StartElement "wgt" [("id", "w0")]] ++
   scenario_epilogue)%list.

Definition particle_a : string := "21 -1 0 0 501 0 0.0 0.0 100.5 100.5 0.0 0.0 1.0".
Definition particle_b : string := "21 -1 0 0 0 501 0.0 0.0 -100.5 100.5 0.0 0.0 -1.0".

(** The state in which the tag-begin [wgt] of the scenario arrives. *)
Definition scenario_header_state (p1 p2 : string) : ParseState :=
  mk_state (replicate 5 dzero) (replicate 2 0) (replicate 14 dzero) (replicate 14 0)
    1 1 2 0 0 0 EVENT_HEADER (scenario_body p1 p2).

(** ** Inputs of the further examples *)

(** An event text of three particles in buffers with room for one. *)
Definition crowded_state : ParseState :=
  set_charBuf "3 1 1.0 2.0 3.0 4.0 21 -1 0 0 501 0 0.0 0.0 9.5 9.5 0.0 0.0 1.0"
    (set_capture EVENT_HEADER (fresh 1 1 1)).

(** An event header with a negative particle count. *)
Definition negative_count_state : ParseState :=
  set_charBuf "-3 1 1.0 2.0 3.0 4.0" (set_capture EVENT_HEADER (fresh 1 1 1)).

(** The second [wgt] element of an event of a file that declares one
    weight. *)
Definition second_weight_state : ParseState :=
  set_charBuf "0.25" (set_capture WGT_TAG (set_cur_weight 1 (fresh 2 1 2))).

Definition two_wgt_elements : list wgt_element :=
  [mk_wgt nl [("id", "a")] "0.5"; mk_wgt nl [("id", "b")] "0.25"].

(** An event block without child element. *)
Definition childless_event_run : list sax :=
  [StartElement "event" []; CharacterData "2 1 1.0 2.0 3.0 4.0"; EndElement "event"].


(** A file that declares a weight and holds no event. *)
Definition no_event_text : string :=
  "<LesHouchesEvents>" ++ nl ++ weight_line ++ nl ++ "</LesHouchesEvents>" ++ nl.

(** A document that stops inside its event, filled up with spaces to the
    size of one chunk. *)
Fixpoint fill (n : nat) (c : ascii) : string :=
  match n with
  | O => ""
  | S n' => String c (fill n' c)
  end.

Definition unclosed_text : string :=
  "<LesHouchesEvents>" ++ nl ++ weight_line ++ nl ++
  "<event>" ++ nl ++ "1 1 1.0 2.0 3.0 4.0" ++ nl.

Definition one_chunk_text : string :=
  unclosed_text ++ fill (CHUNK - String.length unclosed_text) " ".

(** A tokenizer that makes no callback and complains at the final call
    only. *)
Definition silent_expat (p : unit) (chunk : string) (isFinal : bool)
  : unit * expat_result :=
  (p, mk_expat [] (if isFinal then Some (1, "no element found") else None)).

(** Two event elements of a file that declares one weight, and the
    callbacks after the last of them. *)
Definition first_event : event_element :=
  mk_event "" [] (nl ++ "1 1 1.0 2.0 3.0 4.0" ++ nl ++ particle_a ++ nl)
    [mk_wgt "" [("id", "w0")] "0.5"] nl.

Definition second_event : event_element :=
  mk_event nl [] (nl ++ header_line ++ nl ++ particle_a ++ nl ++ particle_b ++ nl)
    [mk_wgt "" [("id", "w0")] "0.25"] nl.

Definition two_events : list event_element := [first_event; second_event].

Definition document_epilogue : list sax :=
  [CharacterData nl; EndElement "LesHouchesEvents"].

(** The file of the two events, and its event blocks. *)
Definition second_wgt_line : string := "<wgt id=" ++ dq ++ "w0" ++ dq ++ ">0.25</wgt>".

Definition two_events_text : string :=
  "<LesHouchesEvents>" ++ nl ++ weight_line ++ nl ++
  "<event>" ++ nl ++ "1 1 1.0 2.0 3.0 4.0" ++ nl ++ particle_a ++ nl ++
  wgt_line ++ nl ++ "</event>" ++ nl ++
  "<event>" ++ nl ++ header_line ++ nl ++ particle_a ++ nl ++ particle_b ++ nl ++
  second_wgt_line ++ nl ++ "</event>" ++ nl ++ "</LesHouchesEvents>" ++ nl.

Definition two_blocks : list line_block :=
  [mk_block "<event>" "1 1 1.0 2.0 3.0 4.0" [particle_a; wgt_line; "</event>"];
   mk_block "<event>" header_line
     [particle_a; particle_b; second_wgt_line; "</event>"; "</LesHouchesEvents>"]].

(** ** Inputs of the examples on the count, the unchecked fields and the
    particle rows *)

(** Event texts whose count is a numeral with a plus sign, a numeral
    beyond the largest [int], and a numeral followed by letters. *)
Definition plus_count_state : ParseState :=
  set_charBuf "+2 1 1.0 2.0 3.0 4.0" (set_capture EVENT_HEADER (fresh 1 1 2)).

Definition large_count_state : ParseState :=
  set_charBuf "2147483648 1 1.0 2.0 3.0 4.0" (set_capture EVENT_HEADER (fresh 1 1 2)).

Definition trailing_count_state : ParseState :=
  set_charBuf "2abc 1 1.0 2.0 3.0 4.0" (set_capture EVENT_HEADER (fresh 1 1 2)).

(** An event whose process id, first real and first particle integer go
    on after a number. *)
Definition prefix_state : ParseState :=
  set_charBuf "1 12abc 1,5 2.0 3.0 4.0 3.7 -1 0 0 501 0 0.0 0.0 9.5 9.5 0.0 0.0 1.0"
    (set_capture EVENT_HEADER (fresh 1 1 1)).

Definition prefix_result : ParseState :=
  Eval vm_compute in
    match processEvent prefix_state with
    | Ok s => s
    | _ => fresh 0 0 0
    end.

(** The callbacks up to the first child tag of the event of
    [lenient_state]. *)
Definition lenient_run : list sax :=
  [StartElement "event" [];
   CharacterData "1 - 1.0 n/a 3.0 4.0 21 -1 0 0 x501 0 0.0 0.0 9.5"].

(** A document that declares one weight; its first event has two [wgt]
    elements, and the first real of its second event is no number. *)
Definition spill_text : string :=
  "<LesHouchesEvents>" ++ nl ++ weight_line ++ nl ++
  "<event>" ++ nl ++ "1 1 1.0 2.0 3.0 4.0" ++ nl ++ particle_a ++ nl ++
  wgt_line ++ nl ++
  "<wgt id=" ++ dq ++ "w1" ++ dq ++ ">0.25</wgt>" ++ nl ++ "</event>" ++ nl ++
  "<event>" ++ nl ++ "1 1 n/a 2.0 3.0 4.0" ++ nl ++ particle_b ++ nl ++
  "<wgt id=" ++ dq ++ "w0" ++ dq ++ ">0.75</wgt>" ++ nl ++ "</event>" ++ nl ++
  "</LesHouchesEvents>" ++ nl.

Definition spill_callbacks : list sax :=
  (scenario_prologue ++
   [StartElement "event" [];
    CharacterData (nl ++ "1 1 1.0 2.0 3.0 4.0" ++ nl ++ particle_a ++ nl);
    StartElement "wgt" [("id", "w0")]; CharacterData "0.5"; EndElement "wgt";
    CharacterData nl;
    StartElement "wgt" [("id", "w1")]; CharacterData "0.25"; EndElement "wgt";
    CharacterData nl; EndElement "event"; CharacterData nl;
    StartElement "event" [];
    CharacterData (nl ++ "1 1 n/a 2.0 3.0 4.0" ++ nl ++ particle_b ++ nl);
    StartElement "wgt" [("id", "w0")]; CharacterData "0.75"; EndElement "wgt";
    CharacterData nl; EndElement "event"; CharacterData nl;
    EndElement "LesHouchesEvents"])%list.

Definition spill_expat : string -> expat_result :=
  reports spill_text (mk_expat spill_callbacks None).







(** A file of two events whose particle counts are 1 and -1. *)
Definition cancelling_text : string :=
  "<LesHouchesEvents>" ++ nl ++ weight_line ++ nl ++
  "<event>" ++ nl ++ "1 1 1.0 2.0 3.0 4.0" ++ nl ++ particle_a ++ nl ++
  wgt_line ++ nl ++ "</event>" ++ nl ++
  "<event>" ++ nl ++ "-1 1 1.0 2.0 3.0 4.0" ++ nl ++
  wgt_line ++ nl ++ "</event>" ++ nl ++ "</LesHouchesEvents>" ++ nl.

Definition cancelling_blocks : list line_block :=
  [mk_block "<event>" "1 1 1.0 2.0 3.0 4.0" [particle_a; wgt_line; "</event>"];
   mk_block "<event>" "-1 1 1.0 2.0 3.0 4.0"
     [wgt_line; "</event>"; "</LesHouchesEvents>"]].

(** * Properties *)

(** ** Outcomes *)

Lemma bind_Ok {A B : Type} (m : outcome A) (k : A -> outcome B) (b : B) :
  bind m k = Ok b -> exists a, m = Ok a /\ k a = Ok b.
Proof. destruct m; simpl; intros E; try discriminate. eauto. Qed.

Lemma bind_Throw {A B : Type} (m : outcome A) (k : A -> outcome B) (w : string) :
  bind m k = Throw w -> m = Throw w \/ exists a, m = Ok a /\ k a = Throw w.
Proof.
  destruct m as [a | w' | ]; simpl; intros E.
  - right. eauto.
  - left. congruence.
  - discriminate.
Qed.

(** Splits a hypothesis [bind m k = Ok b] into its two steps. *)
Ltac bind_ok H :=
  let a := fresh "a" in
  let E := fresh "E" in
  apply bind_Ok in H; destruct H as (a & E & H).

(** ** Pass 1 and the empty-dimensions test *)

(** C4. When the pass-1 scan returns a count of zero for the events, for
    the weight lines or for the particles, [parseLHE] throws the
    empty-input error: the test stands before the first allocation, and a
    thrown outcome carries no array. *)
Theorem parseLHE_empty_dimensions :
  forall (XML_Parse : string -> expat_result) (filename : string)
         (file : option string) (n_events n_weights n_particles : Z),
    countDimensions filename file = Ok (n_events, n_weights, n_particles) ->
    n_events = 0 \/ n_weights = 0 \/ n_particles = 0 ->
    parseLHE XML_Parse filename file = Throw empty_error.
Proof.
  intros XML_Parse filename file ne nw np Hscan Hzero.
  unfold parseLHE. rewrite Hscan. simpl.
  destruct Hzero as [-> | [-> | ->]]; simpl;
    rewrite ?Z.eqb_refl, ?orb_true_r; reflexivity.
Qed.

Lemma parseLHE_empty_dimensions_witness :
  countDimensions "events.lhe" (Some (event_only_text particle_a particle_b))
  = Ok (1, 0, 2) /\
  parseLHE (fun _ => mk_expat (event_only_callbacks particle_a particle_b) None)
    "events.lhe" (Some (event_only_text particle_a particle_b))
  = Throw empty_error.
Proof.
  assert (H : countDimensions "events.lhe"
                (Some (event_only_text particle_a particle_b)) = Ok (1, 0, 2))
    by (vm_compute; reflexivity).
  split; [exact H |].
  apply (parseLHE_empty_dimensions _ _ _ 1 0 2 H). right. left. reflexivity.
Defined.

(** ** Tokens of a buffer *)

Lemma append_nil_r (s : string) : s ++ "" = s.
Proof. induction s as [| c s IH]; simpl; [reflexivity | now rewrite IH]. Qed.

Lemma append_assoc (a b c : string) : (a ++ b) ++ c = a ++ (b ++ c).
Proof. induction a as [| x a IH]; simpl; [reflexivity | now rewrite IH]. Qed.

Lemma append_not_nil (a : string) (c : ascii) : a ++ String c "" <> "".
Proof. destruct a; simpl; discriminate. Qed.

Lemma split_acc_word (sv cur : string) :
  cur <> "" ->
  split_acc sv cur = (cur ++ word sv) :: split_acc (after_word sv) "".
Proof.
  revert cur. induction sv as [| c sv IH]; intros cur Hcur.
  - simpl. rewrite append_nil_r. destruct cur; [contradiction | reflexivity].
  - cbn [split_acc word after_word]. destruct (mem_char c delims) eqn:Hc.
    + rewrite append_nil_r. cbn [split_acc]. rewrite Hc.
      destruct cur; [contradiction | reflexivity].
    + rewrite IH by apply append_not_nil.
      rewrite append_assoc. reflexivity.
Qed.

Lemma word_substr0 (sv : string) :
  substr0 sv (find_first_of delims sv) = word sv.
Proof.
  induction sv as [| c sv IH]; simpl; [reflexivity |].
  destruct (mem_char c delims); simpl; [reflexivity |].
  destruct (find_first_of delims sv); simpl in *; congruence.
Qed.

Lemma after_word_remove (sv : string) :
  match find_first_of delims sv with
  | None => ""
  | Some e => remove_prefix e sv
  end = after_word sv.
Proof.
  induction sv as [| c sv IH]; simpl; [reflexivity |].
  destruct (mem_char c delims); simpl; [reflexivity |].
  destruct (find_first_of delims sv); simpl in *; exact IH.
Qed.

Lemma tokens_none (sv : string) :
  find_first_not_of delims sv = None -> tokens sv = [].
Proof.
  unfold tokens. induction sv as [| c sv IH]; [reflexivity |].
  cbn [split_acc find_first_not_of].
  destruct (mem_char c delims); [| discriminate].
  destruct (find_first_not_of delims sv); [discriminate | auto].
Qed.

Lemma tokens_some (sv : string) (b : nat) :
  find_first_not_of delims sv = Some b ->
  tokens sv = word (remove_prefix b sv) :: tokens (after_word (remove_prefix b sv)).
Proof.
  unfold tokens. revert b. induction sv as [| c sv IH]; intros b; [discriminate |].
  cbn [split_acc find_first_not_of].
  destruct (mem_char c delims) eqn:Hc.
  - destruct (find_first_not_of delims sv) as [b' |]; [| discriminate].
    intros E. inversion E; subst. cbn [remove_prefix]. apply IH. reflexivity.
  - intros E. inversion E; subst. cbn [remove_prefix word after_word]. rewrite Hc.
    cbn [append]. rewrite split_acc_word by discriminate. reflexivity.
Qed.

(** [consume_next] reads the first token of the text and leaves the view
    on the other tokens; without a token it leaves the view as it is. *)
Lemma consume_next_tokens {T : Type} `{FromChars T} (sv : string) :
  match tokens sv with
  | [] => consume_next sv = (None, sv)
  | t :: ts =>
      fst (consume_next sv) = from_chars t /\ tokens (snd (consume_next sv)) = ts
  end.
Proof.
  unfold consume_next.
  destruct (find_first_not_of delims sv) as [b |] eqn:Hb.
  - rewrite (tokens_some _ _ Hb). cbn [fst snd].
    rewrite word_substr0, after_word_remove. split; reflexivity.
  - rewrite (tokens_none _ Hb). reflexivity.
Qed.

(** ** Cells *)

Lemma cell_Ok {A : Type} (arr : list A) (i : Z) (k : nat) :
  cell arr i = Ok k -> 0 <= i < Z.of_nat (List.length arr) /\ k = Z.to_nat i.
Proof.
  unfold cell. destruct (0 <=? i) eqn:E1; destruct (i <? _) eqn:E2; simpl;
    intros E; inversion E; subst. split; [lia | reflexivity].
Qed.

Lemma cell_in {A : Type} (arr : list A) (i : Z) :
  0 <= i < Z.of_nat (List.length arr) -> cell arr i = Ok (Z.to_nat i).
Proof.
  intros Hi. unfold cell.
  replace (0 <=? i) with true by (symmetry; apply Z.leb_le; lia).
  replace (i <? _) with true by (symmetry; apply Z.ltb_lt; lia).
  reflexivity.
Qed.

Lemma cell_no_throw {A : Type} (arr : list A) (i : Z) (w : string) :
  cell arr i <> Throw w.
Proof. unfold cell. destruct (_ && _); discriminate. Qed.

(** ** What [consume_next] stores *)

Lemma consume_into_eq {T : Type} `{FromChars T} (sv : string) (arr : list T) (i : Z) :
  consume_into sv arr i =
  let* k := cell arr i in
  Ok (snd (consume_next sv), alter (stored (head (tokens sv))) k arr).
Proof.
  unfold consume_into. destruct (cell arr i) as [k | |]; simpl; try reflexivity.
  pose proof (consume_next_tokens (T := T) sv) as Ht.
  destruct (tokens sv) as [| t ts]; simpl.
  - rewrite Ht. simpl. rewrite list_alter_id by reflexivity. reflexivity.
  - destruct Ht as [Hv _]. unfold stored.
    destruct (consume_next sv) as [[v |] sv']; simpl in *; rewrite <- Hv.
    + rewrite list_insert_alter. reflexivity.
    + rewrite list_alter_id by reflexivity. reflexivity.
Qed.

Lemma consume_next_tail {T : Type} `{FromChars T} (sv : string) :
  tokens (snd (consume_next (T := T) sv)) = tail (tokens sv).
Proof.
  pose proof (consume_next_tokens (T := T) sv) as Ht.
  destruct (tokens sv) as [| t ts] eqn:E.
  - rewrite Ht. simpl. exact E.
  - destruct Ht as [_ Ht]. exact Ht.
Qed.

Lemma drop_tail {A : Type} (n : nat) (l : list A) : drop n (tail l) = drop (S n) l.
Proof. destruct l; [destruct n |]; reflexivity. Qed.

Lemma consume_run_spec {T : Type} `{FromChars T} (n : nat) :
  forall (sv : string) (arr : list T) (from : Z) (sv' : string) (arr' : list T),
    consume_run n sv arr from = Ok (sv', arr') ->
    tokens sv' = drop n (tokens sv) /\
    List.length arr' = List.length arr /\
    (n <> O -> 0 <= from /\ from + Z.of_nat n <= Z.of_nat (List.length arr)) /\
    forall k : nat, arr' !! k = filled (tokens sv) (Z.to_nat from) n arr k.
Proof.
  induction n as [| n IH]; intros sv arr from sv' arr' E.
  - simpl in E. inversion E; subst. repeat split; try congruence.
    intros k. unfold filled. destruct (decide _); [lia | reflexivity].
  - cbn [consume_run] in E. bind_ok E. destruct a as [sv1 arr1].
    rewrite consume_into_eq in E0. bind_ok E0. inversion E0; subst. clear E0.
    apply cell_Ok in E1. destruct E1 as [Hfrom ->].
    apply IH in E. destruct E as (Ht & Hl & Hr & Hc).
    rewrite consume_next_tail in Ht. rewrite length_alter in Hl, Hr.
    assert (Hc' : forall k : nat,
               arr' !! k = filled (tail (tokens sv)) (Z.to_nat (from + 1)) n
                             (alter (stored (head (tokens sv))) (Z.to_nat from) arr) k)
      by (intros k; rewrite Hc, consume_next_tail; reflexivity).
    clear Hc. rename Hc' into Hc.
    repeat split.
    + rewrite Ht. apply drop_tail.
    + exact Hl.
    + lia.
    + destruct n; [lia | specialize (Hr ltac:(discriminate)); lia].
    + intros k. rewrite Hc. unfold filled.
      replace (Z.to_nat (from + 1)) with (S (Z.to_nat from)) by lia.
      destruct (decide (S (Z.to_nat from) <= k < S (Z.to_nat from) + n)%nat) as [Hin | Hout].
      * rewrite decide_True by lia.
        rewrite list_lookup_alter_ne by lia.
        replace (k - Z.to_nat from)%nat with (S (k - S (Z.to_nat from)))%nat by lia.
        destruct (tokens sv); reflexivity.
      * destruct (decide (k = Z.to_nat from)) as [-> | Hk].
        -- rewrite decide_True by lia. rewrite list_lookup_alter_eq.
           rewrite Nat.sub_diag. destruct (tokens sv); reflexivity.
        -- rewrite decide_False by lia. rewrite list_lookup_alter_ne by lia.
           reflexivity.
Qed.

Lemma consume_run_no_throw {T : Type} `{FromChars T} (n : nat) :
  forall (sv : string) (arr : list T) (from : Z) (w : string),
    consume_run n sv arr from <> Throw w.
Proof.
  induction n as [| n IH]; intros sv arr from w E; [discriminate |].
  cbn [consume_run] in E. apply bind_Throw in E.
  destruct E as [E | ((sv1 & arr1) & _ & E)].
  - rewrite consume_into_eq in E. apply bind_Throw in E.
    destruct E as [E | (k & _ & E)]; [| discriminate].
    exact (cell_no_throw _ _ _ E).
  - exact (IH _ _ _ _ E).
Qed.

(** [consume_run] returns when its cells are in the buffer. *)
Lemma consume_run_in {T : Type} `{FromChars T} (n : nat) :
  forall (sv : string) (arr : list T) (from : Z),
    0 <= from -> from + Z.of_nat n <= Z.of_nat (List.length arr) ->
    exists sv' arr', consume_run n sv arr from = Ok (sv', arr').
Proof.
  induction n as [| n IH]; intros sv arr from H0 Hn; [simpl; eauto |].
  cbn [consume_run]. rewrite consume_into_eq, cell_in by lia. simpl.
  apply IH; rewrite ?length_alter; lia.
Qed.

Lemma assign_Ok {A : Type} (arr arr' : list A) (i : Z) (v : A) :
  assign arr i v = Ok arr' ->
  0 <= i < Z.of_nat (List.length arr) /\ arr' = <[Z.to_nat i := v]> arr.
Proof.
  unfold assign. intros E. bind_ok E. apply cell_Ok in E0. destruct E0 as [Hi ->].
  inversion E; subst. auto.
Qed.

Lemma assign_no_throw {A : Type} (arr : list A) (i : Z) (v : A) (w : string) :
  assign arr i v <> Throw w.
Proof.
  unfold assign. intros E. apply bind_Throw in E.
  destruct E as [E | (k & _ & E)]; [exact (cell_no_throw _ _ _ E) | discriminate].
Qed.

(** The particle loop: [left] rows are written from row [p] on, each with
    the event index in its first cell and then thirteen tokens; no other
    cell of the two buffers changes. *)
Lemma read_particles_spec (left : nat) :
  forall (e : Z) (sv : string) (iptc : list Z) (fptc : list double) (p : Z)
         (iptc' : list Z) (fptc' : list double) (p' : Z),
    read_particles left e sv iptc fptc p = Ok (iptc', fptc', p') ->
    p' = p + Z.of_nat left /\
    List.length iptc' = List.length iptc /\
    List.length fptc' = List.length fptc /\
    (left <> O ->
     0 <= p /\
     7 * (p + Z.of_nat left) <= Z.of_nat (List.length iptc) /\
     7 * (p + Z.of_nat left) <= Z.of_nat (List.length fptc)) /\
    (forall q i : nat, (q < left)%nat -> (i < 7)%nat ->
       iptc' !! (7 * (Z.to_nat p + q) + i)%nat =
         match i with
         | O => Some e
         | S i' => stored (tokens sv !! (13 * q + i')%nat)
                     <$> iptc !! (7 * (Z.to_nat p + q) + i)%nat
         end /\
       fptc' !! (7 * (Z.to_nat p + q) + i)%nat =
         stored (tokens sv !! (13 * q + 6 + i)%nat)
           <$> fptc !! (7 * (Z.to_nat p + q) + i)%nat) /\
    (forall k : nat,
       (k < 7 * Z.to_nat p)%nat \/ (7 * (Z.to_nat p + left) <= k)%nat ->
       iptc' !! k = iptc !! k /\ fptc' !! k = fptc !! k).
Proof.
  induction left as [| left IH]; intros e sv iptc fptc p iptc' fptc' p' E.
  - simpl in E. inversion E; subst.
    repeat split; try lia; try congruence.
  - cbn [read_particles] in E.
    bind_ok E. rename a into iptc1. apply assign_Ok in E0. destruct E0 as [Hp ->].
    bind_ok E. destruct a as [sv1 iptc2].
    apply consume_run_spec in E0. destruct E0 as (Ht1 & Hl1 & Hr1 & Hc1).
    bind_ok E. destruct a as [sv2 fptc2].
    apply consume_run_spec in E0. destruct E0 as (Ht2 & Hl2 & Hr2 & Hc2).
    specialize (Hr1 ltac:(discriminate)). specialize (Hr2 ltac:(discriminate)).
    rewrite length_insert in Hl1, Hr1.
    apply IH in E. destruct E as (Hp' & Hl & Hl' & Hr & Hrows & Hout).
    assert (HP : Z.to_nat (p + 1) = S (Z.to_nat p)) by lia.
    assert (HP7 : Z.to_nat (p * 7 + 0) = (7 * Z.to_nat p)%nat) by lia.
    assert (HP8 : Z.to_nat (p * 7 + 1) = (7 * Z.to_nat p + 1)%nat) by lia.
    rewrite HP in Hrows, Hout. rewrite HP7 in Hc1, Hc2. rewrite HP8 in Hc1.
    rewrite Ht2, Ht1 in Hrows.
    assert (Hleft : 7 * (p + Z.of_nat (S left)) <= Z.of_nat (List.length iptc) /\
                    7 * (p + Z.of_nat (S left)) <= Z.of_nat (List.length fptc)).
    { destruct left; [lia |]. specialize (Hr ltac:(discriminate)). lia. }
    repeat split; try lia.
    + destruct q as [| q].
      * destruct (Hout (7 * (Z.to_nat p + 0) + i)%nat ltac:(lia)) as [-> _].
        rewrite Hc1. unfold filled. destruct i as [| i].
        -- rewrite decide_False by lia.
           replace (7 * (Z.to_nat p + 0) + 0)%nat with (7 * Z.to_nat p)%nat by lia.
           apply list_lookup_insert_eq. lia.
        -- rewrite decide_True by lia. rewrite list_lookup_insert_ne by lia.
           f_equal. f_equal. f_equal. lia.
      * destruct (Hrows q i ltac:(lia) ltac:(lia)) as [Hi _].
        replace (7 * (Z.to_nat p + S q) + i)%nat
          with (7 * (S (Z.to_nat p) + q) + i)%nat by lia.
        rewrite Hi. destruct i as [| i]; [reflexivity |].
        rewrite !lookup_drop, Hc1. unfold filled.
        rewrite decide_False by lia. rewrite list_lookup_insert_ne by lia.
        f_equal. f_equal. f_equal. lia.
    + destruct q as [| q].
      * destruct (Hout (7 * (Z.to_nat p + 0) + i)%nat ltac:(lia)) as [_ ->].
        rewrite Hc2. unfold filled. rewrite decide_True by lia.
        rewrite Ht1, lookup_drop. f_equal. f_equal. f_equal. lia.
      * destruct (Hrows q i ltac:(lia) ltac:(lia)) as [_ Hi].
        replace (7 * (Z.to_nat p + S q) + i)%nat
          with (7 * (S (Z.to_nat p) + q) + i)%nat by lia.
        rewrite Hi. rewrite !lookup_drop, Hc2. unfold filled.
        rewrite decide_False by lia. f_equal. f_equal. f_equal. lia.
    + destruct (Hout k ltac:(lia)) as [-> _]. rewrite Hc1. unfold filled.
      rewrite decide_False by lia. apply list_lookup_insert_ne. lia.
    + destruct (Hout k ltac:(lia)) as [_ ->]. rewrite Hc2. unfold filled.
      rewrite decide_False by lia. reflexivity.
Qed.

Lemma read_particles_no_throw (left : nat) :
  forall (e : Z) (sv : string) (iptc : list Z) (fptc : list double) (p : Z) (w : string),
    read_particles left e sv iptc fptc p <> Throw w.
Proof.
  induction left as [| left IH]; intros e sv iptc fptc p w E; [discriminate |].
  cbn [read_particles] in E.
  apply bind_Throw in E. destruct E as [E | (iptc1 & _ & E)];
    [exact (assign_no_throw _ _ _ _ E) |].
  apply bind_Throw in E. destruct E as [E | ((sv1 & iptc2) & _ & E)];
    [exact (consume_run_no_throw _ _ _ _ _ E) |].
  apply bind_Throw in E. destruct E as [E | ((sv2 & fptc2) & _ & E)];
    [exact (consume_run_no_throw _ _ _ _ _ E) |].
  exact (IH _ _ _ _ _ _ E).
Qed.

(** ** The Event Extractor *)

(** A returning [processEvent]: the count it read, what it left alone, and
    the cells it wrote, token by token. *)
Lemma processEvent_Ok (s s' : ParseState) :
  processEvent s = Ok s' ->
  exists n : Z,
    read_nup s = Some n /\
    (n_weights s' = n_weights s /\ n_events s' = n_events s /\
     n_particles s' = n_particles s /\ cur_event s' = cur_event s /\
     cur_weight s' = cur_weight s /\ capture s' = capture s /\
     charBuf s' = charBuf s) /\
    cur_particle s' = cur_particle s + Z.of_nat (Z.to_nat n) /\
    (0 <= cur_event s * 2 /\
     cur_event s * 2 + 1 < Z.of_nat (List.length (ievt_arr s))) /\
    ievt_arr s' =
      alter (stored (tokens (charBuf s) !! 1%nat)) (Z.to_nat (cur_event s * 2 + 1))
        (<[Z.to_nat (cur_event s * 2) := n]> (ievt_arr s)) /\
    (forall k : nat,
       fevt_arr s' !! k =
       filled (drop 2 (tokens (charBuf s)))
         (Z.to_nat (cur_event s * (4 + n_weights s))) 4 (fevt_arr s) k) /\
    exists sv : string,
      tokens sv = drop 6 (tokens (charBuf s)) /\
      read_particles (Z.to_nat n) (cur_event s) sv
        (iptc_arr s) (fptc_arr s) (cur_particle s)
      = Ok (iptc_arr s', fptc_arr s', cur_particle s').
Proof.
  unfold processEvent, read_nup. intros E.
  pose proof (consume_next_tail (T := Z) (charBuf s)) as Ht0.
  destruct (consume_next (T := Z) (charBuf s)) as [[n |] sv0] eqn:E0; [| discriminate].
  cbn [snd] in *.
  bind_ok E. rename a into ievt1. apply assign_Ok in E1. destruct E1 as [Hi ->].
  bind_ok E. destruct a as [sv1 ievt2].
  rewrite consume_into_eq in E1. bind_ok E1. apply cell_Ok in E2.
  destruct E2 as [Hi1 ->]. rewrite length_insert in Hi1. inversion E1; subst. clear E1.
  bind_ok E. destruct a as [sv2 fevt].
  apply consume_run_spec in E1. destruct E1 as (Ht2 & _ & _ & Hf).
  bind_ok E. destruct a as [[iptc fptc] particle].
  pose proof E1 as Eptc. apply read_particles_spec in E1. destruct E1 as (Hp & _).
  inversion E; subst. clear E. cbn.
  rewrite consume_next_tail, Ht0 in Ht2, Hf.
  exists n. repeat split; try lia.
  - replace (Z.to_nat (cur_event s * 2 + 0)) with (Z.to_nat (cur_event s * 2))
      by (f_equal; lia).
    rewrite Ht0. destruct (tokens (charBuf s)) as [| t0 [| t1 ts]]; reflexivity.
  - intros k. rewrite Hf.
    replace (Z.to_nat (cur_event s * (4 + n_weights s) + 0))
      with (Z.to_nat (cur_event s * (4 + n_weights s))) by (f_equal; lia).
    destruct (tokens (charBuf s)) as [| t0 [| t1 ts]]; reflexivity.
  - exists sv2. split; [| exact Eptc].
    rewrite Ht2, !drop_tail. reflexivity.
Qed.

Lemma processEvent_no_throw_after_nup (s : ParseState) (n : Z) (w : string) :
  read_nup s = Some n -> processEvent s <> Throw w.
Proof.
  unfold read_nup, processEvent. intros Hn E.
  destruct (consume_next (T := Z) (charBuf s)) as [[n' |] sv0]; [| discriminate].
  apply bind_Throw in E. destruct E as [E | (ievt & _ & E)];
    [exact (assign_no_throw _ _ _ _ E) |].
  apply bind_Throw in E. destruct E as [E | ((sv1 & ievt1) & _ & E)].
  { rewrite consume_into_eq in E. apply bind_Throw in E.
    destruct E as [E | (k & _ & E)]; [exact (cell_no_throw _ _ _ E) | discriminate]. }
  apply bind_Throw in E. destruct E as [E | ((sv2 & fevt) & _ & E)];
    [exact (consume_run_no_throw _ _ _ _ _ E) |].
  apply bind_Throw in E. destruct E as [E | (((iptc & fptc) & particle) & _ & E)];
    [exact (read_particles_no_throw _ _ _ _ _ _ _ E) | discriminate].
Qed.

Lemma read_nup_tokens (s : ParseState) :
  read_nup s = match tokens (charBuf s) with
               | [] => None
               | t :: _ => from_chars_int t
               end.
Proof.
  unfold read_nup. pose proof (consume_next_tokens (T := Z) (charBuf s)) as Ht.
  destruct (tokens (charBuf s)) as [| t ts].
  - rewrite Ht. reflexivity.
  - destruct Ht as [Ht _]. exact Ht.
Qed.

Lemma nup_unreadable_iff (s : ParseState) : nup_unreadable s <-> read_nup s = None.
Proof.
  rewrite read_nup_tokens. unfold nup_unreadable.
  destruct (tokens (charBuf s)); tauto.
Qed.

(** ** The capture machine *)

Lemma processWeight_Ok (s s' : ParseState) :
  processWeight s = Ok s' ->
  s' = set_capture NO_CAPTURE
         (set_charBuf ""
            (set_fevt
               (alter (stored (head (tokens (charBuf s))))
                  (Z.to_nat (cur_event s * (4 + n_weights s) + (4 + cur_weight s)))
                  (fevt_arr s))
               (set_cur_weight (cur_weight s + 1) s))) /\
  0 <= cur_event s * (4 + n_weights s) + (4 + cur_weight s)
    < Z.of_nat (List.length (fevt_arr s)).
Proof.
  unfold processWeight. intros E. bind_ok E. destruct a as [sv fevt].
  rewrite consume_into_eq in E0. bind_ok E0. apply cell_Ok in E1.
  destruct E1 as [Hi ->]. inversion E0; subst. inversion E; subst. auto.
Qed.

Lemma processWeight_no_throw (s : ParseState) (w : string) : processWeight s <> Throw w.
Proof.
  unfold processWeight. intros E. apply bind_Throw in E.
  destruct E as [E | ((sv & fevt) & _ & E)]; [| discriminate].
  rewrite consume_into_eq in E. apply bind_Throw in E.
  destruct E as [E | (k & _ & E)]; [exact (cell_no_throw _ _ _ E) | discriminate].
Qed.

Lemma processWeight_in (s : ParseState) :
  0 <= cur_event s * (4 + n_weights s) + (4 + cur_weight s)
    < Z.of_nat (List.length (fevt_arr s)) ->
  exists s', processWeight s = Ok s'.
Proof.
  intros Hi. unfold processWeight. rewrite consume_into_eq, cell_in by exact Hi.
  simpl. eauto.
Qed.

Lemma handle_idle_empty (e : sax) (s s' : ParseState) :
  idle_empty s -> handle e s = Ok s' -> idle_empty s'.
Proof.
  unfold idle_empty. intros Hs E. destruct e as [name attrs | name | buf]; simpl in E.
  - unfold onStart in E. bind_ok E. rename a into s1.
    assert (H1 : capture s1 = NO_CAPTURE -> charBuf s1 = "").
    { destruct (String.eqb name "event").
      - inversion E0; subst. simpl. discriminate.
      - destruct (capture s =? EVENT_HEADER).
        + bind_ok E0. inversion E0; subst. reflexivity.
        + inversion E0; subst. exact Hs. }
    destruct (String.eqb name "wgt"); inversion E; subst; [simpl; discriminate | exact H1].
  - unfold onEnd in E. destruct (String.eqb name "event").
    + inversion E; subst. exact Hs.
    + destruct (String.eqb name "wgt").
      * apply processWeight_Ok in E. destruct E as [-> _]. reflexivity.
      * inversion E; subst. exact Hs.
  - inversion E; subst. unfold onChar. destruct (capture s =? 0) eqn:Hc; [exact Hs |].
    simpl. intros H0. unfold NO_CAPTURE in H0. rewrite H0 in Hc. discriminate.
Qed.

Lemma run_idle_empty (events : list sax) :
  forall s s' : ParseState, idle_empty s -> run events s = Ok s' -> idle_empty s'.
Proof.
  induction events as [| e events IH]; intros s s' Hs E; simpl in E.
  - inversion E; subst. exact Hs.
  - bind_ok E. eapply IH; [| exact E]. eapply handle_idle_empty; eauto.
Qed.

(** C2, as the code has it. A tag-begin named [event] sets the weight
    cursor to 0 and enters the header-capturing state, whatever the state
    and the attributes; it leaves the buffer as it is. In a state reached
    from an empty, non-capturing start the buffer is empty after the
    transition whenever nothing was being captured before it. *)
Theorem onStart_event_transition :
  forall (s0 : ParseState) (events : list sax) (s : ParseState)
         (attributes : list (string * string)),
    capture s0 = NO_CAPTURE -> charBuf s0 = "" ->
    run events s0 = Ok s ->
    exists s' : ParseState,
      onStart "event" attributes s = Ok s' /\
      cur_weight s' = 0 /\
      capture s' = EVENT_HEADER /\
      charBuf s' = charBuf s /\
      (capture s = NO_CAPTURE -> charBuf s' = "").
Proof.
  intros s0 events s attributes Hc Hb Hrun.
  exists (set_cur_weight 0 (set_capture EVENT_HEADER s)).
  repeat split.
  apply (run_idle_empty events s0 s); [intros _; exact Hb | exact Hrun].
Qed.

Lemma onStart_event_transition_witness :
  exists s : ParseState,
    run one_event_run (fresh 2 1 2) = Ok s /\
    exists s' : ParseState,
      onStart "event" [] s = Ok s' /\
      cur_weight s' = 0 /\
      capture s' = EVENT_HEADER /\
      charBuf s' = charBuf s /\
      (capture s = NO_CAPTURE -> charBuf s' = "").
Proof.
  eexists. split.
  - vm_compute. reflexivity.
  - apply (onStart_event_transition (fresh 2 1 2) one_event_run);
      [reflexivity | reflexivity | vm_compute; reflexivity].
Defined.

(** C2 as stated fails: after an event without child tag the next
    tag-begin [event] finds the text of the first event in the buffer and
    keeps it. *)
Lemma onStart_event_keeps_buffer :
  exists s s' : ParseState,
    run [StartElement "event" []; CharacterData "2 1 1.0 2.0 3.0 4.0";
         EndElement "event"] (fresh 2 1 4) = Ok s /\
    onStart "event" [] s = Ok s' /\
    charBuf s' = "2 1 1.0 2.0 3.0 4.0" /\
    charBuf s' <> "".
Proof.
  eexists. eexists. split; [vm_compute; reflexivity |].
  split; [vm_compute; reflexivity |].
  split; [reflexivity | discriminate].
Qed.

(** ** The weight cursor *)

Lemma onStart_cur_weight (name : string) (attrs : list (string * string))
    (s s' : ParseState) :
  onStart name attrs s = Ok s' -> String.eqb name "event" = false ->
  cur_weight s' = cur_weight s.
Proof.
  unfold onStart. intros E Hn. rewrite Hn in E. bind_ok E. rename a into s1.
  assert (H1 : cur_weight s1 = cur_weight s).
  { destruct (capture s =? EVENT_HEADER).
    - bind_ok E0. inversion E0; subst. simpl.
      apply processEvent_Ok in E1. destruct E1 as (n & _ & Hsame & _). tauto.
    - inversion E0; subst. reflexivity. }
  destruct (String.eqb name "wgt"); inversion E; subst; simpl; exact H1.
Qed.

Lemma handle_cur_weight (e : sax) (s s' : ParseState) :
  handle e s = Ok s' -> is_event_start e = false ->
  cur_weight s' = cur_weight s + (if is_wgt_end e then 1 else 0).
Proof.
  destruct e as [name attrs | name | buf]; simpl; intros E He.
  - rewrite (onStart_cur_weight _ _ _ _ E He). lia.
  - unfold onEnd in E. destruct (String.eqb name "event") eqn:Hev.
    + inversion E; subst. simpl.
      destruct (String.eqb name "wgt") eqn:Hw; [| lia].
      apply String.eqb_eq in Hev, Hw. congruence.
    + destruct (String.eqb name "wgt").
      * apply processWeight_Ok in E. destruct E as [-> _]. reflexivity.
      * inversion E; subst. lia.
  - inversion E; subst. unfold onChar. destruct (capture s =? 0); simpl; lia.
Qed.

Lemma run_cur_weight (events : list sax) :
  forall s s' : ParseState,
    run events s = Ok s' ->
    forallb (fun e => negb (is_event_start e)) events = true ->
    cur_weight s' = cur_weight s + wgt_ends events.
Proof.
  unfold wgt_ends.
  induction events as [| e events IH]; intros s s' E Hno; simpl in E.
  - inversion E; subst. simpl. lia.
  - bind_ok E. simpl in Hno. apply andb_prop in Hno. destruct Hno as [He Hno].
    apply negb_true_iff in He.
    rewrite (IH _ _ E Hno), (handle_cur_weight _ _ _ E0 He).
    rewrite filter_cons. destruct (decide (is_wgt_end e = true)) as [Hw | Hw].
    + rewrite Hw. simpl List.length. lia.
    + apply not_true_is_false in Hw. rewrite Hw. lia.
Qed.

(** C10. A tag-end named [wgt] never throws; it returns exactly when the
    cell [4 + cur_weight] counted from the start of the current row lies in
    the flat buffer, a condition in which [n_weights] sets no limit to the
    cursor; when it returns the weight cursor is one more, nothing is being
    captured and the buffer is empty, whatever the buffered text was. So
    after a tag-begin [event] and [k] tag-ends [wgt] with no further
    tag-begin [event] the cursor is [k]. *)
Theorem onEnd_wgt_advances_cursor :
  forall s : ParseState,
    (forall w : string, onEnd "wgt" s <> Throw w) /\
    ((exists s' : ParseState, onEnd "wgt" s = Ok s') <->
     0 <= cur_event s * (4 + n_weights s) + (4 + cur_weight s)
       < Z.of_nat (List.length (fevt_arr s))) /\
    (forall s' : ParseState,
       onEnd "wgt" s = Ok s' ->
       cur_weight s' = cur_weight s + 1 /\
       capture s' = NO_CAPTURE /\
       charBuf s' = "") /\
    (forall (attributes : list (string * string)) (events : list sax)
            (s' : ParseState),
       run (StartElement "event" attributes :: events) s = Ok s' ->
       forallb (fun e => negb (is_event_start e)) events = true ->
       cur_weight s' = wgt_ends events).
Proof.
  intros s. change (onEnd "wgt" s) with (processWeight s).
  split; [| split; [| split]].
  - intros w. apply processWeight_no_throw.
  - split.
    + intros [s' E]. apply processWeight_Ok in E. tauto.
    + apply processWeight_in.
  - intros s' E. apply processWeight_Ok in E. destruct E as [-> _]. auto.
  - intros attributes events s' E Hno.
    change (run (StartElement "event" attributes :: events) s)
      with (run events (set_cur_weight 0 (set_capture EVENT_HEADER s))) in E.
    rewrite (run_cur_weight _ _ _ E Hno). reflexivity.
Qed.

(** Two weights in an event of a file scanned with [n_weights = 1]: the
    cursor reaches 2. *)
Lemma onEnd_wgt_advances_cursor_witness :
  exists s' : ParseState,
    run (StartElement "event" [] :: two_weights_run) (fresh 2 1 2) = Ok s' /\
    n_weights s' = 1 /\
    cur_weight s' = 2.
Proof.
  eexists. split; [vm_compute; reflexivity |]. split; [reflexivity |].
  apply (proj2 (proj2 (proj2 (onEnd_wgt_advances_cursor (fresh 2 1 2))))
           [] two_weights_run);
    vm_compute; reflexivity.
Defined.

(** ** The two passes and the event-open tag *)

Lemma count_weight_events (line : string) (d : dims) :
  d_events (count_weight line d) = d_events d.
Proof. unfold count_weight. destruct (contains _ _); reflexivity. Qed.

Lemma count_weight_line (line : string) (d : dims) :
  d_line (count_weight line d) = d_line d.
Proof. unfold count_weight. destruct (contains _ _); reflexivity. Qed.

Lemma read_header_Ok (header : string) (d d' : dims) :
  read_header header d = Ok d' ->
  exists n : Z,
    istream_int header = Some n /\
    d' = mk_dims (d_events d + 1) (d_weights d) (d_particles d + n) (d_line d + 1).
Proof.
  unfold read_header. simpl. destruct (istream_int header) as [n |]; [| discriminate].
  destruct (in_int _); [| discriminate]. intros E. inversion E. eauto.
Qed.

Lemma scan_events_bound (fuel : nat) :
  forall (stale : bool) (lines : list string) (d d' : dims),
    (List.length lines <= fuel)%nat ->
    scan stale lines d = Ok d' ->
    d_events d <= d_events d'
      <= d_events d + Z.of_nat (List.length (filter is_marker lines)).
Proof.
  unfold is_marker.
  induction fuel as [| fuel IH]; intros stale lines d d' Hlen E.
  - destruct lines; [| simpl in Hlen; lia]. inversion E; subst. simpl. lia.
  - destruct lines as [| line rest]; [inversion E; subst; simpl; lia |].
    cbn [scan] in E. rewrite filter_cons.
    destruct (contains "<event>" line) eqn:Hm.
    + rewrite decide_True by reflexivity. cbn [List.length].
      destruct rest as [| header rest'].
      * bind_ok E. apply read_header_Ok in E0. destruct E0 as (n & _ & ->).
        inversion E; subst. rewrite count_weight_events. simpl. lia.
      * bind_ok E. apply read_header_Ok in E0. destruct E0 as (n & _ & ->).
        apply IH in E; [| simpl in Hlen; lia].
        rewrite count_weight_events in E. simpl in E.
        rewrite filter_cons. destruct (decide _); simpl; lia.
    + rewrite decide_False by discriminate.
      apply IH in E; [| simpl in Hlen; lia].
      rewrite count_weight_events in E. simpl in E. lia.
Qed.

(** C9. Pass 1 counts at most one event per line that contains the text
    [<event>], and a tag with an attribute is no such line; pass 2 enters
    the header-capturing state on every tag-begin named [event], whatever
    its attributes. On [attributed_text] pass 1 counts one event where
    pass 2 starts two captures, and the second extraction leaves the
    buffers allocated for one event. *)
Theorem passes_disagree_on_attributed_event :
  (forall (stale : bool) (lines : list string) (d d' : dims),
     scan stale lines d = Ok d' ->
     d_events d <= d_events d'
       <= d_events d + Z.of_nat (List.length (filter is_marker lines))) /\
  ~ is_marker ("<event npart=" ++ dq ++ "2" ++ dq ++ ">") /\
  (forall (attributes : list (string * string)) (s : ParseState),
     exists s' : ParseState,
       onStart "event" attributes s = Ok s' /\ capture s' = EVENT_HEADER) /\
  countDimensions "events.lhe" (Some attributed_text) = Ok (1, 1, 1) /\
  List.length (filter (fun e => is_event_start e = true) attributed_callbacks) = 2%nat /\
  parseLHE (reports attributed_text (mk_expat attributed_callbacks None))
    "events.lhe" (Some attributed_text) = Undefined.
Proof.
  split; [| split; [| split; [| split; [| split]]]].
  - intros stale lines d d' E.
    exact (scan_events_bound (List.length lines) stale lines d d' (Nat.le_refl _) E).
  - unfold is_marker. vm_compute. discriminate.
  - intros attributes s. eexists. split; reflexivity.
  - vm_compute. reflexivity.
  - vm_compute. reflexivity.
  - vm_compute. reflexivity.
Qed.

Lemma passes_disagree_on_attributed_event_witness :
  scan false
    ["<LesHouchesEvents>"; "<event>"; "1 1 1.0 2.0 3.0 4.0"; "<weight id=1>";
     "<event npart=1>"; "1 1 1.0 2.0 3.0 4.0"; "</LesHouchesEvents>"]
    (mk_dims 0 0 0 0)
  = Ok (mk_dims 1 1 1 7) /\
  d_events (mk_dims 0 0 0 0) <= d_events (mk_dims 1 1 1 7)
    <= d_events (mk_dims 0 0 0 0)
       + Z.of_nat (List.length (filter is_marker
           ["<LesHouchesEvents>"; "<event>"; "1 1 1.0 2.0 3.0 4.0"; "<weight id=1>";
            "<event npart=1>"; "1 1 1.0 2.0 3.0 4.0"; "</LesHouchesEvents>"])).
Proof.
  assert (E : scan false
                ["<LesHouchesEvents>"; "<event>"; "1 1 1.0 2.0 3.0 4.0";
                 "<weight id=1>"; "<event npart=1>"; "1 1 1.0 2.0 3.0 4.0";
                 "</LesHouchesEvents>"]
                (mk_dims 0 0 0 0)
              = Ok (mk_dims 1 1 1 7)) by (vm_compute; reflexivity).
  split; [exact E |].
  exact (proj1 passes_disagree_on_attributed_event false _ _ _ E).
Defined.

(** ** Failures of the Dimension Scanner *)

Lemma scan_app (fuel : nat) :
  forall (stale : bool) (pre rest : list string) (d : dims),
    (List.length pre <= fuel)%nat ->
    whole pre = true ->
    scan stale (pre ++ rest)%list d = let* d1 := scan stale pre d in scan stale rest d1.
Proof.
  induction fuel as [| fuel IH]; intros stale pre rest d Hlen Hw.
  - destruct pre; [reflexivity | simpl in Hlen; lia].
  - destruct pre as [| line pre]; [reflexivity |].
    cbn [scan whole app] in *. destruct (contains "<event>" line).
    + destruct pre as [| header pre']; [discriminate |].
      cbn [app]. destruct (read_header header _) as [d1 | w |]; simpl; try reflexivity.
      apply IH; [simpl in Hlen; lia | exact Hw].
    + apply IH; [simpl in Hlen; lia | exact Hw].
Qed.

Lemma scan_whole_line (fuel : nat) :
  forall (stale : bool) (pre : list string) (d d1 : dims),
    (List.length pre <= fuel)%nat ->
    whole pre = true ->
    scan stale pre d = Ok d1 ->
    d_line d1 = d_line d + Z.of_nat (List.length pre).
Proof.
  induction fuel as [| fuel IH]; intros stale pre d d1 Hlen Hw E.
  - destruct pre; [inversion E; subst; simpl; lia | simpl in Hlen; lia].
  - destruct pre as [| line pre]; [inversion E; subst; simpl; lia |].
    cbn [scan whole] in *. destruct (contains "<event>" line).
    + destruct pre as [| header pre']; [discriminate |].
      bind_ok E. apply read_header_Ok in E0. destruct E0 as (n & _ & ->).
      apply IH in E; [| simpl in Hlen; lia | exact Hw].
      rewrite E, count_weight_line. cbn [d_line List.length]. lia.
    + apply IH in E; [| simpl in Hlen; lia | exact Hw].
      rewrite E, count_weight_line. cbn [d_line List.length]. lia.
Qed.

Lemma read_header_bad (header : string) (d : dims) :
  istream_int header = None ->
  read_header header d = Throw (scan_error (d_line d + 1)).
Proof. unfold read_header. intros ->. reflexivity. Qed.

(** C5. [countDimensions] throws when the file cannot be opened. When its
    loop, having read the lines [pre] without failure, meets an event-open
    line and the line after it does not start with an integer, it throws
    the scan error with the number of that line; so it does when the
    event-open line is the last one and what the inner [std::getline]
    leaves in [line] does not start with an integer. A thrown outcome
    carries no dimensions. *)
Theorem countDimensions_failures :
  (forall filename : string,
     countDimensions filename None = Throw ("Cannot open file: " ++ filename)) /\
  (forall (filename text : string) (pre : list string) (marker header : string)
          (post : list string) (d : dims),
     getlines text = (pre ++ marker :: header :: post)%list ->
     whole pre = true ->
     scan (open_ended text) pre (mk_dims 0 0 0 0) = Ok d ->
     contains "<event>" marker = true ->
     istream_int header = None ->
     countDimensions filename (Some text) =
     Throw ("Failed to parse particle count from event header on line: "
            ++ to_string (Z.of_nat (List.length pre) + 2))) /\
  (forall (filename text : string) (pre : list string) (marker : string) (d : dims),
     getlines text = (pre ++ [marker])%list ->
     whole pre = true ->
     scan (open_ended text) pre (mk_dims 0 0 0 0) = Ok d ->
     contains "<event>" marker = true ->
     istream_int (if open_ended text then marker else "") = None ->
     countDimensions filename (Some text) =
     Throw ("Failed to parse particle count from event header on line: "
            ++ to_string (Z.of_nat (List.length pre) + 2))).
Proof.
  split; [reflexivity | split].
  - intros filename text pre marker header post d Hlines Hw Hpre Hm Hbad.
    unfold countDimensions. rewrite Hlines.
    rewrite (scan_app (List.length pre)) by auto. rewrite Hpre. cbn [bind scan].
    rewrite Hm. rewrite read_header_bad by exact Hbad. cbn [bind d_line].
    rewrite (scan_whole_line (List.length pre) _ _ _ _ (Nat.le_refl _) Hw Hpre).
    cbn [d_line]. unfold scan_error. do 3 f_equal. lia.
  - intros filename text pre marker d Hlines Hw Hpre Hm Hbad.
    unfold countDimensions. rewrite Hlines.
    rewrite (scan_app (List.length pre)) by auto. rewrite Hpre. cbn [bind scan].
    rewrite Hm. rewrite read_header_bad by exact Hbad. cbn [bind d_line].
    rewrite (scan_whole_line (List.length pre) _ _ _ _ (Nat.le_refl _) Hw Hpre).
    cbn [d_line]. unfold scan_error. do 3 f_equal. lia.
Qed.

Lemma countDimensions_failures_witness :
  getlines bad_header_text =
  (["<LesHouchesEvents>"; "<event>"; "1 1 1.0 2.0 3.0 4.0"; "</event>"] ++
   "<event>" :: "one 1 1.0 2.0 3.0 4.0" :: ["</event>"])%list /\
  istream_int "one 1 1.0 2.0 3.0 4.0" = None /\
  countDimensions "events.lhe" (Some bad_header_text) =
  Throw "Failed to parse particle count from event header on line: 6".
Proof.
  split; [vm_compute; reflexivity |]. split; [vm_compute; reflexivity |].
  apply (proj1 (proj2 countDimensions_failures) "events.lhe" bad_header_text
           ["<LesHouchesEvents>"; "<event>"; "1 1 1.0 2.0 3.0 4.0"; "</event>"]
           "<event>" "one 1 1.0 2.0 3.0 4.0" ["</event>"]
           (mk_dims 1 0 1 4));
    vm_compute; reflexivity.
Defined.

(** ** Particle rows *)

Lemma writes_block_same (s s' : ParseState) :
  cur_event s <= cur_event s' -> cur_particle s' = cur_particle s ->
  iptc_arr s' = iptc_arr s -> fptc_arr s' = fptc_arr s ->
  writes_block s s'.
Proof.
  intros He Hp Hi Hf. unfold writes_block, owner. rewrite Hp, Hi, Hf.
  repeat split; try lia; intros; lia.
Qed.

Lemma processEvent_block (s s' : ParseState) :
  processEvent s = Ok s' -> writes_block s s'.
Proof.
  intros E. apply processEvent_Ok in E.
  destruct E as (n & _ & Hsame & Hp & _ & _ & _ & sv & _ & E).
  apply read_particles_spec in E.
  destruct E as (_ & _ & _ & Hr & Hrows & Hout).
  unfold writes_block, owner. repeat split.
  - lia.
  - lia.
  - intros r Hr'. rewrite Hp in Hr'.
    assert (Hn : Z.to_nat n <> O) by lia. specialize (Hr Hn).
    destruct (Hrows (r - Z.to_nat (cur_particle s))%nat O ltac:(lia) ltac:(lia))
      as [Ho _].
    replace (7 * (Z.to_nat (cur_particle s) + (r - Z.to_nat (cur_particle s))) + 0)%nat
      with (7 * r)%nat in Ho by lia.
    exact Ho.
  - apply Hout. rewrite Hp in H.
    destruct (Nat.eq_dec (Z.to_nat n) O) as [Hn | Hn]; [rewrite Hn in *; lia |].
    specialize (Hr Hn). lia.
  - apply Hout. rewrite Hp in H.
    destruct (Nat.eq_dec (Z.to_nat n) O) as [Hn | Hn]; [rewrite Hn in *; lia |].
    specialize (Hr Hn). lia.
Qed.

Lemma handle_block (e : sax) (s s' : ParseState) :
  handle e s = Ok s' -> writes_block s s'.
Proof.
  destruct e as [name attrs | name | buf]; simpl; intros E.
  - unfold onStart in E. bind_ok E. rename a into s1.
    assert (H1 : writes_block s s1).
    { destruct (String.eqb name "event").
      - inversion E0; subst. apply writes_block_same; simpl; auto; lia.
      - destruct (capture s =? EVENT_HEADER).
        + bind_ok E0. inversion E0; subst. apply processEvent_block in E1.
          exact E1.
        + inversion E0; subst. apply writes_block_same; auto; lia. }
    destruct (String.eqb name "wgt"); inversion E; subst; exact H1.
  - unfold onEnd in E. destruct (String.eqb name "event").
    + inversion E; subst. apply writes_block_same; simpl; auto; lia.
    + destruct (String.eqb name "wgt").
      * apply processWeight_Ok in E. destruct E as [-> _].
        apply writes_block_same; simpl; auto; lia.
      * inversion E; subst. apply writes_block_same; auto; lia.
  - inversion E; subst. unfold onChar. destruct (capture s =? 0);
      apply writes_block_same; simpl; auto; lia.
Qed.

(** Later steps leave the rows below the particle cursor as they are. *)
Lemma run_keeps_rows (events : list sax) :
  forall s s' : ParseState,
    run events s = Ok s' ->
    cur_event s <= cur_event s' /\
    cur_particle s <= cur_particle s' /\
    forall k : nat,
      (k < 7 * Z.to_nat (cur_particle s))%nat ->
      iptc_arr s' !! k = iptc_arr s !! k /\ fptc_arr s' !! k = fptc_arr s !! k.
Proof.
  induction events as [| e events IH]; intros s s' E; simpl in E.
  - inversion E; subst. repeat split; lia.
  - bind_ok E. rename a into s1. apply handle_block in E0.
    destruct E0 as (He & Hp & _ & Hout). apply IH in E.
    destruct E as (He' & Hp' & Hkeep). repeat split; try lia.
    + destruct (Hkeep k ltac:(lia)) as [-> _]. apply Hout. lia.
    + destruct (Hkeep k ltac:(lia)) as [_ ->]. apply Hout. lia.
Qed.



(** ** The fields read without a check *)

Lemma stored_unreadable_double (tok : option string) (old : double) :
  match tok with Some t => from_chars_double t = None | None => True end ->
  stored tok old = old.
Proof.
  unfold stored. destruct tok as [t |]; [| reflexivity].
  unfold from_chars, from_chars_dbl. intros ->. reflexivity.
Qed.

(** ** Shapes and the particle total *)

Lemma count_weight_particles (line : string) (d : dims) :
  d_particles (count_weight line d) = d_particles d.
Proof. unfold count_weight. destruct (contains _ _); reflexivity. Qed.




Lemma same_lengths_refl (s : ParseState) : same_lengths s s.
Proof. repeat split. Qed.

Lemma processEvent_lengths (s s' : ParseState) :
  processEvent s = Ok s' -> same_lengths s s'.
Proof.
  unfold processEvent. intros E.
  destruct (consume_next (T := Z) (charBuf s)) as [[n |] sv0]; [| discriminate].
  bind_ok E. rename a into ievt1. apply assign_Ok in E0. destruct E0 as [_ ->].
  bind_ok E. destruct a as [sv1 ievt2].
  rewrite consume_into_eq in E0. bind_ok E0. apply cell_Ok in E1.
  destruct E1 as [_ ->]. inversion E0; subst. clear E0.
  bind_ok E. destruct a as [sv2 fevt].
  apply consume_run_spec in E0. destruct E0 as (_ & Hl & _).
  bind_ok E. destruct a as [[iptc fptc] particle].
  apply read_particles_spec in E0. destruct E0 as (_ & Hli & Hlf & _).
  inversion E; subst. unfold same_lengths. cbn.
  rewrite length_alter, length_insert. auto.
Qed.

Lemma handle_lengths (e : sax) (s s' : ParseState) :
  handle e s = Ok s' -> same_lengths s s'.
Proof.
  destruct e as [name attrs | name | buf]; simpl; intros E.
  - unfold onStart in E. bind_ok E. rename a into s1.
    assert (H1 : same_lengths s s1).
    { destruct (String.eqb name "event").
      - inversion E0; subst. repeat split.
      - destruct (capture s =? EVENT_HEADER).
        + bind_ok E0. inversion E0; subst. apply processEvent_lengths in E1.
          exact E1.
        + inversion E0; subst. repeat split. }
    destruct (String.eqb name "wgt"); inversion E; subst; exact H1.
  - unfold onEnd in E. destruct (String.eqb name "event").
    + inversion E; subst. repeat split.
    + destruct (String.eqb name "wgt").
      * apply processWeight_Ok in E. destruct E as [-> _].
        unfold same_lengths. cbn. rewrite length_alter. auto.
      * inversion E; subst. repeat split.
  - inversion E; subst. unfold onChar. destruct (capture s =? 0);
      repeat split.
Qed.

Lemma run_lengths (events : list sax) :
  forall s s' : ParseState, run events s = Ok s' -> same_lengths s s'.
Proof.
  induction events as [| e events IH]; intros s s' E; simpl in E.
  - inversion E; subst. apply same_lengths_refl.
  - bind_ok E. apply handle_lengths in E0. apply IH in E.
    unfold same_lengths in *. intuition congruence.
Qed.

(** What a step does to the event rows of [i_evt]: an extraction writes
    the row of the event cursor, its first cell with the count read; any
    other step leaves the buffer alone. *)
Lemma handle_ievt (e : sax) (s s' : ParseState) :
  handle e s = Ok s' ->
  match extraction e s with
  | Some (row, n) =>
      0 <= row /\
      (2 * Z.to_nat row + 1 < List.length (ievt_arr s))%nat /\
      exists f : Z -> Z,
        ievt_arr s' =
        alter f (2 * Z.to_nat row + 1)%nat
          (<[(2 * Z.to_nat row)%nat := n]> (ievt_arr s))
  | None => ievt_arr s' = ievt_arr s
  end.
Proof.
  destruct e as [name attrs | name | buf]; cbn [handle extraction]; intros E.
  - unfold onStart in E. bind_ok E. rename a into s1.
    assert (Hs' : ievt_arr s' = ievt_arr s1)
      by (destruct (String.eqb name "wgt"); inversion E; subst; reflexivity).
    rewrite Hs'. clear Hs'.
    destruct (String.eqb name "event"); [inversion E0; subst; reflexivity |].
    destruct (capture s =? EVENT_HEADER); [| inversion E0; subst; reflexivity].
    bind_ok E0. inversion E0; subst. clear E0. cbn.
    apply processEvent_Ok in E1.
    destruct E1 as (n & -> & _ & _ & Hie & Hievt & _).
    split; [lia |]. split; [lia |].
    eexists. rewrite Hievt.
    replace (Z.to_nat (cur_event s * 2 + 1)) with (2 * Z.to_nat (cur_event s) + 1)%nat
      by lia.
    replace (Z.to_nat (cur_event s * 2)) with (2 * Z.to_nat (cur_event s))%nat by lia.
    reflexivity.
  - unfold onEnd in E. destruct (String.eqb name "event").
    + inversion E; subst. reflexivity.
    + destruct (String.eqb name "wgt").
      * apply processWeight_Ok in E. destruct E as [-> _]. reflexivity.
      * inversion E; subst. reflexivity.
  - inversion E; subst. unfold onChar. destruct (capture s =? 0); reflexivity.
Qed.




Lemma array_t_Ok {A : Type} (zero : A) (r c : Z) (a : ndarray A) :
  array_t zero r c = Ok a ->
  0 <= r /\ 0 <= c /\ a = mk_array r c (replicate (Z.to_nat (r * c)) zero).
Proof.
  unfold array_t. destruct (r <? 0) eqn:Hr; destruct (c <? 0) eqn:Hc; simpl;
    intros E; inversion E; subst. repeat split; lia.
Qed.

(** A returning parse: the scan behind it, the buffers it started from,
    and the final state of the capture machine. *)
Lemma parseLHE_Ok (XML_Parse : string -> expat_result) (filename : string)
    (file : option string) (out : lhe_arrays) :
  parseLHE XML_Parse filename file = Ok out ->
  exists (text : string) (ne nw np : Z) (s : ParseState),
    file = Some text /\
    countDimensions filename file = Ok (ne, nw, np) /\
    ne <> 0 /\ nw <> 0 /\ 0 < np /\
    run (callbacks (XML_Parse text)) (fresh ne nw np) = Ok s /\
    error (XML_Parse text) = None /\
    out = (mk_array ne 2 (ievt_arr s), mk_array ne (4 + nw) (fevt_arr s),
           mk_array np 7 (iptc_arr s), mk_array np 7 (fptc_arr s)).
Proof.
  unfold parseLHE. intros E. bind_ok E. destruct a as [[ne nw] np].
  destruct (ne =? 0) eqn:Hne; [discriminate |].
  destruct (nw =? 0) eqn:Hnw; [discriminate |].
  destruct (np =? 0) eqn:Hnp; [discriminate |]. simpl in E.
  bind_ok E. apply array_t_Ok in E1. destruct E1 as (_ & _ & ->).
  bind_ok E. apply array_t_Ok in E1. destruct E1 as (Hnp0 & _ & ->).
  bind_ok E. apply array_t_Ok in E1. destruct E1 as (_ & _ & ->).
  bind_ok E. apply array_t_Ok in E1. destruct E1 as (_ & _ & ->).
  destruct file as [text |]; [| discriminate].
  bind_ok E. rename a into s. cbn [data nrows ncols] in *.
  destruct (error (XML_Parse text)) as [[line msg] |] eqn:Herr; [discriminate |].
  inversion E; subst. clear E.
  exists text, ne, nw, np, s.
  apply Z.eqb_neq in Hne, Hnw, Hnp.
  repeat split; auto; lia.
Qed.




(** ** The scenario of one event with two particles and one weight *)

Lemma plain_one_line (line : string) : plain line = true -> one_line line = true.
Proof.
  induction line as [| c line IH]; [reflexivity |].
  cbn [plain one_line]. intros Hp. apply andb_prop in Hp. destruct Hp as [Hc Hp].
  apply andb_prop in Hc. destruct Hc as [Hc _]. rewrite Hc, (IH Hp). reflexivity.
Qed.

Lemma getlines_one_line (line rest : string) :
  one_line line = true -> getlines (line ++ nl ++ rest) = line :: getlines rest.
Proof.
  induction line as [| c line IH]; intros Hp.
  - reflexivity.
  - cbn [one_line] in Hp. apply andb_prop in Hp. destruct Hp as [Hc Hp].
    apply negb_true_iff in Hc.
    cbn [append getlines]. rewrite Hc, (IH Hp). reflexivity.
Qed.

Lemma contains_plain (needle line : string) :
  plain line = true -> contains (String "<" needle) line = false.
Proof.
  unfold contains. intros Hp.
  assert (H : index 0 (String "<" needle) line = None).
  { induction line as [| c line IH]; [reflexivity |].
    cbn [plain] in Hp. apply andb_prop in Hp. destruct Hp as [Hc Hp].
    apply andb_prop in Hc. destruct Hc as [_ Hc]. apply negb_true_iff in Hc.
    cbn [index String.prefix].
    destruct (ascii_dec "<" c) as [<- | _];
      [rewrite Ascii.eqb_refl in Hc; discriminate |].
    rewrite (IH Hp). reflexivity. }
  rewrite H. reflexivity.
Qed.

Lemma split_acc_app (a : string) :
  forall (cur : string) (d : ascii) (b : string),
    mem_char d delims = true ->
    split_acc (a ++ String d b) cur = (split_acc a cur ++ split_acc b "")%list.
Proof.
  induction a as [| c a IH]; intros cur d b Hd.
  - cbn [append split_acc]. rewrite Hd. destruct cur; reflexivity.
  - cbn [append split_acc]. destruct (mem_char c delims).
    + destruct cur; rewrite IH by exact Hd; reflexivity.
    + apply IH. exact Hd.
Qed.

Lemma tokens_app (a : string) (d : ascii) (b : string) :
  mem_char d delims = true -> tokens (a ++ String d b) = (tokens a ++ tokens b)%list.
Proof. apply split_acc_app. Qed.

Lemma run_app (a : list sax) :
  forall (b : list sax) (s : ParseState),
    run (a ++ b)%list s = let* s1 := run a s in run b s1.
Proof.
  induction a as [| e a IH]; intros b s; [reflexivity |].
  cbn [app run]. destruct (handle e s); simpl; [apply IH | reflexivity | reflexivity].
Qed.

Lemma onChar_app (a b : string) (s : ParseState) :
  onChar (a ++ b) s = onChar b (onChar a s).
Proof.
  unfold onChar. destruct (capture s =? 0) eqn:Hc.
  - rewrite Hc. reflexivity.
  - cbn [capture set_charBuf]. rewrite Hc. cbn. rewrite append_assoc. reflexivity.
Qed.

(** The capture machine only appends character data: the pieces it comes
    in make no difference. *)
Lemma run_merge (events : list sax) :
  forall s : ParseState, run (merge events) s = run events s.
Proof.
  induction events as [| e events IH]; intros s; [reflexivity |].
  destruct e as [name attrs | name | a]; cbn [merge run].
  - destruct (handle _ s); simpl; auto.
  - destruct (handle _ s); simpl; auto.
  - cbn [handle bind]. rewrite <- IH.
    destruct (merge events) as [| [name attrs | name | b] rest']; try reflexivity.
    cbn [run handle bind]. rewrite onChar_app. reflexivity.
Qed.

(** The particle loop returns when its rows are in the two buffers. *)
Lemma read_particles_in (left : nat) :
  forall (e : Z) (sv : string) (iptc : list Z) (fptc : list double) (p : Z),
    0 <= p ->
    7 * (p + Z.of_nat left) <= Z.of_nat (List.length iptc) ->
    7 * (p + Z.of_nat left) <= Z.of_nat (List.length fptc) ->
    exists (iptc' : list Z) (fptc' : list double),
      read_particles left e sv iptc fptc p = Ok (iptc', fptc', p + Z.of_nat left).
Proof.
  induction left as [| left IH]; intros e sv iptc fptc p Hp Hi Hf.
  - simpl. rewrite Z.add_0_r. eauto.
  - cbn [read_particles]. unfold assign. rewrite cell_in by lia. cbn [bind].
    destruct (consume_run_in 6 sv (<[Z.to_nat (p * 7 + 0) := e]> iptc) (p * 7 + 1))
      as (sv1 & iptc1 & E1); [lia | rewrite length_insert; lia |].
    rewrite E1. cbn [bind].
    destruct (consume_run_in 7 sv1 fptc (p * 7 + 0)) as (sv2 & fptc1 & E2); [lia | lia |].
    rewrite E2. cbn [bind].
    apply consume_run_spec in E1, E2.
    destruct E1 as (_ & Hl1 & _). destruct E2 as (_ & Hl2 & _).
    rewrite length_insert in Hl1.
    destruct (IH e sv2 iptc1 fptc1 (p + 1)) as (iptc' & fptc' & E); try lia.
    rewrite E. replace (p + 1 + Z.of_nat left) with (p + Z.of_nat (S left)) by lia.
    eauto.
Qed.

(** [processEvent] returns when it can read NUP and all the cells it
    refers to are in the buffers. *)
Lemma processEvent_in (s : ParseState) (n : Z) :
  read_nup s = Some n ->
  0 <= cur_event s ->
  cur_event s * 2 + 2 <= Z.of_nat (List.length (ievt_arr s)) ->
  0 <= 4 + n_weights s ->
  cur_event s * (4 + n_weights s) + 4 <= Z.of_nat (List.length (fevt_arr s)) ->
  0 <= cur_particle s ->
  7 * (cur_particle s + Z.of_nat (Z.to_nat n)) <= Z.of_nat (List.length (iptc_arr s)) ->
  7 * (cur_particle s + Z.of_nat (Z.to_nat n)) <= Z.of_nat (List.length (fptc_arr s)) ->
  exists s' : ParseState, processEvent s = Ok s'.
Proof.
  unfold read_nup, processEvent. intros Hn He Hie Hw Hfe Hp Hip Hfp.
  destruct (consume_next (T := Z) (charBuf s)) as [[n' |] sv0]; [| discriminate].
  cbn [fst] in Hn. inversion Hn; subst n'.
  unfold assign. rewrite cell_in by lia. cbn [bind].
  rewrite consume_into_eq, cell_in by (rewrite length_insert; lia). cbn [bind].
  destruct (consume_run_in 4 (snd (consume_next (T := Z) sv0)) (fevt_arr s)
              (cur_event s * (4 + n_weights s) + 0)) as (sv2 & fevt & E2); [nia | lia |].
  rewrite E2. cbn [bind].
  destruct (read_particles_in (Z.to_nat n) (cur_event s) sv2 (iptc_arr s) (fptc_arr s)
              (cur_particle s) Hp Hip Hfp) as (iptc & fptc & E).
  rewrite E. cbn [bind]. eauto.
Qed.

(** C1 as stated fails: the file holds no line with [<weight ], pass 1
    counts no weight, and [parseLHE] throws the empty-input error. *)
Lemma parse_event_only_file_fails :
  countDimensions "events.lhe" (Some (event_only_text particle_a particle_b))
  = Ok (1, 0, 2) /\
  parseLHE (reports (event_only_text particle_a particle_b)
              (mk_expat (event_only_callbacks particle_a particle_b) None))
    "events.lhe" (Some (event_only_text particle_a particle_b))
  = Throw "Found no events, weights, or particles.".
Proof. split; vm_compute; reflexivity. Qed.

Lemma scan_plain_line (stale : bool) (line : string) (rest : list string)
    (e w p n : Z) :
  contains "<event>" line = false ->
  contains "<weight " line = false ->
  scan stale (line :: rest) (mk_dims e w p n) = scan stale rest (mk_dims e w p (n + 1)).
Proof.
  intros He Hw. cbn [scan]. rewrite He. unfold count_weight. rewrite Hw. reflexivity.
Qed.

Lemma scan_weight_line (stale : bool) (line : string) (rest : list string)
    (e w p n : Z) :
  contains "<event>" line = false ->
  contains "<weight " line = true ->
  scan stale (line :: rest) (mk_dims e w p n)
  = scan stale rest (mk_dims e (w + 1) p (n + 1)).
Proof.
  intros He Hw. cbn [scan]. rewrite He. unfold count_weight. rewrite Hw. reflexivity.
Qed.

Lemma scan_event_line (stale : bool) (line header : string) (rest : list string)
    (e w p n k : Z) :
  contains "<event>" line = true ->
  istream_int header = Some k ->
  in_int (p + k) = true ->
  contains "<weight " header = false ->
  scan stale (line :: header :: rest) (mk_dims e w p n)
  = scan stale rest (mk_dims (e + 1) w (p + k) (n + 1 + 1)).
Proof.
  intros He Hk Hin Hw. cbn [scan]. rewrite He. unfold read_header.
  cbn [d_events d_weights d_particles d_line]. rewrite Hk, Hin. cbn [bind].
  unfold count_weight. rewrite Hw. reflexivity.
Qed.

Lemma scenario_scan (filename p1 p2 : string) :
  plain p1 = true -> plain p2 = true ->
  countDimensions filename (Some (scenario_text p1 p2)) = Ok (1, 1, 2).
Proof.
  intros H1 H2. unfold countDimensions, scenario_text.
  rewrite !getlines_one_line
    by (first [apply plain_one_line; assumption | reflexivity]).
  change (getlines "") with (@nil string).
  set (stale := open_ended _). clearbody stale.
  rewrite scan_plain_line by reflexivity.
  rewrite scan_weight_line by reflexivity.
  rewrite (scan_event_line _ _ _ _ _ _ _ _ 2) by reflexivity.
  rewrite !scan_plain_line
    by (first [apply contains_plain; assumption | reflexivity]).
  reflexivity.
Qed.

Lemma scenario_tokens (p1 p2 : string) :
  tokens (scenario_body p1 p2) =
  (["2"; "1"; "1.0"; "2.0"; "3.0"; "4.0"] ++ tokens (p1 ++ nl ++ p2 ++ nl))%list.
Proof.
  unfold scenario_body.
  change (nl ++ header_line ++ nl ++ p1 ++ nl ++ p2 ++ nl)
    with ((nl ++ header_line) ++ String newline (p1 ++ nl ++ p2 ++ nl)).
  rewrite tokens_app by reflexivity. reflexivity.
Qed.

Lemma scenario_extract (p1 p2 : string) :
  exists (iptc : list Z) (fptc : list double),
    processEvent (scenario_header_state p1 p2) =
    Ok (mk_state [Finite 1; Finite 2; Finite 3; Finite 4; dzero] [2; 1] fptc iptc
          1 1 2 0 0 2 EVENT_HEADER (scenario_body p1 p2)) /\
    List.length iptc = 14%nat /\ List.length fptc = 14%nat /\
    iptc !! 0%nat = Some 0 /\ iptc !! 7%nat = Some 0.
Proof.
  assert (Hn : read_nup (scenario_header_state p1 p2) = Some 2).
  { rewrite read_nup_tokens. cbn [charBuf scenario_header_state].
    rewrite scenario_tokens. reflexivity. }
  destruct (processEvent_in _ 2 Hn) as [s' E]; try (cbn; lia).
  pose proof (processEvent_Ok _ _ E)
    as (n & Hn' & Hsame & Hp & _ & Hievt & Hfevt & sv & Hsv & Eptc).
  assert (n = 2) by congruence. subst n.
  apply read_particles_spec in Eptc.
  destruct Eptc as (_ & Hli & Hlf & _ & Hrows & _).
  destruct (Hrows 0%nat 0%nat ltac:(simpl; lia) ltac:(lia)) as [Hrow0 _].
  destruct (Hrows 1%nat 0%nat ltac:(simpl; lia) ltac:(lia)) as [Hrow1 _].
  rewrite E. clear E Hrows.
  destruct s' as [fevt ievt fptc iptc nw ne np ce cw cp cap buf].
  cbn [scenario_header_state n_weights n_events n_particles cur_event cur_weight
       cur_particle capture charBuf ievt_arr fevt_arr iptc_arr fptc_arr] in *.
  destruct Hsame as (-> & -> & -> & -> & -> & -> & ->).
  rewrite scenario_tokens in Hievt, Hfevt.
  exists iptc, fptc. repeat split; try assumption.
  f_equal. f_equal; try assumption; try lia.
  apply list_eq. intros k. rewrite Hfevt.
  do 5 (destruct k as [| k]; [reflexivity |]). reflexivity.
Qed.

Lemma scenario_run (p1 p2 : string) :
  exists (iptc : list Z) (fptc : list double),
    run (scenario_callbacks p1 p2) (fresh 1 1 2) =
    Ok (mk_state [Finite 1; Finite 2; Finite 3; Finite 4; Finite (1 # 2)] [2; 1]
          fptc iptc 1 1 2 1 1 2 NO_CAPTURE "") /\
    List.length iptc = 14%nat /\ List.length fptc = 14%nat /\
    iptc !! 0%nat = Some 0 /\ iptc !! 7%nat = Some 0.
Proof.
  destruct (scenario_extract p1 p2) as (iptc & fptc & E & Hfacts).
  exists iptc, fptc. split; [| exact Hfacts].
  unfold scenario_callbacks.
  change ([StartElement "event" []; CharacterData (scenario_body p1 p2);
           StartElement "wgt" [("id", "w0")]] ++ scenario_epilogue)%list
    with ([StartElement "event" []; CharacterData (scenario_body p1 p2)] ++
          StartElement "wgt" [("id", "w0")] :: scenario_epilogue)%list.
  rewrite run_app.
  change (run scenario_prologue (fresh 1 1 2)) with (Ok (fresh 1 1 2)). cbn [bind].
  rewrite run_app.
  change (run [StartElement "event" []; CharacterData (scenario_body p1 p2)]
            (fresh 1 1 2))
    with (Ok (scenario_header_state p1 p2)). cbn [bind].
  cbn [run handle]. unfold onStart.
  change (String.eqb "wgt" "event") with false.
  change (capture (scenario_header_state p1 p2) =? EVENT_HEADER) with true.
  cbv iota. rewrite E. reflexivity.
Qed.

(** C1, as the code has it. Pass 1 counts the weights by the lines that
    hold [<weight ], the declarations of the file header, not by the
    [wgt] elements of the events. For the document [scenario_text p1 p2]:
    a root element with one such declaration line and one event block with
    the header line [2 1 1.0 2.0 3.0 4.0], any two particle lines [p1] and
    [p2] of plain character data and one [wgt] element of value 0.5,
    [parseLHE] returns; [i_evt] is [[2, 1]], [f_evt] is
    [[1.0, 2.0, 3.0, 4.0, 0.5]], [i_ptc] has two rows of 7 cells that start
    with the event index 0, and [f_ptc] has two rows of 7 cells. *)
Theorem parse_one_event_scenario :
  forall (XML_Parse : string -> expat_result) (filename p1 p2 : string),
    plain p1 = true -> plain p2 = true ->
    merge (callbacks (XML_Parse (scenario_text p1 p2))) = scenario_callbacks p1 p2 ->
    error (XML_Parse (scenario_text p1 p2)) = None ->
    exists (i_evt : ndarray Z) (f_evt : ndarray double)
           (i_ptc : ndarray Z) (f_ptc : ndarray double),
      parseLHE XML_Parse filename (Some (scenario_text p1 p2))
      = Ok (i_evt, f_evt, i_ptc, f_ptc) /\
      rows i_evt = [[2; 1]] /\
      rows f_evt = [[Finite 1; Finite 2; Finite 3; Finite 4; Finite (1 # 2)]] /\
      (exists r0 r1 : list Z,
         rows i_ptc = [r0; r1] /\
         List.length r0 = 7%nat /\ List.length r1 = 7%nat /\
         head r0 = Some 0 /\ head r1 = Some 0) /\
      (exists r0 r1 : list double,
         rows f_ptc = [r0; r1] /\
         List.length r0 = 7%nat /\ List.length r1 = 7%nat).
Proof.
  intros XML_Parse filename p1 p2 H1 H2 Hcalls Herror.
  destruct (scenario_run p1 p2) as (iptc & fptc & Erun & Hli & Hlf & Ho0 & Ho1).
  exists (mk_array 1 2 [2; 1]),
         (mk_array 1 5 [Finite 1; Finite 2; Finite 3; Finite 4; Finite (1 # 2)]),
         (mk_array 2 7 iptc), (mk_array 2 7 fptc).
  split; [| split; [reflexivity | split; [reflexivity | split]]].
  - unfold parseLHE. rewrite (scenario_scan filename p1 p2 H1 H2). cbn [bind].
    change ((1 =? 0) || (1 =? 0) || (2 =? 0)) with false. cbv iota.
    unfold array_t.
    change ((1 <? 0) || (4 + 1 <? 0)) with false.
    change ((2 <? 0) || (7 <? 0)) with false.
    change ((1 <? 0) || (2 <? 0)) with false.
    cbv iota. cbn [bind data nrows ncols]. rewrite Herror.
    change (mk_state _ _ _ _ 1 1 2 0 0 0 NO_CAPTURE "") with (fresh 1 1 2).
    rewrite <- run_merge, Hcalls, Erun. reflexivity.
  - exists (take 7 iptc), (take 7 (drop 7 iptc)).
    split; [reflexivity |].
    rewrite !length_take, length_drop, Hli.
    rewrite !head_lookup, lookup_take_lt, lookup_take_lt, lookup_drop by lia.
    repeat split; try assumption; lia.
  - exists (take 7 fptc), (take 7 (drop 7 fptc)).
    split; [reflexivity |].
    rewrite !length_take, length_drop, Hlf. split; lia.
Qed.

Lemma parse_one_event_scenario_witness :
  exists (i_evt : ndarray Z) (f_evt : ndarray double)
         (i_ptc : ndarray Z) (f_ptc : ndarray double),
    parseLHE (reports (scenario_text particle_a particle_b)
                (mk_expat (scenario_pieces particle_a particle_b) None))
      "events.lhe" (Some (scenario_text particle_a particle_b))
    = Ok (i_evt, f_evt, i_ptc, f_ptc) /\
    rows i_evt = [[2; 1]] /\
    rows f_evt = [[Finite 1; Finite 2; Finite 3; Finite 4; Finite (1 # 2)]] /\
    (exists r0 r1 : list Z,
       rows i_ptc = [r0; r1] /\
       List.length r0 = 7%nat /\ List.length r1 = 7%nat /\
       head r0 = Some 0 /\ head r1 = Some 0) /\
    (exists r0 r1 : list double,
       rows f_ptc = [r0; r1] /\
       List.length r0 = 7%nat /\ List.length r1 = 7%nat).
Proof.
  apply (parse_one_event_scenario _ "events.lhe" particle_a particle_b);
    vm_compute; reflexivity.
Defined.

(** * Further properties of the code *)

(** ** One token at a time *)

Lemma prefix_remove (n : nat) (sv : string) :
  prefix_of n sv ++ remove_prefix n sv = sv.
Proof.
  revert sv. induction n as [| n IH]; intros sv; [reflexivity |].
  destruct sv as [| c sv]; [reflexivity |]. cbn [prefix_of remove_prefix append].
  rewrite IH. reflexivity.
Qed.

Lemma length_remove_prefix (n : nat) (sv : string) :
  String.length (remove_prefix n sv) = (String.length sv - n)%nat.
Proof.
  revert sv. induction n as [| n IH]; intros sv; cbn [remove_prefix].
  - lia.
  - destruct sv as [| c sv]; [reflexivity |]. cbn [String.length]. rewrite IH. lia.
Qed.

Lemma length_append (a b : string) :
  String.length (a ++ b) = (String.length a + String.length b)%nat.
Proof. induction a as [| c a IH]; simpl; [reflexivity | rewrite IH; reflexivity]. Qed.

Lemma consume_next_suffix {T : Type} `{FromChars T} (sv : string) :
  exists skipped : string, sv = skipped ++ snd (consume_next sv).
Proof.
  unfold consume_next.
  destruct (find_first_not_of delims sv) as [b |]; cbn [snd].
  - destruct (find_first_of delims (remove_prefix b sv)) as [e |].
    + exists (prefix_of b sv ++ prefix_of e (remove_prefix b sv)).
      rewrite append_assoc, !prefix_remove. reflexivity.
    + exists sv. rewrite append_nil_r. reflexivity.
  - exists "". reflexivity.
Qed.

(** X1. [consume_next] takes exactly one token off the view. On a view of
    delimiters only it reports failure and leaves the view as it is.
    Otherwise it hands the first token to [std::from_chars] and leaves a
    shorter view that holds the other tokens; this is so whether the token
    is accepted or not. In both cases the view left is the end of the view
    it was given. *)
Theorem consume_next_takes_one_token :
  forall (T : Type) (R : FromChars T) (sv : string),
    match tokens sv with
    | [] => consume_next sv = (None, sv)
    | t :: ts =>
        fst (consume_next sv) = from_chars t /\
        tokens (snd (consume_next sv)) = ts /\
        (String.length (snd (consume_next sv)) < String.length sv)%nat
    end /\
    exists skipped : string, sv = skipped ++ snd (consume_next sv).
Proof.
  intros T R sv. split; [| apply consume_next_suffix].
  pose proof (consume_next_tokens (T := T) sv) as Ht.
  destruct (tokens sv) as [| t ts] eqn:Etok; [exact Ht |].
  destruct Ht as [H1 H2]. split; [exact H1 |]. split; [exact H2 |].
  destruct (consume_next_suffix (T := T) sv) as [skipped Hs].
  destruct skipped as [| c skipped].
  - cbn [append] in Hs. rewrite <- Hs, Etok in H2.
    apply (f_equal (@List.length string)) in H2. simpl in H2. lia.
  - apply (f_equal String.length) in Hs. rewrite length_append in Hs.
    simpl in Hs. lia.
Qed.

(** ** The cells of an event *)

Lemma processEvent_fits (s s' : ParseState) (n : Z) :
  read_nup s = Some n -> processEvent s = Ok s' -> event_fits s n.
Proof.
  unfold processEvent, read_nup. intros Hn E.
  destruct (consume_next (T := Z) (charBuf s)) as [[n' |] sv0] eqn:E0; [| discriminate].
  cbn [fst] in Hn. inversion Hn; subst n'. clear Hn.
  bind_ok E. rename a into ievt1. apply assign_Ok in E1. destruct E1 as [Hi ->].
  bind_ok E. destruct a as [sv1 ievt2].
  rewrite consume_into_eq in E1. bind_ok E1. apply cell_Ok in E2.
  destruct E2 as [Hi1 ->]. rewrite length_insert in Hi1. inversion E1; subst. clear E1.
  bind_ok E. destruct a as [sv2 fevt].
  apply consume_run_spec in E1. destruct E1 as (_ & _ & Hf & _).
  specialize (Hf ltac:(discriminate)).
  bind_ok E. destruct a as [[iptc fptc] particle].
  apply read_particles_spec in E1. destruct E1 as (_ & _ & _ & Hp & _).
  unfold event_fits. split; [lia |]. split; [lia |].
  intros Hpos. rewrite Z2Nat.id in Hp by lia. apply Hp. lia.
Qed.

Lemma processEvent_fits_Ok (s : ParseState) (n : Z) :
  read_nup s = Some n -> event_fits s n -> exists s' : ParseState, processEvent s = Ok s'.
Proof.
  unfold read_nup, processEvent, event_fits.
  intros Hn ((Hie0 & Hie1) & (Hfe0 & Hfe1) & Hp).
  destruct (consume_next (T := Z) (charBuf s)) as [[n' |] sv0]; [| discriminate].
  cbn [fst] in Hn. inversion Hn; subst n'.
  unfold assign. rewrite cell_in by lia. cbn [bind].
  rewrite consume_into_eq, cell_in by (rewrite length_insert; lia). cbn [bind].
  destruct (consume_run_in 4 (snd (consume_next (T := Z) sv0)) (fevt_arr s)
              (cur_event s * (4 + n_weights s) + 0)) as (sv2 & fevt & E2); [lia | lia |].
  rewrite E2. cbn [bind].
  destruct (Z_lt_le_dec 0 n) as [Hpos | Hneg].
  - destruct (Hp Hpos) as (Hp0 & Hip & Hfp).
    destruct (read_particles_in (Z.to_nat n) (cur_event s) sv2 (iptc_arr s) (fptc_arr s)
                (cur_particle s) Hp0) as (iptc & fptc & E); [lia | lia |].
    rewrite E. cbn [bind]. eauto.
  - replace (Z.to_nat n) with 0%nat by lia. cbn [read_particles bind]. eauto.
Qed.

(** X2. Once the count [n] is read, [processEvent] returns exactly when
    the cells it refers to lie in the buffers: the event row of [i_evt],
    the first four cells of the event row of [f_evt], and, when [n] is
    positive, [n] particle rows from the particle cursor on. Nothing in
    the function tests this: when the cells do not fit, the behaviour is
    undefined. *)
Theorem processEvent_defined_iff_fits :
  forall (s : ParseState) (n : Z),
    read_nup s = Some n ->
    ((exists s' : ParseState, processEvent s = Ok s') <-> event_fits s n) /\
    (~ event_fits s n -> processEvent s = Undefined).
Proof.
  intros s n Hn.
  assert (Hiff : (exists s' : ParseState, processEvent s = Ok s') <-> event_fits s n).
  { split.
    - intros [s' E]. exact (processEvent_fits s s' n Hn E).
    - apply processEvent_fits_Ok. exact Hn. }
  split; [exact Hiff |].
  intros Hno. destruct (processEvent s) as [s' | w |] eqn:E.
  - exfalso. apply Hno. apply Hiff. eauto.
  - exfalso. exact (processEvent_no_throw_after_nup s n w Hn E).
  - reflexivity.
Qed.

Lemma processEvent_defined_iff_fits_witness :
  read_nup crowded_state = Some 3 /\
  ~ event_fits crowded_state 3 /\
  processEvent crowded_state = Undefined.
Proof.
  assert (Hn : read_nup crowded_state = Some 3) by (vm_compute; reflexivity).
  assert (Hno : ~ event_fits crowded_state 3).
  { intros (_ & _ & H). destruct (H ltac:(lia)) as (_ & H7 & _).
    vm_compute in H7. apply H7. reflexivity. }
  split; [exact Hn |]. split; [exact Hno |].
  exact (proj2 (processEvent_defined_iff_fits crowded_state 3 Hn) Hno).
Defined.

Lemma processEvent_count_cell (s s' : ParseState) (n : Z) :
  processEvent s = Ok s' -> read_nup s = Some n ->
  ievt_arr s' !! Z.to_nat (cur_event s * 2) = Some n.
Proof.
  intros E Hn. apply processEvent_Ok in E.
  destruct E as (n' & Hn' & _ & _ & Hie & Hievt & _).
  assert (n' = n) by congruence. subst n'.
  rewrite Hievt, list_lookup_alter_ne, list_lookup_insert_eq by lia. reflexivity.
Qed.

(** X3. What a returning [processEvent] stores. The count goes to column 0
    of the event row, and the particle cursor moves on by the count (by
    nothing when the count is negative). Every other field of the event
    whose token [std::from_chars] accepts at the type of the field is
    stored in its cell: IDPRUP in column 1 of the event row, the four
    reals in the first four columns of the [f_evt] row, the six integers
    of particle [q] in columns 1 to 6 of its row, its seven reals in its
    [f_ptc] row. *)
Theorem processEvent_stores_fields :
  forall (s s' : ParseState) (n : Z),
    processEvent s = Ok s' ->
    read_nup s = Some n ->
    ievt_arr s' !! Z.to_nat (cur_event s * 2) = Some n /\
    cur_particle s' = cur_particle s + Z.max 0 n /\
    forall (f : field) (t : string) (v : value),
      field_of_event (Z.to_nat n) f ->
      tokens (charBuf s) !! token_index f = Some t ->
      parsed f t = Some v ->
      field_cell s f s' = Some v.
Proof.
  intros s s' n E Hn. pose proof (processEvent_fits s s' n Hn E) as Hfit.
  apply processEvent_Ok in E.
  destruct E as (n' & Hn' & _ & Hcp & Hie & Hievt & Hfevt & sv & Hsv & E).
  assert (n' = n) by congruence. subst n'.
  apply read_particles_spec in E. destruct E as (_ & Hli & Hlf & Hin & Hrows & _).
  destruct Hfit as (_ & (Hfe0 & Hfe1) & Hpt).
  split; [| split; [lia |]].
  { rewrite Hievt, list_lookup_alter_ne, list_lookup_insert_eq by lia. reflexivity. }
  intros f t v Hf Ht Hv.
  destruct f as [| i | q i | q i];
    cbn [field_of_event token_index parsed field_cell] in *.
  - rewrite Hievt, list_lookup_alter_eq, list_lookup_insert_ne by lia.
    destruct (lookup_lt_is_Some_2 (ievt_arr s) (Z.to_nat (cur_event s * 2 + 1)))
      as [old Hold]; [lia |].
    rewrite Hold, Ht. cbn [fmap option_fmap option_map stored].
    unfold from_chars, from_chars_Z.
    destruct (from_chars_int t) as [z |]; [| discriminate]. exact Hv.
  - rewrite Hfevt. unfold filled. rewrite decide_True by lia.
    destruct (lookup_lt_is_Some_2 (fevt_arr s)
                (Z.to_nat (cur_event s * (4 + n_weights s)) + i)) as [old Hold]; [lia |].
    rewrite Hold, lookup_drop.
    replace (Z.to_nat (cur_event s * (4 + n_weights s)) + i
             - Z.to_nat (cur_event s * (4 + n_weights s)))%nat with i by lia.
    rewrite Ht. cbn [fmap option_fmap option_map stored].
    unfold from_chars, from_chars_dbl.
    destruct (from_chars_double t) as [d |]; [| discriminate]. exact Hv.
  - destruct Hf as [Hq Hi].
    destruct (Hpt ltac:(lia)) as (Hp0 & Hpi & Hpf).
    destruct (Hrows q (S i) Hq ltac:(lia)) as [Hcell _].
    replace (7 * (Z.to_nat (cur_particle s) + q) + 1 + i)%nat
      with (7 * (Z.to_nat (cur_particle s) + q) + S i)%nat in * by lia.
    rewrite Hcell.
    destruct (lookup_lt_is_Some_2 (iptc_arr s)
                (7 * (Z.to_nat (cur_particle s) + q) + S i)) as [old Hold]; [lia |].
    rewrite Hold, Hsv, lookup_drop.
    replace (6 + (13 * q + i))%nat with (6 + 13 * q + i)%nat by lia.
    rewrite Ht. cbn [fmap option_fmap option_map stored].
    unfold from_chars, from_chars_Z.
    destruct (from_chars_int t) as [z |]; [| discriminate]. exact Hv.
  - destruct Hf as [Hq Hi].
    destruct (Hpt ltac:(lia)) as (Hp0 & Hpi & Hpf).
    destruct (Hrows q i Hq Hi) as [_ Hcell].
    rewrite Hcell.
    destruct (lookup_lt_is_Some_2 (fptc_arr s)
                (7 * (Z.to_nat (cur_particle s) + q) + i)) as [old Hold]; [lia |].
    rewrite Hold, Hsv, lookup_drop.
    replace (6 + (13 * q + 6 + i))%nat with (12 + 13 * q + i)%nat by lia.
    rewrite Ht. cbn [fmap option_fmap option_map stored].
    unfold from_chars, from_chars_dbl.
    destruct (from_chars_double t) as [d |]; [| discriminate]. exact Hv.
Qed.

Lemma processEvent_stores_fields_witness :
  processEvent lenient_state = Ok lenient_result /\
  read_nup lenient_state = Some 1 /\
  ievt_arr lenient_result !! 0%nat = Some 1 /\
  cur_particle lenient_result = 1 /\
  field_cell lenient_state (event_real 0) lenient_result = Some (real_value (Finite 1)) /\
  field_cell lenient_state (particle_int 0 0) lenient_result = Some (int_value 21) /\
  field_cell lenient_state (particle_real 0 2) lenient_result
  = Some (real_value (Finite (19 # 2))).
Proof.
  assert (E : processEvent lenient_state = Ok lenient_result)
    by (vm_compute; reflexivity).
  assert (Hn : read_nup lenient_state = Some 1) by (vm_compute; reflexivity).
  destruct (processEvent_stores_fields lenient_state lenient_result 1 E Hn)
    as (Hcount & Hcursor & Hfields).
  split; [exact E |]. split; [exact Hn |]. split; [exact Hcount |].
  split; [exact Hcursor |].
  split; [| split].
  - apply (Hfields (event_real 0) "1.0"); vm_compute; [lia | reflexivity | reflexivity].
  - apply (Hfields (particle_int 0 0) "21");
      vm_compute; [split; lia | reflexivity | reflexivity].
  - apply (Hfields (particle_real 0 2) "9.5");
      vm_compute; [split; lia | reflexivity | reflexivity].
Defined.

(** X4. A count that is zero or negative is stored in column 0 of the
    event row like any other; the particle loop then does not run: the
    particle cursor and the two particle buffers stay as they are. *)
Theorem processEvent_nonpositive_count :
  forall (s s' : ParseState) (n : Z),
    read_nup s = Some n -> n <= 0 ->
    processEvent s = Ok s' ->
    ievt_arr s' !! Z.to_nat (cur_event s * 2) = Some n /\
    cur_particle s' = cur_particle s /\
    iptc_arr s' = iptc_arr s /\
    fptc_arr s' = fptc_arr s.
Proof.
  intros s s' n Hn Hneg E.
  pose proof (processEvent_count_cell s s' n E Hn) as Hcell.
  apply processEvent_Ok in E.
  destruct E as (n' & Hn' & _ & _ & _ & _ & _ & sv & _ & E).
  assert (n' = n) by congruence. subst n'.
  replace (Z.to_nat n) with 0%nat in E by lia. cbn [read_particles] in E.
  inversion E. auto.
Qed.

Lemma processEvent_nonpositive_count_witness :
  exists s' : ParseState,
    processEvent negative_count_state = Ok s' /\
    read_nup negative_count_state = Some (-3) /\
    ievt_arr s' !! 0%nat = Some (-3) /\
    cur_particle s' = cur_particle negative_count_state /\
    iptc_arr s' = iptc_arr negative_count_state /\
    fptc_arr s' = fptc_arr negative_count_state.
Proof.
  assert (Hn : read_nup negative_count_state = Some (-3)) by (vm_compute; reflexivity).
  eexists. split; [vm_compute; reflexivity |]. split; [exact Hn |].
  apply (processEvent_nonpositive_count negative_count_state _ (-3) Hn);
    [lia | vm_compute; reflexivity].
Defined.

(** ** The weights of an event *)

(** X5. A returning [processWeight] changes one cell of [f_evt], the cell
    4 + [cur_weight] of the event row, which gets the value of the first
    token when [std::from_chars] accepts it; it leaves the other three
    buffers, the event cursor and the particle cursor alone. The column is
    not held against [n_weights]: for the element after the last declared
    weight the cell is the first cell of the next event row. *)
Theorem processWeight_writes_one_cell :
  forall s s' : ParseState,
    processWeight s = Ok s' ->
    (forall j : nat,
       fevt_arr s' !! j =
       if decide (j = Z.to_nat (cur_event s * (4 + n_weights s) + (4 + cur_weight s)))
       then stored (head (tokens (charBuf s))) <$> fevt_arr s !! j
       else fevt_arr s !! j) /\
    (ievt_arr s' = ievt_arr s /\ iptc_arr s' = iptc_arr s /\ fptc_arr s' = fptc_arr s) /\
    (cur_event s' = cur_event s /\ cur_particle s' = cur_particle s) /\
    (cur_weight s = n_weights s ->
     fevt_arr s' !! Z.to_nat ((cur_event s + 1) * (4 + n_weights s)) =
     stored (head (tokens (charBuf s)))
       <$> fevt_arr s !! Z.to_nat ((cur_event s + 1) * (4 + n_weights s))).
Proof.
  intros s s' E. apply processWeight_Ok in E. destruct E as [-> Hi].
  cbn. split; [| split; [auto | split; [auto |]]].
  - intros j. destruct (decide _) as [-> | Hj].
    + apply list_lookup_alter_eq.
    + apply list_lookup_alter_ne. congruence.
  - intros Hw.
    replace ((cur_event s + 1) * (4 + n_weights s))
      with (cur_event s * (4 + n_weights s) + (4 + cur_weight s)) by lia.
    apply list_lookup_alter_eq.
Qed.

Lemma processWeight_writes_one_cell_witness :
  exists s' : ParseState,
    processWeight second_weight_state = Ok s' /\
    cur_weight second_weight_state = n_weights second_weight_state /\
    fevt_arr s' !!
      Z.to_nat ((cur_event second_weight_state + 1) * (4 + n_weights second_weight_state))
    = stored (head (tokens (charBuf second_weight_state)))
        <$> fevt_arr second_weight_state !!
              Z.to_nat ((cur_event second_weight_state + 1)
                        * (4 + n_weights second_weight_state)) /\
    fevt_arr s' !! 5%nat = Some (Finite (1 # 4)) /\
    ievt_arr s' = ievt_arr second_weight_state.
Proof.
  eexists. split; [vm_compute; reflexivity |]. split; [reflexivity |].
  match goal with
  | |- context [ievt_arr ?s' = _] =>
      destruct (processWeight_writes_one_cell second_weight_state s')
        as (_ & (Hievt & _) & _ & Hnext); [vm_compute; reflexivity |]
  end.
  split; [exact (Hnext eq_refl) |]. split; [vm_compute; reflexivity | exact Hievt].
Defined.

Lemma run_wgt_element (w : wgt_element) (s : ParseState) :
  capture s = NO_CAPTURE -> charBuf s = "" ->
  run (wgt_callbacks w) s = processWeight (set_charBuf (wgt_text w) (set_capture WGT_TAG s)).
Proof.
  intros Hc Hb. unfold wgt_callbacks. cbn [run handle].
  unfold onChar at 1. rewrite Hc. cbn [Z.eqb NO_CAPTURE bind].
  unfold onStart. change (String.eqb "wgt" "event") with false.
  rewrite Hc. change (NO_CAPTURE =? EVENT_HEADER) with false.
  cbn [bind String.eqb Ascii.eqb Bool.eqb].
  unfold onChar. cbn [set_capture capture charBuf]. change (WGT_TAG =? 0) with false.
  cbv iota. rewrite Hb. cbn [append bind].
  unfold onEnd. change (String.eqb "wgt" "event") with false.
  change (String.eqb "wgt" "wgt") with true. cbv iota.
  destruct (processWeight _); reflexivity.
Qed.

Lemma run_wgts_spec (ws : list wgt_element) :
  forall s s' : ParseState,
    capture s = NO_CAPTURE -> charBuf s = "" ->
    run (wgts_callbacks ws) s = Ok s' ->
    cur_weight s' = cur_weight s + Z.of_nat (List.length ws) /\
    capture s' = NO_CAPTURE /\ charBuf s' = "" /\
    (forall j : nat,
       fevt_arr s' !!
         (Z.to_nat (cur_event s * (4 + n_weights s) + (4 + cur_weight s)) + j)%nat =
       match ws !! j with
       | Some w =>
           stored (head (tokens (wgt_text w))) <$>
             fevt_arr s !!
               (Z.to_nat (cur_event s * (4 + n_weights s) + (4 + cur_weight s)) + j)%nat
       | None =>
           fevt_arr s !!
             (Z.to_nat (cur_event s * (4 + n_weights s) + (4 + cur_weight s)) + j)%nat
       end) /\
    (forall k : nat,
       (k < Z.to_nat (cur_event s * (4 + n_weights s) + (4 + cur_weight s)))%nat ->
       fevt_arr s' !! k = fevt_arr s !! k) /\
    (cur_event s' = cur_event s /\ cur_particle s' = cur_particle s /\
     n_weights s' = n_weights s /\ ievt_arr s' = ievt_arr s /\
     iptc_arr s' = iptc_arr s /\ fptc_arr s' = fptc_arr s).
Proof.
  induction ws as [| w ws IH]; intros s s' Hc Hb E.
  - cbn in E. inversion E; subst.
    split; [cbn [List.length]; lia |]. split; [exact Hc |]. split; [exact Hb |].
    split; [intros j; rewrite lookup_nil; reflexivity |]. split; [reflexivity |].
    repeat split.
  - unfold wgts_callbacks in E. cbn [map concat] in E. rewrite run_app in E.
    bind_ok E. rename a into s1. rewrite run_wgt_element in E0 by assumption.
    apply processWeight_Ok in E0. destruct E0 as [Hs1 Hi].
    cbn [set_charBuf set_capture cur_event n_weights cur_weight fevt_arr charBuf] in Hs1, Hi.
    assert (Hc1 : capture s1 = NO_CAPTURE) by (subst s1; reflexivity).
    assert (Hb1 : charBuf s1 = "") by (subst s1; reflexivity).
    destruct (IH s1 s' Hc1 Hb1 E) as (Hw & Hc' & Hb' & Hcells & Hbelow & Hsame).
    assert (He1 : cur_event s1 = cur_event s) by (subst s1; reflexivity).
    assert (Hn1 : n_weights s1 = n_weights s) by (subst s1; reflexivity).
    assert (Hw1 : cur_weight s1 = cur_weight s + 1) by (subst s1; reflexivity).
    assert (Hf1 : fevt_arr s1 =
                  alter (stored (head (tokens (wgt_text w))))
                    (Z.to_nat (cur_event s * (4 + n_weights s) + (4 + cur_weight s)))
                    (fevt_arr s)) by (subst s1; reflexivity).
    assert (Ho1 : cur_particle s1 = cur_particle s /\ ievt_arr s1 = ievt_arr s /\
                  iptc_arr s1 = iptc_arr s /\ fptc_arr s1 = fptc_arr s)
      by (subst s1; repeat split).
    rewrite He1, Hn1, Hw1 in Hcells, Hbelow.
    set (base := Z.to_nat (cur_event s * (4 + n_weights s) + (4 + cur_weight s))) in *.
    replace (Z.to_nat (cur_event s * (4 + n_weights s) + (4 + (cur_weight s + 1))))
      with (S base) in Hcells, Hbelow by (unfold base; lia).
    split; [rewrite Hw, Hw1; cbn [List.length]; lia |].
    split; [exact Hc' |]. split; [exact Hb' |]. split; [| split].
    + intros [| j].
      * rewrite Nat.add_0_r. rewrite Hbelow by lia. rewrite Hf1.
        cbn [lookup list_lookup]. apply list_lookup_alter_eq.
      * replace (base + S j)%nat with (S base + j)%nat by lia.
        rewrite Hcells. change ((w :: ws) !! S j) with (ws !! j).
        rewrite Hf1. rewrite list_lookup_alter_ne by lia. reflexivity.
    + intros k Hk. rewrite Hbelow by lia. rewrite Hf1.
      apply list_lookup_alter_ne. lia.
    + intuition congruence.
Qed.

(** X6. The weights of an event are stored by position. From a state in
    which nothing is captured, a run of [wgt] elements, whatever their
    attributes and whatever character data stands between them, moves the
    weight cursor on by their number and stores the text of the [j]-th
    element in the [j]-th cell from the cell of the weight cursor on; the
    cells before these are left alone. *)
Theorem weights_stored_in_order :
  forall (ws : list wgt_element) (s s' : ParseState),
    capture s = NO_CAPTURE -> charBuf s = "" ->
    run (wgts_callbacks ws) s = Ok s' ->
    cur_weight s' = cur_weight s + Z.of_nat (List.length ws) /\
    capture s' = NO_CAPTURE /\ charBuf s' = "" /\
    (forall j : nat,
       fevt_arr s' !!
         (Z.to_nat (cur_event s * (4 + n_weights s) + (4 + cur_weight s)) + j)%nat =
       match ws !! j with
       | Some w =>
           stored (head (tokens (wgt_text w))) <$>
             fevt_arr s !!
               (Z.to_nat (cur_event s * (4 + n_weights s) + (4 + cur_weight s)) + j)%nat
       | None =>
           fevt_arr s !!
             (Z.to_nat (cur_event s * (4 + n_weights s) + (4 + cur_weight s)) + j)%nat
       end) /\
    (forall k : nat,
       (k < Z.to_nat (cur_event s * (4 + n_weights s) + (4 + cur_weight s)))%nat ->
       fevt_arr s' !! k = fevt_arr s !! k).
Proof.
  intros ws s s' Hc Hb E.
  destruct (run_wgts_spec ws s s' Hc Hb E) as (H1 & H2 & H3 & H4 & H5 & _). auto.
Qed.

Lemma weights_stored_in_order_witness :
  exists s' : ParseState,
    run (wgts_callbacks two_wgt_elements) (fresh 1 2 1) = Ok s' /\
    cur_weight s' = cur_weight (fresh 1 2 1) + Z.of_nat (List.length two_wgt_elements) /\
    capture s' = NO_CAPTURE /\ charBuf s' = "" /\
    fevt_arr s' !! 4%nat = Some (Finite (1 # 2)) /\
    fevt_arr s' !! 5%nat = Some (Finite (1 # 4)).
Proof.
  eexists. split; [vm_compute; reflexivity |].
  match goal with
  | |- context [capture ?s' = _] =>
      destruct (weights_stored_in_order two_wgt_elements (fresh 1 2 1) s')
        as (Hw & Hc & Hb & _);
        [reflexivity | reflexivity | vm_compute; reflexivity |]
  end.
  split; [exact Hw |]. split; [exact Hc |]. split; [exact Hb |].
  split; vm_compute; reflexivity.
Defined.

(** ** What the callbacks leave alone *)

Lemma handle_configuration (e : sax) (s s' : ParseState) :
  handle e s = Ok s' ->
  n_weights s' = n_weights s /\ n_events s' = n_events s /\
  n_particles s' = n_particles s /\
  cur_event s' = cur_event s + (if is_event_end e then 1 else 0).
Proof.
  destruct e as [name attrs | name | buf]; cbn [handle is_event_end]; intros E.
  - unfold onStart in E. bind_ok E. rename a into s1.
    assert (H1 : n_weights s1 = n_weights s /\ n_events s1 = n_events s /\
                 n_particles s1 = n_particles s /\ cur_event s1 = cur_event s).
    { destruct (String.eqb name "event").
      - inversion E0; subst. auto.
      - destruct (capture s =? EVENT_HEADER).
        + bind_ok E0. inversion E0; subst. apply processEvent_Ok in E1.
          destruct E1 as (n & _ & (H1 & H2 & H3 & H4 & _) & _). cbn. auto.
        + inversion E0; subst. auto. }
    destruct (String.eqb name "wgt"); inversion E; subst; cbn; intuition lia.
  - unfold onEnd in E. destruct (String.eqb name "event").
    + inversion E; subst. cbn. auto.
    + destruct (String.eqb name "wgt").
      * apply processWeight_Ok in E. destruct E as [-> _]. cbn. intuition lia.
      * inversion E; subst. intuition lia.
  - inversion E; subst. unfold onChar. destruct (capture s =? 0); cbn; intuition lia.
Qed.

(** X7. The event cursor counts the closing tags of [event], and nothing
    else moves it: after any run of callbacks that returns, it has grown
    by the number of tag-ends named [event]. *)
Theorem run_counts_event_ends :
  forall (events : list sax) (s s' : ParseState),
    run events s = Ok s' ->
    cur_event s' = cur_event s + event_ends events.
Proof.
  induction events as [| e events IH]; intros s s' E; cbn [run] in E.
  - inversion E; subst. unfold event_ends. simpl. lia.
  - bind_ok E. apply handle_configuration in E0. destruct E0 as (_ & _ & _ & He).
    apply IH in E. rewrite E, He. unfold event_ends. rewrite filter_cons.
    destruct (is_event_end e); [rewrite decide_True by reflexivity
                               | rewrite decide_False by discriminate];
      cbn [List.length]; lia.
Qed.

Lemma run_counts_event_ends_witness :
  exists s' : ParseState,
    run one_event_run (fresh 2 1 2) = Ok s' /\
    cur_event s' = cur_event (fresh 2 1 2) + event_ends one_event_run /\
    cur_event s' = 1.
Proof.
  eexists. split; [vm_compute; reflexivity |].
  split; [| vm_compute; reflexivity].
  apply run_counts_event_ends. vm_compute. reflexivity.
Defined.

(** X8. The callbacks never write the three sizes [n_weights], [n_events]
    and [n_particles] of the state, and never change the size of any of
    the four buffers. *)
Theorem run_keeps_configuration :
  forall (events : list sax) (s s' : ParseState),
    run events s = Ok s' ->
    n_weights s' = n_weights s /\
    n_events s' = n_events s /\
    n_particles s' = n_particles s /\
    List.length (ievt_arr s') = List.length (ievt_arr s) /\
    List.length (fevt_arr s') = List.length (fevt_arr s) /\
    List.length (iptc_arr s') = List.length (iptc_arr s) /\
    List.length (fptc_arr s') = List.length (fptc_arr s).
Proof.
  intros events s s' E. pose proof (run_lengths events s s' E) as Hl.
  assert (Hc : n_weights s' = n_weights s /\ n_events s' = n_events s /\
               n_particles s' = n_particles s).
  { clear Hl. revert s E.
    induction events as [| e events IH]; intros s E; cbn [run] in E.
    - inversion E; subst. auto.
    - bind_ok E. apply handle_configuration in E0.
      destruct E0 as (H1 & H2 & H3 & _). apply IH in E. intuition congruence. }
  destruct Hc as (H1 & H2 & H3). auto.
Qed.

Lemma run_keeps_configuration_witness :
  exists s' : ParseState,
    run one_event_run (fresh 2 1 2) = Ok s' /\
    n_weights s' = 1 /\ n_events s' = 2 /\ n_particles s' = 2 /\
    List.length (ievt_arr s') = 4%nat /\
    List.length (fevt_arr s') = 10%nat /\
    List.length (iptc_arr s') = 14%nat /\
    List.length (fptc_arr s') = 14%nat.
Proof.
  eexists. split; [vm_compute; reflexivity |].
  apply (run_keeps_configuration one_event_run (fresh 2 1 2)).
  vm_compute. reflexivity.
Defined.

Lemma handle_without_child (e : sax) (s : ParseState) :
  is_child_start e = false ->
  (forall w : string, handle e s <> Throw w) /\
  (forall s' : ParseState,
     handle e s = Ok s' ->
     ievt_arr s' = ievt_arr s /\ iptc_arr s' = iptc_arr s /\
     fptc_arr s' = fptc_arr s /\ cur_particle s' = cur_particle s).
Proof.
  destruct e as [name attrs | name | buf]; cbn [handle is_child_start]; intros Hc.
  - apply negb_false_iff in Hc. unfold onStart. rewrite Hc. cbn [bind].
    destruct (String.eqb name "wgt"); split; try discriminate;
      intros s' E; inversion E; subst; auto.
  - unfold onEnd. destruct (String.eqb name "event").
    + split; [discriminate |]. intros s' E. inversion E; subst. auto.
    + destruct (String.eqb name "wgt").
      * split; [apply processWeight_no_throw |].
        intros s' E. apply processWeight_Ok in E. destruct E as [-> _]. auto.
      * split; [discriminate |]. intros s' E. inversion E; subst. auto.
  - split; [discriminate |]. intros s' E. inversion E; subst.
    unfold onChar. destruct (capture s =? 0); auto.
Qed.

(** X9. [processEvent] runs from [onStart] only, at a tag-begin of
    another name than [event]. A run of callbacks without such a tag
    cannot throw, and leaves [i_evt], the two particle buffers and the
    particle cursor as they are. *)
Theorem run_without_child_tags :
  forall (events : list sax) (s : ParseState),
    forallb (fun e => negb (is_child_start e)) events = true ->
    (forall w : string, run events s <> Throw w) /\
    (forall s' : ParseState,
       run events s = Ok s' ->
       ievt_arr s' = ievt_arr s /\ iptc_arr s' = iptc_arr s /\
       fptc_arr s' = fptc_arr s /\ cur_particle s' = cur_particle s).
Proof.
  induction events as [| e events IH]; intros s Hall; cbn [run forallb] in *.
  - split; [discriminate |]. intros s' E. inversion E; subst. auto.
  - apply andb_prop in Hall. destruct Hall as [He Hall].
    apply negb_true_iff in He.
    destruct (handle_without_child e s He) as [Hno Hsame].
    split.
    + intros w E. apply bind_Throw in E. destruct E as [E | (s1 & _ & E)].
      * exact (Hno w E).
      * exact (proj1 (IH s1 Hall) w E).
    + intros s' E. bind_ok E. apply Hsame in E0.
      apply (proj2 (IH a Hall)) in E. intuition congruence.
Qed.

Lemma run_without_child_tags_witness :
  forallb (fun e => negb (is_child_start e)) childless_event_run = true /\
  exists s' : ParseState,
    run childless_event_run (fresh 2 1 4) = Ok s' /\
    cur_event s' = 1 /\
    ievt_arr s' = ievt_arr (fresh 2 1 4) /\
    iptc_arr s' = iptc_arr (fresh 2 1 4) /\
    fptc_arr s' = fptc_arr (fresh 2 1 4) /\
    cur_particle s' = cur_particle (fresh 2 1 4).
Proof.
  assert (H : forallb (fun e => negb (is_child_start e)) childless_event_run = true)
    by reflexivity.
  split; [exact H |].
  eexists. split; [vm_compute; reflexivity |]. split; [reflexivity |].
  apply (proj2 (run_without_child_tags childless_event_run (fresh 2 1 4) H)).
  vm_compute. reflexivity.
Defined.

(** X10. The callbacks only append the character data they are given:
    two lists of callbacks that differ only in the pieces a run of
    character data comes in end in the same state, or fail in the same
    way. *)
Theorem run_same_merge :
  forall (a b : list sax) (s : ParseState),
    merge a = merge b -> run a s = run b s.
Proof.
  intros a b s H. rewrite <- (run_merge a), <- (run_merge b), H. reflexivity.
Qed.

Lemma run_same_merge_witness :
  merge (scenario_pieces particle_a particle_b)
  = merge (scenario_callbacks particle_a particle_b) /\
  run (scenario_pieces particle_a particle_b) (fresh 1 1 2)
  = run (scenario_callbacks particle_a particle_b) (fresh 1 1 2).
Proof.
  assert (H : merge (scenario_pieces particle_a particle_b)
              = merge (scenario_callbacks particle_a particle_b))
    by (vm_compute; reflexivity).
  split; [exact H |].
  exact (run_same_merge _ _ (fresh 1 1 2) H).
Defined.

(** X11. A run of callbacks changes no other row of [i_evt] than the rows
    of its extractions: a row that no [processEvent] of the run was at
    holds at the end what it held at the start. *)
Theorem run_keeps_other_event_rows :
  forall (events : list sax) (s s' : ParseState),
    run events s = Ok s' ->
    forall r : nat,
      ~ In (Z.of_nat r) (map fst (extractions events s)) ->
      ievt_arr s' !! (2 * r)%nat = ievt_arr s !! (2 * r)%nat /\
      ievt_arr s' !! (2 * r + 1)%nat = ievt_arr s !! (2 * r + 1)%nat.
Proof.
  induction events as [| e events IH]; intros s s' E r Hr; cbn [run extractions] in *.
  - inversion E; subst. auto.
  - bind_ok E. rename a into s1. rewrite E0 in Hr.
    rewrite map_app, in_app_iff in Hr.
    destruct (IH s1 s' E r ltac:(tauto)) as [H0 H1]. rewrite H0, H1.
    apply handle_ievt in E0.
    destruct (extraction e s) as [[row n] |]; [| rewrite E0; auto].
    destruct E0 as (Hrow & Hlen & f & ->).
    assert (Hne : Z.to_nat row <> r).
    { intros <-. apply Hr. left. left. cbn. lia. }
    rewrite !list_lookup_alter_ne, !list_lookup_insert_ne by lia. auto.
Qed.

Lemma run_keeps_other_event_rows_witness :
  exists s' : ParseState,
    run one_event_run (fresh 2 1 2) = Ok s' /\
    extractions one_event_run (fresh 2 1 2) = [(0, 1)] /\
    ievt_arr s' !! (2 * 1)%nat = ievt_arr (fresh 2 1 2) !! (2 * 1)%nat /\
    ievt_arr s' !! (2 * 1 + 1)%nat = ievt_arr (fresh 2 1 2) !! (2 * 1 + 1)%nat.
Proof.
  eexists. split; [vm_compute; reflexivity |].
  assert (Hx : extractions one_event_run (fresh 2 1 2) = [(0, 1)])
    by (vm_compute; reflexivity).
  split; [exact Hx |].
  apply (run_keeps_other_event_rows one_event_run (fresh 2 1 2));
    [vm_compute; reflexivity |].
  rewrite Hx. cbn. intros [H | []]. discriminate H.
Defined.

Lemma processEvent_set_counts (a b : Z) (s : ParseState) :
  processEvent (set_counts a b s) = map_outcome (set_counts a b) (processEvent s).
Proof.
  unfold processEvent. cbn [set_counts charBuf cur_event ievt_arr fevt_arr iptc_arr
                            fptc_arr n_weights cur_particle].
  destruct (consume_next (T := Z) (charBuf s)) as [[n |] sv0]; [| reflexivity].
  destruct (assign (ievt_arr s) _ n) as [ievt | |]; cbn [bind map_outcome];
    try reflexivity.
  destruct (consume_into sv0 ievt _) as [[sv1 ievt1] | |]; cbn [bind map_outcome];
    try reflexivity.
  destruct (consume_run 4 sv1 (fevt_arr s) _) as [[sv2 fevt] | |];
    cbn [bind map_outcome]; try reflexivity.
  destruct (read_particles _ _ sv2 _ _ _) as [[[iptc fptc] p] | |];
    cbn [bind map_outcome]; reflexivity.
Qed.

Lemma handle_set_counts (a b : Z) (e : sax) (s : ParseState) :
  handle e (set_counts a b s) = map_outcome (set_counts a b) (handle e s).
Proof.
  destruct e as [name attrs | name | buf]; cbn [handle].
  - unfold onStart. cbn [set_counts capture].
    destruct (String.eqb name "event").
    + cbn [bind]. destruct (String.eqb name "wgt"); reflexivity.
    + destruct (capture s =? EVENT_HEADER).
      * change (mk_state (fevt_arr s) (ievt_arr s) (fptc_arr s) (iptc_arr s)
                  (n_weights s) a b (cur_event s) (cur_weight s) (cur_particle s)
                  (capture s) (charBuf s)) with (set_counts a b s).
        rewrite processEvent_set_counts.
        destruct (processEvent s) as [s1 | |]; cbn [bind map_outcome]; try reflexivity.
        destruct (String.eqb name "wgt"); reflexivity.
      * cbn [bind]. destruct (String.eqb name "wgt"); reflexivity.
  - unfold onEnd. destruct (String.eqb name "event"); [reflexivity |].
    destruct (String.eqb name "wgt"); [| reflexivity].
    unfold processWeight. cbn [set_counts charBuf cur_event n_weights fevt_arr cur_weight].
    destruct (consume_into _ _ _) as [[sv fevt] | |]; reflexivity.
  - unfold onChar. cbn [set_counts capture map_outcome].
    destruct (capture s =? 0); reflexivity.
Qed.

(** X12. The callbacks never read [n_events] and [n_particles]: with other
    values in these two fields a run of callbacks does the same, and ends
    the same way, throwing or leaving defined behaviour included. No
    cursor is ever tested against the counts of pass 1. *)
Theorem run_ignores_counts :
  forall (events : list sax) (a b : Z) (s : ParseState),
    run events (set_counts a b s) = map_outcome (set_counts a b) (run events s).
Proof.
  induction events as [| e events IH]; intros a b s; cbn [run]; [reflexivity |].
  rewrite handle_set_counts.
  destruct (handle e s) as [s1 | |]; cbn [bind map_outcome]; auto.
Qed.

Lemma run_throw (events : list sax) :
  forall (s : ParseState) (w : string),
    run events s = Throw w ->
    exists (before : list sax) (e : sax) (after : list sax) (s1 : ParseState),
      events = (before ++ e :: after)%list /\
      run before s = Ok s1 /\
      is_child_start e = true /\
      capture s1 = EVENT_HEADER /\
      nup_unreadable s1 /\
      w = token_error (cur_event s1).
Proof.
  induction events as [| e events IH]; intros s w E; cbn [run] in E; [discriminate |].
  apply bind_Throw in E. destruct E as [E | (s1 & E1 & E)].
  - exists [], e, events, s. split; [reflexivity |]. split; [reflexivity |].
    destruct e as [name attrs | name | buf]; cbn [handle] in E.
    + unfold onStart in E. apply bind_Throw in E.
      destruct E as [E | (s1 & _ & E)];
        [| destruct (String.eqb name "wgt"); discriminate].
      cbn [is_child_start].
      destruct (String.eqb name "event"); [discriminate |].
      destruct (capture s =? EVENT_HEADER) eqn:Hc; [| discriminate].
      apply bind_Throw in E. destruct E as [E | (s1 & _ & E)]; [| discriminate].
      destruct (read_nup s) as [n |] eqn:Hn.
      * exfalso. exact (processEvent_no_throw_after_nup s n w Hn E).
      * split; [reflexivity |]. split; [apply Z.eqb_eq; exact Hc |].
        split; [apply nup_unreadable_iff; exact Hn |].
        unfold read_nup in Hn. unfold processEvent in E.
        destruct (consume_next (T := Z) (charBuf s)) as [[n |] sv0]; [discriminate |].
        inversion E. reflexivity.
    + exfalso. unfold onEnd in E. destruct (String.eqb name "event"); [discriminate |].
      destruct (String.eqb name "wgt"); [| discriminate].
      exact (processWeight_no_throw s w E).
    + discriminate.
  - apply IH in E.
    destruct E as (before & e' & after & s2 & -> & Hrun & Hc & Hcap & Hbad & ->).
    exists (e :: before), e', after, s2.
    split; [reflexivity |]. split; [cbn [run]; rewrite E1; exact Hrun |]. auto.
Qed.



(** ** The scan of pass 1 *)

Lemma count_weight_weights (line : string) (d : dims) :
  d_weights (count_weight line d) =
  d_weights d + (if contains "<weight " line then 1 else 0).
Proof. unfold count_weight. destruct (contains _ _); cbn; lia. Qed.

Lemma weight_lines_cons (line : string) (lines : list string) :
  weight_lines (line :: lines) =
  (if contains "<weight " line then 1 else 0) + weight_lines lines.
Proof.
  unfold weight_lines. rewrite filter_cons.
  destruct (contains "<weight " line);
    [rewrite decide_True by reflexivity | rewrite decide_False by discriminate];
    cbn [List.length]; lia.
Qed.

Lemma weight_lines_nonneg (lines : list string) : 0 <= weight_lines lines.
Proof. unfold weight_lines. lia. Qed.

Lemma scan_weights_fuel (fuel : nat) :
  forall (stale : bool) (lines : list string) (d d' : dims),
    (List.length lines <= fuel)%nat ->
    scan stale lines d = Ok d' ->
    d_weights d <= d_weights d' <= d_weights d + weight_lines lines.
Proof.
  induction fuel as [| fuel IH]; intros stale lines d d' Hlen E.
  - destruct lines; [| simpl in Hlen; lia]. inversion E; subst.
    unfold weight_lines. simpl. lia.
  - destruct lines as [| line rest];
      [inversion E; subst; unfold weight_lines; simpl; lia |].
    cbn [scan] in E. rewrite weight_lines_cons.
    destruct (contains "<event>" line) eqn:Hm.
    + destruct rest as [| header rest'].
      * bind_ok E. apply read_header_Ok in E0. destruct E0 as (n & _ & ->).
        inversion E; subst. rewrite count_weight_weights. cbn [d_weights].
        destruct stale.
        -- unfold weight_lines. cbn [filter List.length].
           destruct (contains "<weight " line); lia.
        -- change (contains "<weight " "") with false.
           unfold weight_lines. cbn. destruct (contains "<weight " line); lia.
      * bind_ok E. apply read_header_Ok in E0. destruct E0 as (n & _ & ->).
        apply IH in E; [| simpl in Hlen; lia].
        rewrite count_weight_weights in E. cbn [d_weights] in E.
        rewrite weight_lines_cons.
        pose proof (weight_lines_nonneg rest').
        destruct (contains "<weight " line), (contains "<weight " header); lia.
    + apply IH in E; [| simpl in Hlen; lia].
      rewrite count_weight_weights in E. cbn [d_weights] in E.
      destruct (contains "<weight " line); lia.
Qed.

Lemma scan_marker_free (stale : bool) (lines : list string) :
  forall d : dims,
    Forall (fun l => contains "<event>" l = false) lines ->
    scan stale lines d =
    Ok (mk_dims (d_events d) (d_weights d + weight_lines lines) (d_particles d)
          (d_line d + Z.of_nat (List.length lines))).
Proof.
  induction lines as [| line rest IH]; intros d Hall.
  - cbn [scan]. unfold weight_lines. cbn. destruct d; cbn. do 2 f_equal; lia.
  - inversion Hall as [| ? ? Hl Hrest]; subst. cbn [scan]. rewrite Hl.
    rewrite (IH _ Hrest). rewrite weight_lines_cons.
    rewrite count_weight_weights, count_weight_events, count_weight_particles,
      count_weight_line.
    cbn [d_events d_weights d_particles d_line List.length]. do 2 f_equal; lia.
Qed.

(** X14. Pass 1 counts weights by lines. The event count it returns is
    not negative, and the weight count lies between 0 and the number of
    lines that hold [<weight ]: a line counts once, however many
    declarations it holds. On a file without a line that holds [<event>]
    the scan returns no event, no particle, and exactly the number of
    these lines. *)
Theorem countDimensions_counts_weight_lines :
  forall (filename text : string),
    (forall n_events n_weights n_particles : Z,
       countDimensions filename (Some text) = Ok (n_events, n_weights, n_particles) ->
       0 <= n_events /\ 0 <= n_weights <= weight_lines (getlines text)) /\
    (Forall (fun l => contains "<event>" l = false) (getlines text) ->
     countDimensions filename (Some text) = Ok (0, weight_lines (getlines text), 0)).
Proof.
  intros filename text. split.
  - intros ne nw np E. unfold countDimensions in E. bind_ok E.
    inversion E; subst. clear E.
    pose proof (scan_weights_fuel _ _ _ _ _ (Nat.le_refl _) E0) as Hw.
    pose proof (scan_events_bound _ _ _ _ _ (Nat.le_refl _) E0) as He.
    cbn in Hw, He. lia.
  - intros Hall. unfold countDimensions. rewrite (scan_marker_free _ _ _ Hall).
    reflexivity.
Qed.

Lemma scan_throw_fuel (fuel : nat) :
  forall (stale : bool) (lines : list string) (d : dims) (w : string),
    (List.length lines <= fuel)%nat ->
    scan stale lines d = Throw w ->
    exists (k : nat) (marker : string),
      lines !! k = Some marker /\
      contains "<event>" marker = true /\
      w = scan_error (d_line d + Z.of_nat k + 2) /\
      istream_int (match lines !! S k with
                   | Some header => header
                   | None => if stale then marker else ""
                   end) = None.
Proof.
  induction fuel as [| fuel IH]; intros stale lines d w Hlen E.
  - destruct lines; [discriminate | simpl in Hlen; lia].
  - destruct lines as [| line rest]; [discriminate |].
    cbn [scan] in E.
    destruct (contains "<event>" line) eqn:Hm.
    + destruct rest as [| header rest'].
      * apply bind_Throw in E. destruct E as [E | (d1 & _ & E)]; [| discriminate].
        unfold read_header in E. cbn [d_line d_events d_weights d_particles] in E.
        destruct (istream_int (if stale then line else "")) as [n |] eqn:Hn.
        -- destruct (in_int _); discriminate.
        -- inversion E. exists 0%nat, line.
           split; [reflexivity |]. split; [exact Hm |].
           split; [f_equal; lia | exact Hn].
      * apply bind_Throw in E. destruct E as [E | (d1 & E1 & E)].
        -- unfold read_header in E. cbn [d_line d_events d_weights d_particles] in E.
           destruct (istream_int header) as [n |] eqn:Hn.
           ++ destruct (in_int _); discriminate.
           ++ inversion E. exists 0%nat, line.
              split; [reflexivity |]. split; [exact Hm |].
              split; [f_equal; lia | exact Hn].
        -- apply read_header_Ok in E1. destruct E1 as (n & _ & ->).
           apply IH in E; [| simpl in Hlen; lia].
           destruct E as (k & marker & Hk & Hmk & -> & Hbad).
           rewrite count_weight_line. cbn [d_line].
           exists (S (S k)), marker.
           split; [exact Hk |]. split; [exact Hmk |].
           split; [f_equal; lia | exact Hbad].
    + apply IH in E; [| simpl in Hlen; lia].
      destruct E as (k & marker & Hk & Hmk & -> & Hbad).
      rewrite count_weight_line. cbn [d_line].
      exists (S k), marker.
      split; [exact Hk |]. split; [exact Hmk |].
      split; [f_equal; lia | exact Hbad].
Qed.

(** X15. What the scan throws on a file it could open. The exception is
    the one of an unreadable particle count: some line [k] (counted from
    0) holds [<event>], the message names the line number [k + 2] of the
    line after it, and [operator>>] reads no integer from that line, or,
    when the file ends with the event-open line, from what the unchecked
    inner [std::getline] left in the string. *)
Theorem countDimensions_throws_after_marker :
  forall (filename text w : string),
    countDimensions filename (Some text) = Throw w ->
    exists (k : nat) (marker : string),
      getlines text !! k = Some marker /\
      contains "<event>" marker = true /\
      w = "Failed to parse particle count from event header on line: "
          ++ to_string (Z.of_nat k + 2) /\
      istream_int (match getlines text !! S k with
                   | Some header => header
                   | None => if open_ended text then marker else ""
                   end) = None.
Proof.
  intros filename text w E. unfold countDimensions in E.
  apply bind_Throw in E. destruct E as [E | (d & _ & E)]; [| discriminate].
  apply (scan_throw_fuel _ _ _ _ _ (Nat.le_refl _)) in E.
  destruct E as (k & marker & Hk & Hm & -> & Hbad).
  exists k, marker. repeat split; assumption.
Qed.

Lemma countDimensions_throws_after_marker_witness :
  countDimensions "events.lhe" (Some bad_header_text)
  = Throw "Failed to parse particle count from event header on line: 6" /\
  exists (k : nat) (marker : string),
    getlines bad_header_text !! k = Some marker /\
    contains "<event>" marker = true /\
    "Failed to parse particle count from event header on line: 6"
    = "Failed to parse particle count from event header on line: "
      ++ to_string (Z.of_nat k + 2) /\
    istream_int (match getlines bad_header_text !! S k with
                 | Some header => header
                 | None => if open_ended bad_header_text then marker else ""
                 end) = None.
Proof.
  assert (E : countDimensions "events.lhe" (Some bad_header_text)
              = Throw "Failed to parse particle count from event header on line: 6")
    by (vm_compute; reflexivity).
  split; [exact E |].
  exact (countDimensions_throws_after_marker "events.lhe" bad_header_text _ E).
Defined.

Lemma whole_marker_free (lines : list string) :
  Forall (fun l => contains "<event>" l = false) lines -> whole lines = true.
Proof.
  induction 1 as [| l lines Hl _ IH]; [reflexivity |].
  cbn [whole]. rewrite Hl. exact IH.
Qed.

Lemma weight_lines_app (a b : list string) :
  weight_lines (a ++ b) = weight_lines a + weight_lines b.
Proof.
  unfold weight_lines. rewrite filter_app, length_app. lia.
Qed.

Lemma scan_blocks (blocks : list line_block) :
  forall (stale : bool) (d : dims),
    Forall regular_block blocks ->
    0 <= d_particles d ->
    d_particles d + total (map block_count blocks) <= INT_MAX ->
    scan stale (concat (map block_lines blocks)) d =
    Ok (mk_dims (d_events d + Z.of_nat (List.length blocks))
          (d_weights d + weight_lines (concat (map block_tested blocks)))
          (d_particles d + total (map block_count blocks))
          (d_line d + Z.of_nat (List.length (concat (map block_lines blocks))))).
Proof.
  induction blocks as [| b blocks IH]; intros stale d Hreg Hp0 Hmax.
  - cbn. unfold weight_lines. cbn. destruct d; cbn. do 2 f_equal; lia.
  - apply Forall_cons in Hreg. destruct Hreg as [(Hm & (n & Hn & Hpos) & Hbody) Hreg].
    assert (Hcount : block_count b = n) by (unfold block_count; rewrite Hn; reflexivity).
    assert (Hrest : 0 <= total (map block_count blocks)).
    { clear - Hreg. induction Hreg as [| b' bs (_ & (n' & Hn' & Hpos') & _) _ IH'];
        [cbn; lia |].
      cbn [map total foldr]. fold (total (map block_count bs)).
      unfold block_count at 1. rewrite Hn'. cbn. lia. }
    cbn [map concat total foldr] in *. fold (total (map block_count blocks)) in *.
    rewrite Hcount in *.
    unfold block_lines at 1. cbn [app scan]. rewrite Hm.
    unfold read_header. cbn [d_events d_weights d_particles d_line]. rewrite Hn.
    assert (Hin : in_int (d_particles d + n) = true).
    { unfold in_int, INT_MIN, INT_MAX in *. apply andb_true_intro.
      split; apply Z.leb_le; lia. }
    rewrite Hin. cbn [bind].
    rewrite (scan_app _ stale (lb_body b) _ _ (Nat.le_refl _)
               (whole_marker_free _ Hbody)).
    rewrite (scan_marker_free stale (lb_body b) _ Hbody). cbn [bind].
    rewrite IH; [| exact Hreg | |];
      rewrite ?count_weight_particles; cbn [d_particles]; try lia.
    rewrite count_weight_events, count_weight_weights, count_weight_line.
    cbn [d_events d_weights d_particles d_line].
    rewrite weight_lines_app. change (block_tested b) with (lb_header b :: lb_body b).
    rewrite weight_lines_cons, length_app.
    change (block_lines b) with (lb_marker b :: lb_header b :: lb_body b).
    cbn [List.length]. do 2 f_equal; lia.
Qed.

(** X16. Pass 1 on regular blocks. Let the lines of the file be lines
    without [<event>] followed by event blocks: a line that holds
    [<event>], a line that starts with a particle count that is not
    negative, and lines without [<event>]. When the counts add up to no
    more than the largest [int], the scan returns the number of blocks,
    the number of lines that hold [<weight ] among the lines that are no
    event-open line, and the sum of the counts. *)
Theorem countDimensions_regular_blocks :
  forall (filename text : string) (before : list string) (blocks : list line_block),
    getlines text = (before ++ concat (map block_lines blocks))%list ->
    Forall (fun l => contains "<event>" l = false) before ->
    Forall regular_block blocks ->
    total (map block_count blocks) <= INT_MAX ->
    countDimensions filename (Some text) =
    Ok (Z.of_nat (List.length blocks),
        weight_lines (before ++ concat (map block_tested blocks)),
        total (map block_count blocks)).
Proof.
  intros filename text before blocks Hlines Hbefore Hreg Hmax.
  unfold countDimensions. rewrite Hlines.
  rewrite (scan_app _ _ before _ _ (Nat.le_refl _) (whole_marker_free _ Hbefore)).
  rewrite (scan_marker_free _ before _ Hbefore). cbn [bind].
  rewrite scan_blocks; [| exact Hreg | cbn; lia | cbn; lia].
  cbn [bind d_events d_weights d_particles]. rewrite weight_lines_app.
  do 2 f_equal.
Qed.

Lemma countDimensions_regular_blocks_witness :
  getlines two_events_text
  = (["<LesHouchesEvents>"; weight_line] ++ concat (map block_lines two_blocks))%list /\
  Forall regular_block two_blocks /\
  countDimensions "events.lhe" (Some two_events_text) =
  Ok (Z.of_nat (List.length two_blocks),
      weight_lines (["<LesHouchesEvents>"; weight_line]
                    ++ concat (map block_tested two_blocks)),
      total (map block_count two_blocks)) /\
  countDimensions "events.lhe" (Some two_events_text) = Ok (2, 1, 3).
Proof.
  assert (Hl : getlines two_events_text
               = (["<LesHouchesEvents>"; weight_line]
                  ++ concat (map block_lines two_blocks))%list)
    by (vm_compute; reflexivity).
  assert (Hreg : Forall regular_block two_blocks).
  { unfold two_blocks.
    constructor; [| constructor; [| constructor]];
      (split; [reflexivity |]); (split; [| vm_compute; repeat constructor]).
    - exists 1. split; [vm_compute; reflexivity | lia].
    - exists 2. split; [vm_compute; reflexivity | lia]. }
  split; [exact Hl |]. split; [exact Hreg |].
  split; [| vm_compute; reflexivity].
  apply (countDimensions_regular_blocks "events.lhe" two_events_text
           ["<LesHouchesEvents>"; weight_line] two_blocks Hl); [| exact Hreg |].
  - repeat constructor.
  - vm_compute. discriminate.
Defined.

(** ** The two readers of the particle count *)

Lemma strip_minus_cons (c : ascii) (s : string) :
  strip_minus (String c s) = if Ascii.eqb c "-" then (true, s) else (false, String c s).
Proof. destruct c as [[] [] [] [] [] [] [] []]; reflexivity. Qed.

Lemma digit_facts (c : ascii) (d : Z) :
  digit c = Some d ->
  isspace c = false /\ Ascii.eqb c "-" = false /\ Ascii.eqb c "+" = false /\
  mem_char c delims = false.
Proof.
  destruct c as [[] [] [] [] [] [] [] []]; vm_compute; intros E;
    first [discriminate | repeat split].
Qed.

Lemma delim_facts (c : ascii) :
  mem_char c delims = true -> isspace c = true /\ digit c = None.
Proof.
  destruct c as [[] [] [] [] [] [] [] []]; vm_compute; intros E;
    first [discriminate | repeat split].
Qed.

Lemma span_digits_word (r : string) :
  fst (span_digits (word r)) = fst (span_digits r).
Proof.
  induction r as [| x r IH]; [reflexivity |].
  cbn [word]. destruct (mem_char x delims) eqn:Hx.
  - apply delim_facts in Hx. destruct Hx as [_ Hx]. cbn [span_digits]. rewrite Hx.
    reflexivity.
  - cbn [span_digits]. destruct (digit x); [| reflexivity].
    destruct (span_digits (word r)) as [ds1 r1], (span_digits r) as [ds2 r2].
    cbn [fst] in *. congruence.
Qed.

Lemma skipws_delims (sv : string) (b : nat) :
  find_first_not_of delims sv = Some b -> skipws sv = skipws (remove_prefix b sv).
Proof.
  revert b. induction sv as [| c sv IH]; intros b; cbn [find_first_not_of];
    [discriminate |].
  destruct (mem_char c delims) eqn:Hc.
  - destruct (find_first_not_of delims sv) as [k |]; [| discriminate].
    intros E. inversion E; subst. cbn [remove_prefix skipws].
    apply delim_facts in Hc. destruct Hc as [-> _]. apply IH. reflexivity.
  - intros E. inversion E; subst. reflexivity.
Qed.

Lemma first_not_of_head (sv : string) (b : nat) :
  find_first_not_of delims sv = Some b ->
  exists (c : ascii) (r : string),
    remove_prefix b sv = String c r /\ mem_char c delims = false.
Proof.
  revert b. induction sv as [| c sv IH]; intros b; cbn [find_first_not_of];
    [discriminate |].
  destruct (mem_char c delims) eqn:Hc.
  - destruct (find_first_not_of delims sv) as [k |]; [| discriminate].
    intros E. inversion E; subst. cbn [remove_prefix]. apply IH. reflexivity.
  - intros E. inversion E; subst. cbn [remove_prefix]. eauto.
Qed.

Lemma istream_int_sign (c : ascii) (r : string) :
  isspace c = false ->
  istream_int (String c r) =
  let (neg, body) :=
    if Ascii.eqb c "-" then (true, r)
    else if Ascii.eqb c "+" then (false, r) else (false, String c r) in
  match span_digits body with
  | ([], _) => None
  | (ds, _) =>
      let v := if neg then - number ds else number ds in
      if in_int v then Some v else None
  end.
Proof.
  intros Hc. unfold istream_int. cbn [skipws]. rewrite Hc.
  destruct c as [[] [] [] [] [] [] [] []]; reflexivity.
Qed.

Lemma from_chars_int_istream (c : ascii) (r : string) (v : Z) :
  mem_char c delims = false ->
  from_chars_int (word (String c r)) = Some v ->
  istream_int (String c r) = Some v.
Proof.
  intros Hc. cbn [word]. rewrite Hc. unfold from_chars_int.
  rewrite strip_minus_cons.
  destruct (Ascii.eqb c "-") eqn:Hm.
  - apply Ascii.eqb_eq in Hm. subst c.
    rewrite istream_int_sign by reflexivity. cbn [Ascii.eqb Bool.eqb].
    pose proof (span_digits_word r) as Hw.
    destruct (span_digits (word r)) as [ds1 r1], (span_digits r) as [ds2 r2].
    cbn [fst] in Hw. subst ds2. auto.
  - pose proof (span_digits_word (String c r)) as Hw. cbn [word] in Hw.
    rewrite Hc in Hw.
    destruct (span_digits (String c (word r))) as [ds1 r1] eqn:E1.
    destruct ds1 as [| d ds1]; [discriminate |].
    assert (Hd : exists d', digit c = Some d').
    { cbn [span_digits] in E1. destruct (digit c); [eauto | discriminate]. }
    destruct Hd as [d' Hd]. apply digit_facts in Hd.
    destruct Hd as (Hsp & _ & Hplus & _).
    rewrite istream_int_sign by exact Hsp. rewrite Hm, Hplus.
    destruct (span_digits (String c r)) as [ds2 r2]. cbn [fst] in Hw. subst ds2. auto.
Qed.

(** X17. Pass 1 reads the particle count with [operator>>], pass 2 with
    [std::from_chars] on the first token. Whenever pass 2 reads a count
    from a text, pass 1 reads the same count from it. *)
Theorem count_read_by_both_passes :
  forall (sv : string) (v : Z),
    fst (consume_next (T := Z) sv) = Some v -> istream_int sv = Some v.
Proof.
  intros sv v. unfold consume_next.
  destruct (find_first_not_of delims sv) as [b |] eqn:Eb; [| discriminate].
  cbn [fst]. rewrite word_substr0. intros E.
  destruct (first_not_of_head sv b Eb) as (c & r & Hr & Hc).
  rewrite Hr in E. apply from_chars_int_istream in E; [| exact Hc].
  unfold istream_int in *. rewrite (skipws_delims sv b Eb), Hr. exact E.
Qed.

Lemma count_read_by_both_passes_witness :
  fst (consume_next (T := Z) "  12abc 1 1.0") = Some 12 /\
  istream_int "  12abc 1 1.0" = Some 12.
Proof.
  assert (H : fst (consume_next (T := Z) "  12abc 1 1.0") = Some 12)
    by (vm_compute; reflexivity).
  split; [exact H |].
  exact (count_read_by_both_passes _ 12 H).
Defined.

(** X18. The converse fails on a plus sign. Pass 1 reads a header line
    that starts with a plus sign and a digit as it reads the line without
    the sign; [processEvent] throws on every text whose first token starts
    with a plus sign, because [std::from_chars] accepts none. *)
Theorem plus_sign_splits_passes :
  (forall (c : ascii) (r : string) (d : Z) (dm : dims),
     digit c = Some d ->
     read_header (String "+" (String c r)) dm = read_header (String c r) dm) /\
  (forall (s : ParseState) (t : string) (ts : list string),
     tokens (charBuf s) = String "+" t :: ts ->
     processEvent s =
     Throw ("Failed to parse particle count from event number: "
            ++ to_string (cur_event s))).
Proof.
  split.
  - intros c r d dm Hd. apply digit_facts in Hd.
    destruct Hd as (Hsp & Hminus & Hplus & Hdel).
    unfold read_header. rewrite (istream_int_sign "+") by reflexivity.
    rewrite (istream_int_sign c) by exact Hsp. rewrite Hminus, Hplus. reflexivity.
  - intros s t ts Htok.
    assert (Hn : read_nup s = None).
    { rewrite read_nup_tokens, Htok. unfold from_chars_int.
      rewrite strip_minus_cons. reflexivity. }
    unfold read_nup in Hn. unfold processEvent.
    destruct (consume_next (T := Z) (charBuf s)) as [[n |] sv0];
      [discriminate | reflexivity].
Qed.

(** ** The outcomes of [parseLHE] *)

Lemma array_t_in {A : Type} (zero : A) (r c : Z) :
  0 <= r -> 0 <= c ->
  array_t zero r c = Ok (mk_array r c (replicate (Z.to_nat (r * c)) zero)).
Proof.
  intros Hr Hc. unfold array_t.
  destruct (Z.ltb_spec r 0); [lia |]. destruct (Z.ltb_spec c 0); [lia |]. reflexivity.
Qed.

Lemma array_t_throw {A : Type} (zero : A) (r c : Z) (w : string) :
  array_t zero r c = Throw w ->
  w = "negative dimensions are not allowed" /\ (r < 0 \/ c < 0).
Proof.
  unfold array_t. destruct (Z.ltb_spec r 0); cbn [orb].
  - intros E. inversion E. split; [reflexivity | lia].
  - destruct (Z.ltb_spec c 0); intros E; inversion E. split; [reflexivity | lia].
Qed.

Lemma countDimensions_nonneg (filename : string) (file : option string) (ne nw np : Z) :
  countDimensions filename file = Ok (ne, nw, np) -> 0 <= ne /\ 0 <= nw.
Proof.
  unfold countDimensions. destruct file as [text |]; [| discriminate].
  intros E. bind_ok E. inversion E; subst. clear E.
  pose proof (scan_weights_fuel _ _ _ _ _ (Nat.le_refl _) E0) as Hw.
  pose proof (scan_events_bound _ _ _ _ _ (Nat.le_refl _) E0) as He.
  cbn in Hw, He. lia.
Qed.

(** X19. On a file without a line that holds the text [<event>],
    [parseLHE] throws the empty-input error whatever else the file holds;
    expat is not run. *)
Theorem parseLHE_without_event_line :
  forall (XML_Parse : string -> expat_result) (filename text : string),
    Forall (fun l => contains "<event>" l = false) (getlines text) ->
    parseLHE XML_Parse filename (Some text) = Throw empty_error.
Proof.
  intros XML_Parse filename text Hall. unfold parseLHE, countDimensions.
  rewrite (scan_marker_free _ _ _ Hall). reflexivity.
Qed.

Lemma parseLHE_without_event_line_witness :
  Forall (fun l => contains "<event>" l = false) (getlines no_event_text) /\
  parseLHE (fun _ => mk_expat [] None) "events.lhe" (Some no_event_text)
  = Throw empty_error.
Proof.
  assert (H : Forall (fun l => contains "<event>" l = false) (getlines no_event_text))
    by (vm_compute; repeat constructor).
  split; [exact H |].
  exact (parseLHE_without_event_line _ "events.lhe" no_event_text H).
Defined.

Lemma scan_blocks_signed (blocks : list line_block) :
  forall (stale : bool) (d : dims),
    Forall readable_block blocks ->
    (forall k : nat,
       in_int (d_particles d + total (take k (map block_count blocks))) = true) ->
    scan stale (concat (map block_lines blocks)) d =
    Ok (mk_dims (d_events d + Z.of_nat (List.length blocks))
          (d_weights d + weight_lines (concat (map block_tested blocks)))
          (d_particles d + total (map block_count blocks))
          (d_line d + Z.of_nat (List.length (concat (map block_lines blocks))))).
Proof.
  induction blocks as [| b blocks IH]; intros stale d Hread Hsums.
  - cbn. unfold weight_lines. cbn. destruct d; cbn. do 2 f_equal; lia.
  - apply Forall_cons in Hread. destruct Hread as [(Hm & (n & Hn) & Hbody) Hread].
    assert (Hcount : block_count b = n) by (unfold block_count; rewrite Hn; reflexivity).
    cbn [map concat total foldr] in *. fold (total (map block_count blocks)) in *.
    rewrite Hcount in *.
    unfold block_lines at 1. cbn [app scan]. rewrite Hm.
    unfold read_header. cbn [d_events d_weights d_particles d_line]. rewrite Hn.
    assert (Hin : in_int (d_particles d + n) = true).
    { specialize (Hsums 1%nat). cbn [take total foldr] in Hsums.
      rewrite take_0 in Hsums. cbn [foldr] in Hsums.
      replace (d_particles d + (n + 0)) with (d_particles d + n) in Hsums by lia.
      exact Hsums. }
    rewrite Hin. cbn [bind].
    rewrite (scan_app _ stale (lb_body b) _ _ (Nat.le_refl _)
               (whole_marker_free _ Hbody)).
    rewrite (scan_marker_free stale (lb_body b) _ Hbody). cbn [bind].
    rewrite IH; [| exact Hread |].
    + rewrite count_weight_events, count_weight_weights, count_weight_line,
        count_weight_particles.
      cbn [d_events d_weights d_particles d_line].
      rewrite weight_lines_app. change (block_tested b) with (lb_header b :: lb_body b).
      rewrite weight_lines_cons, length_app.
      change (block_lines b) with (lb_marker b :: lb_header b :: lb_body b).
      cbn [List.length]. do 2 f_equal; lia.
    + intros k. cbn [d_particles]. rewrite count_weight_particles. cbn [d_particles].
      specialize (Hsums (S k)). cbn [take total foldr] in Hsums.
      fold (total (take k (map block_count blocks))) in Hsums.
      replace (d_particles d + n + total (take k (map block_count blocks)))
        with (d_particles d + (n + total (take k (map block_count blocks)))) by lia.
      exact Hsums.
Qed.

(** X20. Pass 1 adds up the counts it reads with their signs. Let the
    lines of the file be lines without [<event>] followed by event blocks
    whose second lines start with integers of either sign, every sum of
    the first counts being an [int]. The scan returns the sum of the
    counts as the number of particles. When the counts cancel, [parseLHE]
    throws the empty-input error, whatever number of events and weights
    the file holds; expat is not run. *)
Theorem countDimensions_signed_total :
  forall (filename text : string) (before : list string) (blocks : list line_block),
    getlines text = (before ++ concat (map block_lines blocks))%list ->
    Forall (fun l => contains "<event>" l = false) before ->
    Forall readable_block blocks ->
    sums_in_int (map block_count blocks) ->
    countDimensions filename (Some text) =
    Ok (Z.of_nat (List.length blocks),
        weight_lines (before ++ concat (map block_tested blocks)),
        total (map block_count blocks)) /\
    (total (map block_count blocks) = 0 ->
     forall XML_Parse : string -> expat_result,
       parseLHE XML_Parse filename (Some text)
       = Throw "Found no events, weights, or particles.").
Proof.
  intros filename text before blocks Hlines Hbefore Hread Hsums.
  assert (Hscan : countDimensions filename (Some text) =
                  Ok (Z.of_nat (List.length blocks),
                      weight_lines (before ++ concat (map block_tested blocks)),
                      total (map block_count blocks))).
  { unfold countDimensions. rewrite Hlines.
    rewrite (scan_app _ _ before _ _ (Nat.le_refl _) (whole_marker_free _ Hbefore)).
    rewrite (scan_marker_free _ before _ Hbefore). cbn [bind].
    rewrite scan_blocks_signed; [| exact Hread | intros k; cbn; apply Hsums].
    cbn [bind d_events d_weights d_particles]. rewrite weight_lines_app.
    do 2 f_equal. }
  split; [exact Hscan |].
  intros Hzero XML_Parse. unfold parseLHE. rewrite Hscan, Hzero. cbn [bind].
  rewrite Z.eqb_refl, !orb_true_r. reflexivity.
Qed.

Lemma countDimensions_signed_total_witness :
  getlines cancelling_text
  = (["<LesHouchesEvents>"; weight_line]
     ++ concat (map block_lines cancelling_blocks))%list /\
  Forall readable_block cancelling_blocks /\
  map block_count cancelling_blocks = [1; -1] /\
  countDimensions "events.lhe" (Some cancelling_text) = Ok (2, 1, 0) /\
  parseLHE (fun _ => mk_expat [] None) "events.lhe" (Some cancelling_text)
  = Throw "Found no events, weights, or particles.".
Proof.
  assert (Hl : getlines cancelling_text
               = (["<LesHouchesEvents>"; weight_line]
                  ++ concat (map block_lines cancelling_blocks))%list)
    by (vm_compute; reflexivity).
  assert (Hread : Forall readable_block cancelling_blocks).
  { unfold cancelling_blocks.
    constructor; [| constructor; [| constructor]];
      (split; [reflexivity |]); (split; [| vm_compute; repeat constructor]).
    - exists 1. vm_compute. reflexivity.
    - exists (-1). vm_compute. reflexivity. }
  assert (Hc : map block_count cancelling_blocks = [1; -1]) by (vm_compute; reflexivity).
  assert (Hsums : sums_in_int (map block_count cancelling_blocks)).
  { rewrite Hc. intros [| [| [| k]]]; vm_compute; reflexivity. }
  destruct (countDimensions_signed_total "events.lhe" cancelling_text
              ["<LesHouchesEvents>"; weight_line] cancelling_blocks Hl
              ltac:(repeat constructor) Hread Hsums) as [Hscan Hthrow].
  split; [exact Hl |]. split; [exact Hread |]. split; [exact Hc |].
  split.
  - rewrite Hscan. vm_compute. reflexivity.
  - apply Hthrow. rewrite Hc. reflexivity.
Defined.

(** X21. The exceptions of [parseLHE]. Whatever the file and whatever
    expat reports, an exception of [parseLHE] carries one of six
    messages: the file cannot be opened; pass 1 found no particle count
    on some line; one of the three counts of pass 1 is zero; the array
    host refused a negative size; pass 2 found no particle count in the
    text of some event; expat reported an error, in which case the message
    gives the line and the text expat gave. *)
Theorem parseLHE_throws_only :
  forall (XML_Parse : string -> expat_result) (filename : string)
         (file : option string) (w : string),
    parseLHE XML_Parse filename file = Throw w ->
    w = "Cannot open file: " ++ filename \/
    (exists n : Z,
       w = "Failed to parse particle count from event header on line: " ++ to_string n) \/
    w = "Found no events, weights, or particles." \/
    w = "negative dimensions are not allowed" \/
    (exists k : Z,
       w = "Failed to parse particle count from event number: " ++ to_string k) \/
    (exists (text : string) (line : Z) (msg : string),
       file = Some text /\
       error (XML_Parse text) = Some (line, msg) /\
       w = "Expat error at line " ++ to_string line ++ ": " ++ msg).
Proof.
  intros XML_Parse filename file w E. unfold parseLHE in E.
  apply bind_Throw in E. destruct E as [E | (((ne & nw) & np) & Hscan & E)].
  { unfold countDimensions in E. destruct file as [text |].
    - apply bind_Throw in E. destruct E as [E | (d & _ & E)]; [| discriminate].
      apply (scan_throw_fuel _ _ _ _ _ (Nat.le_refl _)) in E.
      destruct E as (k & marker & _ & _ & -> & _). right. left. eauto.
    - inversion E. left. reflexivity. }
  destruct ((ne =? 0) || (nw =? 0) || (np =? 0)).
  { inversion E. right. right. left. reflexivity. }
  apply bind_Throw in E. destruct E as [E | (f_evt & _ & E)].
  { apply array_t_throw in E. destruct E as [-> _]. do 3 right. left. reflexivity. }
  apply bind_Throw in E. destruct E as [E | (f_ptc & _ & E)].
  { apply array_t_throw in E. destruct E as [-> _]. do 3 right. left. reflexivity. }
  apply bind_Throw in E. destruct E as [E | (i_evt & _ & E)].
  { apply array_t_throw in E. destruct E as [-> _]. do 3 right. left. reflexivity. }
  apply bind_Throw in E. destruct E as [E | (i_ptc & _ & E)].
  { apply array_t_throw in E. destruct E as [-> _]. do 3 right. left. reflexivity. }
  destruct file as [text |]; [| discriminate].
  apply bind_Throw in E. destruct E as [E | (s & _ & E)].
  { apply run_throw in E. destruct E as (_ & _ & _ & s1 & _ & _ & _ & _ & _ & ->).
    do 4 right. left. eauto. }
  destruct (error (XML_Parse text)) as [[line msg] |] eqn:Herr; [| discriminate].
  inversion E. do 5 right. exists text, line, msg. auto.
Qed.

Lemma parseLHE_throws_only_witness :
  parseLHE (fun _ => mk_expat [] None) "events.lhe" (Some bad_header_text)
  = Throw "Failed to parse particle count from event header on line: 6" /\
  ("Failed to parse particle count from event header on line: 6"
   = "Cannot open file: " ++ "events.lhe" \/
   (exists n : Z,
      "Failed to parse particle count from event header on line: 6"
      = "Failed to parse particle count from event header on line: " ++ to_string n) \/
   "Failed to parse particle count from event header on line: 6"
   = "Found no events, weights, or particles." \/
   "Failed to parse particle count from event header on line: 6"
   = "negative dimensions are not allowed" \/
   (exists k : Z,
      "Failed to parse particle count from event header on line: 6"
      = "Failed to parse particle count from event number: " ++ to_string k) \/
   (exists (text : string) (line : Z) (msg : string),
      Some bad_header_text = Some text /\
      error ((fun _ => mk_expat [] None) text) = Some (line, msg) /\
      "Failed to parse particle count from event header on line: 6"
      = "Expat error at line " ++ to_string line ++ ": " ++ msg)).
Proof.
  assert (E : parseLHE (fun _ => mk_expat [] None) "events.lhe" (Some bad_header_text)
              = Throw "Failed to parse particle count from event header on line: 6")
    by (vm_compute; reflexivity).
  split; [exact E |].
  exact (parseLHE_throws_only _ _ _ _ E).
Defined.

Lemma parseLHE_returns (XML_Parse : string -> expat_result) (filename text : string)
    (ne nw np : Z) (s : ParseState) :
  countDimensions filename (Some text) = Ok (ne, nw, np) ->
  0 < ne -> 0 < nw -> 0 < np ->
  run (callbacks (XML_Parse text)) (fresh ne nw np) = Ok s ->
  error (XML_Parse text) = None ->
  parseLHE XML_Parse filename (Some text) =
  Ok (mk_array ne 2 (ievt_arr s), mk_array ne (4 + nw) (fevt_arr s),
      mk_array np 7 (iptc_arr s), mk_array np 7 (fptc_arr s)).
Proof.
  intros Hscan He Hw Hp Hrun Herr.
  unfold parseLHE. rewrite Hscan. cbn [bind].
  destruct (Z.eqb_spec ne 0); [lia |].
  destruct (Z.eqb_spec nw 0); [lia |].
  destruct (Z.eqb_spec np 0); [lia |]. cbn [orb].
  rewrite !array_t_in by lia. cbn [bind data nrows ncols].
  unfold fresh in Hrun. rewrite Hrun. cbn [bind]. rewrite Herr. reflexivity.
Qed.

(** X22. When [parseLHE] returns. On a file it can open, [parseLHE]
    returns arrays exactly when pass 1 returns three positive counts, the
    callbacks expat makes run to their end on zeroed buffers of these
    sizes, and expat reports no error; the arrays are then the four
    buffers as the callbacks left them, in the shapes of pass 1. *)
Theorem parseLHE_returns_iff :
  forall (XML_Parse : string -> expat_result) (filename text : string)
         (out : lhe_arrays),
    parseLHE XML_Parse filename (Some text) = Ok out <->
    exists (n_events n_weights n_particles : Z) (s : ParseState),
      countDimensions filename (Some text) = Ok (n_events, n_weights, n_particles) /\
      0 < n_events /\ 0 < n_weights /\ 0 < n_particles /\
      run (callbacks (XML_Parse text)) (fresh n_events n_weights n_particles) = Ok s /\
      error (XML_Parse text) = None /\
      out = (mk_array n_events 2 (ievt_arr s),
             mk_array n_events (4 + n_weights) (fevt_arr s),
             mk_array n_particles 7 (iptc_arr s),
             mk_array n_particles 7 (fptc_arr s)).
Proof.
  intros XML_Parse filename text out. split.
  - intros E. apply parseLHE_Ok in E.
    destruct E as (text' & ne & nw & np & s & Ht & Hscan & He & Hw & Hp & Hrun & Herr & ->).
    inversion Ht; subst text'.
    destruct (countDimensions_nonneg _ _ _ _ _ Hscan) as [He0 Hw0].
    exists ne, nw, np, s. repeat split; try assumption; lia.
  - intros (ne & nw & np & s & Hscan & He & Hw & Hp & Hrun & Herr & ->).
    apply parseLHE_returns; assumption.
Qed.

(** ** The read loop *)

Lemma CHUNK_pos : (0 < CHUNK)%nat.
Proof. unfold CHUNK. apply Nat2Z.inj_lt. rewrite Z2Nat.id; lia. Qed.

Lemma length_prefix_of (n : nat) (sv : string) :
  String.length (prefix_of n sv) = Nat.min n (String.length sv).
Proof.
  revert sv. induction n as [| n IH]; intros sv; [reflexivity |].
  destruct sv as [| c sv]; [reflexivity |]. cbn [prefix_of String.length].
  rewrite IH. lia.
Qed.

Lemma prefix_of_all (n : nat) (sv : string) :
  (String.length sv <= n)%nat -> prefix_of n sv = sv.
Proof.
  revert sv. induction n as [| n IH]; intros sv H.
  - destruct sv; [reflexivity | simpl in H; lia].
  - destruct sv as [| c sv]; [reflexivity |]. cbn [prefix_of]. rewrite IH; [reflexivity |].
    simpl in H. lia.
Qed.

Lemma read_loop_step (n fuel : nat) (rest : string) :
  (0 < n)%nat ->
  read_loop n (S fuel) rest =
  if (n <=? String.length rest)%nat
  then (prefix_of n rest, false) :: read_loop n fuel (remove_prefix n rest)
  else if (0 <? String.length rest)%nat then [(rest, true)] else [].
Proof.
  intros Hn. cbn [read_loop]. rewrite length_prefix_of.
  destruct (Nat.leb_spec n (String.length rest)).
  - cbn [orb negb]. reflexivity.
  - cbn [orb negb]. rewrite Nat.min_r by lia.
    rewrite prefix_of_all by lia. reflexivity.
Qed.


Lemma read_loop_spec (n : nat) :
  (0 < n)%nat ->
  forall (fuel : nat) (rest : string),
    (String.length rest < fuel)%nat ->
    joined (read_loop n fuel rest) = rest /\
    Forall (fun c => (0 < String.length (fst c) <= n)%nat /\
                     snd c = (String.length (fst c) <? n)%nat)
           (read_loop n fuel rest) /\
    (Exists (fun c => snd c = true) (read_loop n fuel rest) <->
     (String.length rest mod n <> 0)%nat) /\
    (forall (init : list (string * bool)) (c : string * bool) (tl : list (string * bool)),
       read_loop n fuel rest = (init ++ c :: tl)%list ->
       tl <> [] -> snd c = false).
Proof.
  intros Hn. induction fuel as [| fuel IH]; intros rest Hf; [lia |].
  rewrite !read_loop_step by exact Hn.
  destruct (Nat.leb_spec n (String.length rest)) as [Hle | Hlt].
  - assert (Hlen : String.length (remove_prefix n rest) = (String.length rest - n)%nat)
      by apply length_remove_prefix.
    destruct (IH (remove_prefix n rest) ltac:(lia)) as (Hj & Hall & Hex & Hlast).
    assert (Hmod : (String.length rest mod n =
                    String.length (remove_prefix n rest) mod n)%nat).
    { rewrite Hlen.
      replace (String.length rest) with ((String.length rest - n) + 1 * n)%nat at 1
        by lia.
      apply Nat.Div0.mod_add. }
    split; [| split; [| split]].
    + cbn [joined foldr fst]. fold (joined (read_loop n fuel (remove_prefix n rest))).
      rewrite Hj. apply prefix_remove.
    + constructor; [| exact Hall]. cbn [fst snd]. rewrite length_prefix_of.
      rewrite Nat.min_l by lia. rewrite Nat.ltb_irrefl. split; [lia | reflexivity].
    + rewrite Exists_cons. cbn [snd]. rewrite Hmod, <- Hex.
      split; [intros [H | H]; [discriminate | exact H] | auto].
    + intros init c tl E Htl. destruct init as [| c0 init].
      * cbn [app] in E. inversion E. reflexivity.
      * cbn [app] in E. inversion E. eapply Hlast; eassumption.
  - destruct (Nat.ltb_spec 0 (String.length rest)) as [Hpos | Hzero].
    + split; [| split; [| split]].
      * cbn. apply append_nil_r.
      * constructor; [| constructor]. cbn [fst snd].
        destruct (Nat.ltb_spec (String.length rest) n); [| lia]. split; [lia | reflexivity].
      * rewrite Nat.mod_small by lia. split; [lia |].
        intros _. constructor. reflexivity.
      * intros init c tl E Htl. destruct init as [| c0 [| c1 init]];
          cbn [app] in E; inversion E; subst; contradiction.
    + assert (rest = "") by (destruct rest; [reflexivity | simpl in Hzero; lia]).
      subst rest. split; [reflexivity |]. split; [constructor |].
      split.
      * rewrite Nat.Div0.mod_0_l. split; [intros H; inversion H | lia].
      * intros init c tl E. destruct init; discriminate.
Qed.



Lemma feed_no_final (parser : Type)
    (XML_Parse : parser -> string -> bool -> parser * expat_result)
    (calls : list (string * bool)) :
  forall p : parser,
    (forall (p : parser) (chunk : string), error (snd (XML_Parse p chunk false)) = None) ->
    Forall (fun c => snd c = false) calls ->
    error (feed parser XML_Parse p calls) = None.
Proof.
  induction calls as [| [chunk isFinal] calls IH]; intros p Hok Hall; [reflexivity |].
  apply Forall_cons in Hall. destruct Hall as [Hc Hall]. cbn [snd] in Hc. subst isFinal.
  cbn [feed]. pose proof (Hok p chunk) as Hr.
  destruct (XML_Parse p chunk false) as [p' r]. cbn [snd] in Hr. rewrite Hr.
  cbn [error]. apply IH; assumption.
Qed.

Lemma feed_agree (parser : Type)
    (XML_Parse1 XML_Parse2 : parser -> string -> bool -> parser * expat_result)
    (calls : list (string * bool)) :
  forall p : parser,
    (forall (p : parser) (chunk : string),
       XML_Parse1 p chunk false = XML_Parse2 p chunk false) ->
    Forall (fun c => snd c = false) calls ->
    feed parser XML_Parse1 p calls = feed parser XML_Parse2 p calls.
Proof.
  induction calls as [| [chunk isFinal] calls IH]; intros p Hsame Hall; [reflexivity |].
  apply Forall_cons in Hall. destruct Hall as [Hc Hall]. cbn [snd] in Hc. subst isFinal.
  cbn [feed]. rewrite Hsame.
  destruct (XML_Parse2 p chunk false) as [p' r].
  destruct (error r); [reflexivity |]. rewrite (IH p' Hsame Hall). reflexivity.
Qed.

Lemma parseLHE_ext (XML_Parse1 XML_Parse2 : string -> expat_result)
    (filename text : string) :
  XML_Parse1 text = XML_Parse2 text ->
  parseLHE XML_Parse1 filename (Some text) = parseLHE XML_Parse2 filename (Some text).
Proof.
  intros H. unfold parseLHE.
  destruct (countDimensions filename (Some text)) as [[[ne nw] np] | |];
    cbn [bind]; try reflexivity.
  destruct ((ne =? 0) || (nw =? 0) || (np =? 0)); [reflexivity |].
  destruct (array_t dzero ne (4 + nw)); cbn [bind]; try reflexivity.
  destruct (array_t dzero np 7); cbn [bind]; try reflexivity.
  destruct (array_t 0 ne 2); cbn [bind]; try reflexivity.
  destruct (array_t 0 np 7); cbn [bind]; try reflexivity.
  rewrite H. reflexivity.
Qed.

(** X25. On a file of a whole number of chunks expat is never told that
    the document has ended: every call of the loop has [isFinal] unset. If
    expat accepts every piece that is not final, no error is reported for
    such a file; and what expat would do at a final call makes no
    difference to what the loop gets out of it, nor to what [parseLHE]
    returns or throws. *)
Theorem parse_chunks_never_final :
  forall (parser : Type) (XML_ParserCreate : parser) (text : string),
    (String.length text mod CHUNK = 0)%nat ->
    Forall (fun c => snd c = false) (read_calls text) /\
    (forall XML_Parse : parser -> string -> bool -> parser * expat_result,
       (forall (p : parser) (chunk : string),
          error (snd (XML_Parse p chunk false)) = None) ->
       error (parse_chunks parser XML_ParserCreate XML_Parse text) = None) /\
    (forall (XML_Parse1 XML_Parse2 : parser -> string -> bool -> parser * expat_result)
            (filename : string),
       (forall (p : parser) (chunk : string),
          XML_Parse1 p chunk false = XML_Parse2 p chunk false) ->
       parse_chunks parser XML_ParserCreate XML_Parse1 text
       = parse_chunks parser XML_ParserCreate XML_Parse2 text /\
       parseLHE (parse_chunks parser XML_ParserCreate XML_Parse1) filename (Some text)
       = parseLHE (parse_chunks parser XML_ParserCreate XML_Parse2) filename (Some text)).
Proof.
  intros parser p0 text Hmod.
  assert (Hall : Forall (fun c => snd c = false)
                   (read_loop CHUNK (S (String.length text)) text)).
  { apply Forall_forall. intros c Hc.
    destruct (snd c) eqn:Hs; [| reflexivity]. exfalso.
    pose proof CHUNK_pos as Hn.
    destruct (read_loop_spec CHUNK Hn (S (String.length text)) text ltac:(lia))
      as (_ & _ & Hex & _).
    apply (proj1 Hex); [| exact Hmod].
    apply Exists_exists. exists c. split; [exact Hc | exact Hs]. }
  split; [unfold read_calls; exact Hall |]. split.
  - intros XML_Parse Hok. unfold parse_chunks, read_calls.
    apply feed_no_final; assumption.
  - intros XML_Parse1 XML_Parse2 filename Hsame.
    assert (E : parse_chunks parser p0 XML_Parse1 text
                = parse_chunks parser p0 XML_Parse2 text).
    { unfold parse_chunks, read_calls. apply feed_agree; assumption. }
    split; [exact E |]. apply parseLHE_ext. exact E.
Qed.

Lemma parse_chunks_never_final_witness :
  (String.length one_chunk_text mod CHUNK = 0)%nat /\
  Forall (fun c => snd c = false) (read_calls one_chunk_text) /\
  error (parse_chunks unit tt silent_expat one_chunk_text) = None /\
  parseLHE (parse_chunks unit tt silent_expat) "events.lhe" (Some one_chunk_text)
  = parseLHE (parse_chunks unit tt (fun p _ _ => (p, mk_expat [] None)))
      "events.lhe" (Some one_chunk_text).
Proof.
  assert (H : (String.length one_chunk_text mod CHUNK = 0)%nat)
    by (vm_compute; reflexivity).
  destruct (parse_chunks_never_final unit tt one_chunk_text H)
    as (Hcalls & Herr & Hsame).
  split; [exact H |]. split; [exact Hcalls |]. split.
  - apply Herr. intros p chunk. reflexivity.
  - apply (Hsame silent_expat (fun p _ _ => (p, mk_expat [] None)) "events.lhe").
    intros p chunk. reflexivity.
Defined.

(** ** Regular documents *)

Lemma run_wgts_in (ws : list wgt_element) :
  forall s : ParseState,
    capture s = NO_CAPTURE -> charBuf s = "" ->
    0 <= cur_event s * (4 + n_weights s) + (4 + cur_weight s) ->
    cur_event s * (4 + n_weights s) + (4 + cur_weight s) + Z.of_nat (List.length ws)
      <= Z.of_nat (List.length (fevt_arr s)) ->
    exists s' : ParseState, run (wgts_callbacks ws) s = Ok s'.
Proof.
  induction ws as [| w ws IH]; intros s Hc Hb H0 Hlen.
  - cbn. eauto.
  - unfold wgts_callbacks. cbn [map concat]. rewrite run_app.
    rewrite run_wgt_element by assumption.
    destruct (processWeight_in (set_charBuf (wgt_text w) (set_capture WGT_TAG s)))
      as [s1 E1].
    { cbn [set_charBuf set_capture cur_event n_weights cur_weight fevt_arr].
      cbn [List.length] in Hlen. lia. }
    rewrite E1. cbn [bind]. apply processWeight_Ok in E1. destruct E1 as [Hs1 _].
    cbn [set_charBuf set_capture cur_event n_weights cur_weight fevt_arr charBuf] in Hs1.
    apply IH; subst s1; cbn; try reflexivity.
    + lia.
    + rewrite length_alter. cbn [List.length] in Hlen. lia.
Qed.

Lemma onChar_idle (buf : string) (s : ParseState) :
  capture s = NO_CAPTURE -> onChar buf s = s.
Proof. intros Hc. unfold onChar. rewrite Hc. reflexivity. Qed.

Lemma onChar_capturing (buf : string) (s : ParseState) :
  capture s <> 0 -> onChar buf s = set_charBuf (charBuf s ++ buf) s.
Proof.
  intros Hc. unfold onChar. destruct (Z.eqb_spec (capture s) 0); [contradiction |].
  reflexivity.
Qed.

Lemma onStart_event (attributes : list (string * string)) (s : ParseState) :
  onStart "event" attributes s = Ok (set_cur_weight 0 (set_capture EVENT_HEADER s)).
Proof. reflexivity. Qed.

Lemma onStart_wgt_header (attributes : list (string * string)) (s : ParseState) :
  capture s = EVENT_HEADER ->
  onStart "wgt" attributes s =
  let* s5 := processEvent s in
  Ok (set_capture WGT_TAG (set_capture NO_CAPTURE (set_charBuf "" s5))).
Proof.
  intros Hc. unfold onStart. change (String.eqb "wgt" "event") with false.
  rewrite Hc. change (EVENT_HEADER =? EVENT_HEADER) with true. cbv iota.
  destruct (processEvent s); reflexivity.
Qed.

Lemma run_event_steps (ev : event_element) (w1 : wgt_element) (ws : list wgt_element)
    (s : ParseState) :
  capture s = NO_CAPTURE -> charBuf s = "" ->
  ev_weights ev = w1 :: ws ->
  run (event_callbacks ev) s =
  let* s5 := processEvent (header_state s ev) in
  let* s8 := processWeight
               (set_charBuf (wgt_text w1)
                  (set_capture WGT_TAG (set_capture NO_CAPTURE (set_charBuf "" s5)))) in
  let* s9 := run (wgts_callbacks ws) s8 in
  run [CharacterData (ev_tail ev); EndElement "event"] s9.
Proof.
  intros Hc Hb Hws. unfold event_callbacks, header_state, ev_buffer. rewrite Hws.
  unfold wgts_callbacks. cbn [map concat]. fold (wgts_callbacks ws).
  unfold wgt_callbacks at 1.
  cbn [app run]. cbn [handle].
  rewrite (onChar_idle _ s Hc). cbn [bind].
  rewrite onStart_event. cbn [bind].
  rewrite (onChar_capturing (ev_text ev)) by (cbn; discriminate).
  cbn [set_cur_weight set_capture charBuf]. rewrite Hb. cbn [append].
  rewrite (onChar_capturing (wgt_gap w1)) by (cbn; discriminate).
  cbn [set_charBuf charBuf].
  rewrite onStart_wgt_header by reflexivity.
  match goal with
  | |- context [processEvent ?x] => set (sh := x)
  end.
  match goal with
  | |- _ = bind (processEvent ?y) _ => change y with sh
  end.
  destruct (processEvent sh) as [s5 | w |]; cbn [bind]; try reflexivity.
  rewrite onChar_capturing by (cbn; discriminate).
  cbn [set_capture set_charBuf charBuf append].
  unfold onEnd at 1. change (String.eqb "wgt" "event") with false.
  change (String.eqb "wgt" "wgt") with true. cbv iota.
  match goal with
  | |- bind (processWeight ?x) _ = bind (processWeight ?y) _ => change x with y
  end.
  destruct (processWeight _) as [s8 | w |]; cbn [bind]; try reflexivity.
  rewrite run_app. reflexivity.
Qed.

Lemma run_event (ev : event_element) (s : ParseState) (n : Z) :
  capture s = NO_CAPTURE -> charBuf s = "" ->
  0 <= cur_event s -> 0 <= cur_particle s ->
  regular (n_weights s) ev -> ev_count ev = Some n ->
  cur_event s * 2 + 2 <= Z.of_nat (List.length (ievt_arr s)) ->
  (cur_event s + 1) * (4 + n_weights s) <= Z.of_nat (List.length (fevt_arr s)) ->
  7 * (cur_particle s + n) <= Z.of_nat (List.length (iptc_arr s)) ->
  7 * (cur_particle s + n) <= Z.of_nat (List.length (fptc_arr s)) ->
  exists s1 : ParseState,
    run (event_callbacks ev) s = Ok s1 /\
    (capture s1 = NO_CAPTURE /\ charBuf s1 = "") /\
    cur_event s1 = cur_event s + 1 /\
    cur_particle s1 = cur_particle s + n /\
    n_weights s1 = n_weights s /\
    same_lengths s s1 /\
    event_rows s ev n s1 /\ event_frame s ev n s1.
Proof.
  intros Hc Hb He0 Hp0 (Hne & Hk & n' & Hn' & Hpos) Hn Hli Hlf Hlpi Hlpf.
  assert (n' = n) by congruence. subst n'. clear Hn'.
  destruct (ev_weights ev) as [| w1 ws] eqn:Hws; [contradiction |]. clear Hne.
  cbn [List.length] in Hk.
  rewrite (run_event_steps ev w1 ws s Hc Hb Hws).
  (* the extraction *)
  set (sh := header_state s ev).
  assert (Hnup : read_nup sh = Some n).
  { rewrite read_nup_tokens. exact Hn. }
  destruct (processEvent_fits_Ok sh n Hnup) as [s5 E5].
  { unfold event_fits, sh, header_state. cbn. repeat split; try lia; nia. }
  rewrite E5. cbn [bind].
  pose proof (processEvent_lengths sh s5 E5) as (Hl5i & Hl5f & Hl5pi & Hl5pf).
  apply processEvent_Ok in E5.
  destruct E5 as (n' & Hn' & (H5w & _ & _ & H5e & H5cw & _ & _) & H5p & _ & H5ievt
                  & H5fevt & sv & Hsv & Eptc).
  assert (n' = n) by congruence. subst n'. clear Hn'.
  apply read_particles_spec in Eptc.
  destruct Eptc as (_ & _ & _ & _ & Hrows & Hpframe).
  unfold sh, header_state in H5w, H5e, H5cw, H5p, H5ievt, H5fevt, Hrows, Hpframe,
                             Hl5i, Hl5f, Hl5pi, Hl5pf, Hsv.
  cbn [set_charBuf set_cur_weight set_capture n_weights cur_event cur_weight
       cur_particle ievt_arr fevt_arr iptc_arr fptc_arr charBuf] in *.
  fold (ev_tokens ev) in H5ievt, H5fevt, Hsv.
  (* the first weight *)
  set (s7 := set_charBuf (wgt_text w1)
               (set_capture WGT_TAG (set_capture NO_CAPTURE (set_charBuf "" s5)))).
  destruct (processWeight_in s7) as [s8 E8].
  { unfold s7. cbn. rewrite H5e, H5w, H5cw, Hl5f. nia. }
  rewrite E8. cbn [bind]. apply processWeight_Ok in E8. destruct E8 as [Hs8 _].
  unfold s7 in Hs8.
  cbn [set_charBuf set_capture n_weights cur_event cur_weight fevt_arr charBuf] in Hs8.
  rewrite H5e, H5w, H5cw in Hs8.
  (* the other weights *)
  assert (Hc8 : capture s8 = NO_CAPTURE) by (subst s8; reflexivity).
  assert (Hb8 : charBuf s8 = "") by (subst s8; reflexivity).
  assert (He8 : cur_event s8 = cur_event s) by (subst s8; exact H5e).
  assert (Hw8 : n_weights s8 = n_weights s) by (subst s8; exact H5w).
  assert (Hcw8 : cur_weight s8 = 1) by (subst s8; cbn; lia).
  assert (Hp8 : cur_particle s8 = cur_particle s + n)
    by (subst s8; cbn; rewrite H5p; lia).
  assert (Hf8 : fevt_arr s8 =
                alter (stored (head (tokens (wgt_text w1))))
                  (Z.to_nat (cur_event s * (4 + n_weights s) + (4 + 0))) (fevt_arr s5))
    by (subst s8; reflexivity).
  assert (Ho8 : ievt_arr s8 = ievt_arr s5 /\ iptc_arr s8 = iptc_arr s5 /\
                fptc_arr s8 = fptc_arr s5) by (subst s8; repeat split).
  clear Hs8 s7.
  destruct (run_wgts_in ws s8 Hc8 Hb8) as [s9 E9].
  { rewrite He8, Hw8, Hcw8. nia. }
  { rewrite He8, Hw8, Hcw8, Hf8, length_alter, Hl5f. nia. }
  rewrite E9. cbn [bind].
  pose proof (run_lengths _ _ _ E9) as (Hl9i & Hl9f & Hl9pi & Hl9pf).
  apply run_wgts_spec in E9; [| exact Hc8 | exact Hb8].
  destruct E9 as (Hcw9 & Hc9 & Hb9 & Hcells & Hbelow & (He9 & Hp9 & Hw9 & Hi9 & Hpi9 & Hpf9)).
  rewrite He8, Hw8, Hcw8 in Hcells, Hbelow.
  (* the closing tag *)
  cbn [run handle]. rewrite (onChar_idle _ s9 Hc9). cbn [bind].
  unfold onEnd. cbn [String.eqb Ascii.eqb Bool.eqb bind].
  eexists. split; [reflexivity |].
  cbn [set_cur_event capture charBuf cur_event cur_particle n_weights
       ievt_arr fevt_arr iptc_arr fptc_arr].
  split; [split; assumption |]. split; [lia |]. split; [lia |]. split; [lia |].
  destruct Ho8 as (Hi8 & Hpi8 & Hpf8).
  set (i := Z.to_nat (cur_event s)) in *.
  set (W := Z.to_nat (4 + n_weights s)) in *.
  set (p := Z.to_nat (cur_particle s)) in *.
  assert (Hfe : Z.to_nat (cur_event s * (4 + n_weights s)) = (i * W)%nat)
    by (unfold i, W; rewrite Z2Nat.inj_mul by lia; reflexivity).
  assert (Hfe4 : Z.to_nat (cur_event s * (4 + n_weights s) + (4 + 0)) = (i * W + 4)%nat)
    by (rewrite Z2Nat.inj_add by nia; rewrite Hfe; reflexivity).
  assert (Hfe5 : Z.to_nat (cur_event s * (4 + n_weights s) + (4 + 1)) = (i * W + 5)%nat)
    by (rewrite Z2Nat.inj_add by nia; rewrite Hfe; reflexivity).
  assert (Hie : Z.to_nat (cur_event s * 2) = (2 * i)%nat) by (unfold i; lia).
  assert (Hie1 : Z.to_nat (cur_event s * 2 + 1) = (2 * i + 1)%nat) by (unfold i; lia).
  rewrite Hfe in H5fevt. rewrite Hfe4 in Hf8. rewrite Hfe5 in Hcells, Hbelow.
  rewrite Hie, Hie1 in H5ievt.
  assert (Hfs8 : forall k : nat,
            (k < i * W)%nat \/ (i * W + 5 <= k)%nat ->
            fevt_arr s8 !! k = fevt_arr s !! k).
  { intros k Hk'. rewrite Hf8, list_lookup_alter_ne by lia. rewrite H5fevt.
    unfold filled. rewrite decide_False by lia. reflexivity. }
  split; [| split].
  - unfold same_lengths.
    cbn [set_cur_event ievt_arr fevt_arr iptc_arr fptc_arr].
    rewrite Hl9i, Hl9f, Hl9pi, Hl9pf, Hi8, Hpi8, Hpf8, Hf8, length_alter. auto.
  - unfold event_rows. fold i W p. rewrite Hws.
    cbn [set_cur_event ievt_arr fevt_arr iptc_arr fptc_arr].
    rewrite Hi9, Hi8, Hpi9, Hpi8, Hpf9, Hpf8.
    split; [| split; [| split; [| split]]].
    + rewrite H5ievt, list_lookup_alter_ne, list_lookup_insert_eq by lia. reflexivity.
    + rewrite H5ievt, list_lookup_alter_eq, list_lookup_insert_ne by lia. reflexivity.
    + intros c Hc4. rewrite Hbelow by lia.
      rewrite Hf8, list_lookup_alter_ne by lia. rewrite H5fevt.
      unfold filled. rewrite decide_True by lia. rewrite lookup_drop.
      replace (i * W + c - i * W)%nat with c by lia. reflexivity.
    + intros [| j] w Hw.
      * cbn in Hw. injection Hw as <-. rewrite Nat.add_0_r.
        rewrite Hbelow by lia. rewrite Hf8, list_lookup_alter_eq. rewrite H5fevt.
        unfold filled. rewrite decide_False by lia. reflexivity.
      * change ((w1 :: ws) !! S j) with (ws !! j) in Hw.
        replace (i * W + 4 + S j)%nat with (i * W + 5 + j)%nat by lia.
        rewrite Hcells, Hw. rewrite Hfs8 by lia. reflexivity.
    + intros q c Hq Hc7. destruct (Hrows q c Hq Hc7) as [Hri Hrf].
      rewrite Hri, Hrf, Hsv. split.
      * destruct c as [| c']; [reflexivity |]. rewrite lookup_drop.
        replace (6 + (13 * q + c'))%nat with (6 + 13 * q + c')%nat by lia. reflexivity.
      * rewrite lookup_drop.
        replace (6 + (13 * q + 6 + c))%nat with (12 + 13 * q + c)%nat by lia.
        reflexivity.
  - unfold event_frame. fold i W p. rewrite Hws.
    cbn [set_cur_event ievt_arr fevt_arr iptc_arr fptc_arr].
    rewrite Hi9, Hi8, Hpi9, Hpi8, Hpf9, Hpf8.
    split; [| split].
    + intros k Hk'. rewrite H5ievt, list_lookup_alter_ne, list_lookup_insert_ne by lia.
      reflexivity.
    + intros k [Hk' | Hk'].
      * rewrite Hbelow by lia. apply Hfs8. lia.
      * cbn [List.length] in Hk'.
        replace k with (i * W + 5 + (k - (i * W + 5)))%nat at 1 by lia.
        rewrite Hcells. rewrite (lookup_ge_None_2 ws) by lia.
        replace (i * W + 5 + (k - (i * W + 5)))%nat with k by lia.
        apply Hfs8. lia.
    + exact Hpframe.
Qed.

Lemma regular_particles (weights : Z) (ev : event_element) :
  regular weights ev -> ev_count ev = Some (ev_particles ev) /\ 0 <= ev_particles ev.
Proof.
  intros (_ & _ & n & Hn & Hpos). unfold ev_particles. rewrite Hn. cbn. auto.
Qed.

Lemma particles_of_cons (ev : event_element) (evs : list event_element) :
  particles_of (ev :: evs) = ev_particles ev + particles_of evs.
Proof. reflexivity. Qed.

Lemma particles_of_nonneg (weights : Z) (evs : list event_element) :
  Forall (regular weights) evs -> 0 <= particles_of evs.
Proof.
  induction 1 as [| ev evs Hev _ IH]; [unfold particles_of; cbn; lia |].
  apply regular_particles in Hev. destruct Hev as [_ Hpos].
  rewrite particles_of_cons. lia.
Qed.

Lemma run_event_stored (ev : event_element) (s : ParseState) :
  capture s = NO_CAPTURE -> charBuf s = "" ->
  0 <= cur_event s -> 0 <= cur_particle s ->
  regular (n_weights s) ev -> blank s ->
  cur_event s * 2 + 2 <= Z.of_nat (List.length (ievt_arr s)) ->
  (cur_event s + 1) * (4 + n_weights s) <= Z.of_nat (List.length (fevt_arr s)) ->
  7 * (cur_particle s + ev_particles ev) <= Z.of_nat (List.length (iptc_arr s)) ->
  7 * (cur_particle s + ev_particles ev) <= Z.of_nat (List.length (fptc_arr s)) ->
  exists s1 : ParseState,
    run (event_callbacks ev) s = Ok s1 /\
    (capture s1 = NO_CAPTURE /\ charBuf s1 = "") /\
    cur_event s1 = cur_event s + 1 /\
    cur_particle s1 = cur_particle s + ev_particles ev /\
    n_weights s1 = n_weights s /\
    same_lengths s s1 /\
    blank s1 /\
    event_stored (Z.to_nat (4 + n_weights s)) (Z.to_nat (cur_event s))
      (Z.to_nat (cur_particle s)) ev s1 /\
    event_frame s ev (ev_particles ev) s1.
Proof.
  intros Hc Hb He0 Hp0 Hreg (Hzi & Hzf & Hzp) Hli Hlf Hlpi Hlpf.
  destruct (regular_particles _ _ Hreg) as [Hn Hpos].
  pose proof Hreg as (_ & Hk & _).
  destruct (run_event ev s (ev_particles ev) Hc Hb He0 Hp0 Hreg Hn Hli Hlf Hlpi Hlpf)
    as (s1 & E & Hidle & He1 & Hp1 & Hw1 & Hlen & Hrows & Hframe).
  exists s1. split; [exact E |]. split; [exact Hidle |]. split; [exact He1 |].
  split; [exact Hp1 |]. split; [exact Hw1 |]. split; [exact Hlen |].
  destruct Hlen as (Hl1i & Hl1f & Hl1pi & Hl1pf).
  unfold event_rows in Hrows. unfold event_frame in Hframe.
  set (i := Z.to_nat (cur_event s)) in *.
  set (W := Z.to_nat (4 + n_weights s)) in *.
  set (p := Z.to_nat (cur_particle s)) in *.
  cbv zeta in Hrows, Hframe.
  destruct Hrows as (Hr0 & Hr1 & Hrf & Hrw & Hrp).
  destruct Hframe as (Hfi & Hff & Hfp).
  assert (HW : (4 + List.length (ev_weights ev) <= W)%nat) by (unfold W; lia).
  assert (HlenW : ((i + 1) * W <= List.length (fevt_arr s))%nat).
  { apply Nat2Z.inj_le. rewrite Nat2Z.inj_mul. unfold i, W.
    rewrite Nat2Z.inj_add, !Z2Nat.id by lia. exact Hlf. }
  split; [| split; [| unfold event_frame; fold i W p; auto]].
  - (* blank s1 *)
    unfold blank. rewrite He1, Hp1, Hw1, Hl1i, Hl1f, Hl1pi, Hl1pf.
    replace (Z.to_nat (cur_event s + 1)) with (i + 1)%nat by (unfold i; lia).
    replace (Z.to_nat (cur_particle s + ev_particles ev))
      with (p + Z.to_nat (ev_particles ev))%nat by (unfold p; lia).
    fold W. split; [| split].
    + intros k Hk'. rewrite Hfi by lia. apply Hzi. fold i. lia.
    + intros k Hk'. rewrite Hff by nia. apply Hzf. fold i W. nia.
    + intros k Hk'. destruct (Hfp k ltac:(lia)) as [-> ->].
      apply Hzp. fold p. lia.
  - (* event_stored *)
    unfold event_stored. split; [exact Hr0 |]. split; [| split; [| split]].
    + rewrite Hr1, Hzi by (fold i; lia). reflexivity.
    + intros c Hc4. rewrite Hrf by exact Hc4. rewrite Hzf by (fold i W; nia).
      reflexivity.
    + intros j Hj. destruct (ev_weights ev !! j) as [w |] eqn:Hw.
      * rewrite (Hrw j w Hw). rewrite Hzf by (fold i W; nia). reflexivity.
      * apply lookup_ge_None_1 in Hw. rewrite Hff by lia.
        apply Hzf. fold i W. nia.
    + intros q c Hq Hc7. destruct (Hrp q c Hq Hc7) as [Hpi Hpf].
      rewrite Hpi, Hpf.
      destruct (Hzp (7 * (p + q) + c)%nat ltac:(fold p; lia)) as [Hz1 Hz2].
      rewrite Hz1, Hz2 by lia. split; [| reflexivity].
      destruct c as [| c']; [| reflexivity].
      f_equal. unfold i. lia.
Qed.

Lemma events_callbacks_cons (ev : event_element) (evs : list event_element) :
  events_callbacks (ev :: evs) = (event_callbacks ev ++ events_callbacks evs)%list.
Proof. reflexivity. Qed.

Lemma run_events (evs : list event_element) :
  forall s : ParseState,
    capture s = NO_CAPTURE -> charBuf s = "" ->
    0 <= cur_event s -> 0 <= cur_particle s ->
    Forall (regular (n_weights s)) evs -> blank s ->
    (cur_event s + Z.of_nat (List.length evs)) * 2 <= Z.of_nat (List.length (ievt_arr s)) ->
    (cur_event s + Z.of_nat (List.length evs)) * (4 + n_weights s)
      <= Z.of_nat (List.length (fevt_arr s)) ->
    7 * (cur_particle s + particles_of evs) <= Z.of_nat (List.length (iptc_arr s)) ->
    7 * (cur_particle s + particles_of evs) <= Z.of_nat (List.length (fptc_arr s)) ->
    exists s' : ParseState,
      run (events_callbacks evs) s = Ok s' /\
      (capture s' = NO_CAPTURE /\ charBuf s' = "") /\
      cur_event s' = cur_event s + Z.of_nat (List.length evs) /\
      cur_particle s' = cur_particle s + particles_of evs /\
      n_weights s' = n_weights s /\
      same_lengths s s' /\
      (forall (j : nat) (ev : event_element),
         evs !! j = Some ev ->
         event_stored (Z.to_nat (4 + n_weights s)) (Z.to_nat (cur_event s) + j)
           (Z.to_nat (cur_particle s) + Z.to_nat (particles_of (take j evs))) ev s') /\
      ((forall k : nat,
          (k < 2 * Z.to_nat (cur_event s))%nat -> ievt_arr s' !! k = ievt_arr s !! k) /\
       (forall k : nat,
          (k < Z.to_nat (cur_event s) * Z.to_nat (4 + n_weights s))%nat ->
          fevt_arr s' !! k = fevt_arr s !! k) /\
       (forall k : nat,
          (k < 7 * Z.to_nat (cur_particle s))%nat ->
          iptc_arr s' !! k = iptc_arr s !! k /\ fptc_arr s' !! k = fptc_arr s !! k)).
Proof.
  induction evs as [| ev rest IH]; intros s Hc Hb He0 Hp0 Hreg Hblank Hli Hlf Hlpi Hlpf.
  - exists s. cbn [events_callbacks map concat run List.length].
    unfold particles_of. cbn [map total foldr].
    split; [reflexivity |]. split; [auto |]. split; [lia |]. split; [lia |].
    split; [reflexivity |]. split; [apply same_lengths_refl |].
    split; [intros j ev Hj; rewrite lookup_nil in Hj; discriminate | auto].
  - apply Forall_cons in Hreg. destruct Hreg as [Hev Hrest].
    destruct (regular_particles _ _ Hev) as [Hn Hpos].
    pose proof (particles_of_nonneg _ _ Hrest) as Hrpos.
    pose proof Hev as (Hne & Hk & _).
    assert (Hk1 : 1 <= n_weights s).
    { destruct (ev_weights ev); [contradiction | cbn [List.length] in Hk; lia]. }
    rewrite particles_of_cons in Hlpi, Hlpf. cbn [List.length] in Hli, Hlf.
    destruct (run_event_stored ev s Hc Hb He0 Hp0 Hev Hblank)
      as (s1 & E1 & (Hc1 & Hb1) & He1 & Hp1 & Hw1 & Hlen1 & Hblank1 & Hst & Hframe);
      try lia; try nia.
    pose proof Hlen1 as (Hl1i & Hl1f & Hl1pi & Hl1pf).
    destruct (IH s1 Hc1 Hb1) as
      (s' & E & Hidle & He' & Hp' & Hw' & Hlen' & Hrows & Hbi & Hbf & Hbp);
      try (rewrite ?He1, ?Hp1, ?Hw1, ?Hl1i, ?Hl1f, ?Hl1pi, ?Hl1pf; first [lia | nia]).
    { rewrite Hw1. exact Hrest. }
    { exact Hblank1. }
    rewrite He1, Hp1, Hw1 in *.
    replace (Z.to_nat (cur_event s + 1)) with (Z.to_nat (cur_event s) + 1)%nat in *
      by lia.
    replace (Z.to_nat (cur_particle s + ev_particles ev))
      with (Z.to_nat (cur_particle s) + Z.to_nat (ev_particles ev))%nat in * by lia.
    set (i := Z.to_nat (cur_event s)) in *.
    set (W := Z.to_nat (4 + n_weights s)) in *.
    set (p := Z.to_nat (cur_particle s)) in *.
    assert (HW : (5 <= W)%nat) by (unfold W; lia).
    exists s'. rewrite events_callbacks_cons, run_app, E1. cbn [bind].
    split; [exact E |]. split; [exact Hidle |].
    split; [cbn [List.length]; lia |].
    split; [rewrite particles_of_cons; lia |]. split; [exact Hw' |].
    split; [unfold same_lengths in *; intuition congruence |].
    unfold event_frame in Hframe. fold i W p in Hframe. cbv zeta in Hframe.
    destruct Hframe as (Hfi & Hff & Hfp).
    split; [| split; [| split]].
    + intros [| j] ev' Hj.
      * cbn in Hj. injection Hj as <-. cbn [take].
        replace (particles_of []) with 0 by reflexivity.
        replace (i + 0)%nat with i by lia. replace (p + Z.to_nat 0)%nat with p by lia.
        destruct Hst as (H0 & H1 & Hf4 & Hfw & Hpt).
        unfold event_stored.
        rewrite Hbi by lia. rewrite Hbi by lia.
        split; [exact H0 |]. split; [exact H1 |]. split; [| split].
        -- intros c Hc4. rewrite Hbf by nia. apply Hf4. exact Hc4.
        -- intros j Hj4. rewrite Hbf by nia. apply Hfw. exact Hj4.
        -- intros q c Hq Hc7. destruct (Hbp (7 * (p + q) + c)%nat ltac:(lia)) as [-> ->].
           apply Hpt; assumption.
      * change ((ev :: rest) !! S j) with (rest !! j) in Hj.
        cbn [take]. rewrite particles_of_cons.
        assert (Htpos : 0 <= particles_of (take j rest))
          by (eapply particles_of_nonneg; apply Forall_take; exact Hrest).
        replace (i + S j)%nat with (i + 1 + j)%nat by lia.
        replace (p + Z.to_nat (ev_particles ev + particles_of (take j rest)))%nat
          with (p + Z.to_nat (ev_particles ev) + Z.to_nat (particles_of (take j rest)))%nat
          by lia.
        apply Hrows. exact Hj.
    + intros k Hk'. rewrite Hbi by lia. apply Hfi. lia.
    + intros k Hk'. rewrite Hbf by nia. apply Hff. lia.
    + intros k Hk'. destruct (Hbp k ltac:(lia)) as [-> ->]. apply Hfp. lia.
Qed.

Lemma run_neutral (events : list sax) :
  forall s : ParseState,
    capture s = NO_CAPTURE -> forallb is_neutral events = true -> run events s = Ok s.
Proof.
  induction events as [| e events IH]; intros s Hc Hall; [reflexivity |].
  cbn [forallb] in Hall. apply andb_prop in Hall. destruct Hall as [He Hall].
  cbn [run].
  assert (Hh : handle e s = Ok s).
  { destruct e as [name attrs | name | buf]; cbn [handle is_neutral] in *.
    - apply andb_prop in He. destruct He as [H1 H2].
      apply negb_true_iff in H1, H2. unfold onStart. rewrite H1, H2, Hc. reflexivity.
    - apply andb_prop in He. destruct He as [H1 H2].
      apply negb_true_iff in H1, H2. unfold onEnd. rewrite H1, H2. reflexivity.
    - rewrite (onChar_idle _ s Hc). reflexivity. }
  rewrite Hh. cbn [bind]. apply IH; assumption.
Qed.

Lemma blank_fresh (ne nw np : Z) : blank (fresh ne nw np).
Proof.
  unfold blank, fresh. cbn [ievt_arr fevt_arr iptc_arr fptc_arr cur_event cur_particle
                            n_weights].
  rewrite !length_replicate.
  split; [| split]; intros k Hk; [| | split; intros Hk'];
    apply lookup_replicate_2; lia.
Qed.

(** X26. Pass 2 on a regular document. Let the callbacks be those of a
    list of [event] elements, each with at least one [wgt] child and at
    most [weights] of them and with a readable particle count that is not
    negative, between callbacks that are no tag of [event] or [wgt]. On
    zeroed buffers for that many events, [weights] weights and the sum of
    the counts, the callbacks run to their end; the cursors end at the
    number of events and at the sum of the counts; and the rows of every
    event hold what its tokens say: the count and IDPRUP, the four reals,
    the weights in the order of the [wgt] children, and for each particle
    the index of the event, six integers and seven reals, with a zero
    wherever a token is missing or not accepted. When pass 1 returns these
    three numbers for the file, and expat reports these callbacks, in
    whatever pieces, and no error, [parseLHE] returns these buffers. *)
Theorem regular_events_stored :
  forall (before after : list sax) (evs : list event_element) (weights : Z),
    forallb is_neutral before = true ->
    forallb is_neutral after = true ->
    Forall (regular weights) evs ->
    exists s' : ParseState,
      run (before ++ events_callbacks evs ++ after)%list
        (fresh (Z.of_nat (List.length evs)) weights (particles_of evs)) = Ok s' /\
      cur_event s' = Z.of_nat (List.length evs) /\
      cur_particle s' = particles_of evs /\
      capture s' = NO_CAPTURE /\ charBuf s' = "" /\
      (forall (j : nat) (ev : event_element),
         evs !! j = Some ev ->
         event_stored (Z.to_nat (4 + weights)) j
           (Z.to_nat (particles_of (take j evs))) ev s') /\
      (forall (XML_Parse : string -> expat_result) (filename text : string),
         countDimensions filename (Some text)
         = Ok (Z.of_nat (List.length evs), weights, particles_of evs) ->
         merge (callbacks (XML_Parse text))
         = merge (before ++ events_callbacks evs ++ after) ->
         error (XML_Parse text) = None ->
         0 < particles_of evs ->
         parseLHE XML_Parse filename (Some text) =
         Ok (mk_array (Z.of_nat (List.length evs)) 2 (ievt_arr s'),
             mk_array (Z.of_nat (List.length evs)) (4 + weights) (fevt_arr s'),
             mk_array (particles_of evs) 7 (iptc_arr s'),
             mk_array (particles_of evs) 7 (fptc_arr s'))).
Proof.
  intros before after evs nw Hbefore Hafter Hreg.
  pose proof (particles_of_nonneg _ _ Hreg) as Hpos.
  assert (Hnw : evs = [] \/ 1 <= nw).
  { destruct Hreg as [| ev rest (Hne & Hk & _) _]; [left; reflexivity | right].
    destruct (ev_weights ev); [contradiction | cbn [List.length] in Hk; lia]. }
  set (s0 := fresh (Z.of_nat (List.length evs)) nw (particles_of evs)).
  destruct (run_events evs s0) as
    (s' & E & (Hc' & Hb') & He' & Hp' & Hw' & _ & Hrows & _);
    try reflexivity; try (unfold s0, fresh; cbn; rewrite ?length_replicate; lia).
  - exact Hreg.
  - apply blank_fresh.
  - assert (Erun : run (before ++ events_callbacks evs ++ after)%list s0 = Ok s').
    { rewrite run_app, (run_neutral before s0 eq_refl Hbefore). cbn [bind].
      rewrite run_app, E. cbn [bind]. exact (run_neutral after s' Hc' Hafter). }
    exists s'. split; [exact Erun |]. split; [exact He' |]. split; [exact Hp' |].
    split; [exact Hc' |]. split; [exact Hb' |].
    split; [intros j ev Hj; exact (Hrows j ev Hj) |].
    intros XML_Parse filename text Hscan Hcalls Herr Hpos'.
    assert (Hevs : evs <> [])
      by (intros ->; unfold particles_of in Hpos'; cbn in Hpos'; lia).
    destruct Hnw as [-> | Hnw]; [contradiction |].
    apply parseLHE_returns; try assumption; try lia.
    + destruct evs; [contradiction | cbn [List.length]; lia].
    + rewrite <- run_merge, Hcalls, run_merge. exact Erun.
Qed.

Lemma regular_events_stored_witness :
  forallb is_neutral scenario_prologue = true /\
  forallb is_neutral document_epilogue = true /\
  Forall (regular 1) two_events /\
  exists s' : ParseState,
    run (scenario_prologue ++ events_callbacks two_events ++ document_epilogue)%list
      (fresh (Z.of_nat (List.length two_events)) 1 (particles_of two_events)) = Ok s' /\
    cur_event s' = Z.of_nat (List.length two_events) /\
    cur_particle s' = particles_of two_events /\
    capture s' = NO_CAPTURE /\ charBuf s' = "" /\
    (forall (j : nat) (ev : event_element),
       two_events !! j = Some ev ->
       event_stored (Z.to_nat (4 + 1)) j
         (Z.to_nat (particles_of (take j two_events))) ev s') /\
    (forall (XML_Parse : string -> expat_result) (filename text : string),
       countDimensions filename (Some text)
       = Ok (Z.of_nat (List.length two_events), 1, particles_of two_events) ->
       merge (callbacks (XML_Parse text))
       = merge (scenario_prologue ++ events_callbacks two_events ++ document_epilogue) ->
       error (XML_Parse text) = None ->
       0 < particles_of two_events ->
       parseLHE XML_Parse filename (Some text) =
       Ok (mk_array (Z.of_nat (List.length two_events)) 2 (ievt_arr s'),
           mk_array (Z.of_nat (List.length two_events)) (4 + 1) (fevt_arr s'),
           mk_array (particles_of two_events) 7 (iptc_arr s'),
           mk_array (particles_of two_events) 7 (fptc_arr s'))).
Proof.
  assert (Hb : forallb is_neutral scenario_prologue = true) by reflexivity.
  assert (Ha : forallb is_neutral document_epilogue = true) by reflexivity.
  assert (Hr1 : regular 1 first_event).
  { split; [discriminate |]. split; [cbn; lia |].
    exists 1. split; [vm_compute; reflexivity | lia]. }
  assert (Hr2 : regular 1 second_event).
  { split; [discriminate |]. split; [cbn; lia |].
    exists 2. split; [vm_compute; reflexivity | lia]. }
  assert (Hreg : Forall (regular 1) two_events)
    by (unfold two_events; constructor; [exact Hr1 | constructor; [exact Hr2 | constructor]]).
  split; [exact Hb |]. split; [exact Ha |]. split; [exact Hreg |].
  exact (regular_events_stored scenario_prologue document_epilogue two_events 1
           Hb Ha Hreg).
Defined.

(** * The particle count, the unchecked fields and the particle rows *)

(** ** The particle count and the numerals *)

Lemma span_digits_app (u tail : string) (ds : list Z) :
  span_digits u = (ds, "") -> no_digit_ahead tail = true ->
  span_digits (u ++ tail) = (ds, tail).
Proof.
  revert ds. induction u as [| c u IH]; intros ds E Htail.
  - cbn in E. inversion E; subst. cbn [append].
    destruct tail as [| x tail]; [reflexivity |].
    cbn [no_digit_ahead] in Htail. cbn [span_digits].
    destruct (digit x); [discriminate | reflexivity].
  - cbn [span_digits append] in *. destruct (digit c) as [d |]; [| discriminate].
    destruct (span_digits u) as [ds1 r1]. inversion E; subst.
    rewrite (IH ds1 eq_refl Htail). reflexivity.
Qed.

(** What [std::from_chars] makes of an integer numeral followed by a text
    that does not go on with a digit. *)
Lemma from_chars_int_numeral (u tail : string) (v : Z) :
  integer_numeral u = Some v -> no_digit_ahead tail = true ->
  from_chars_int (u ++ tail) =
  if has_plus u then None else if in_int v then Some v else None.
Proof.
  unfold integer_numeral, from_chars_int. intros Hu Htail.
  destruct u as [| c r]; [discriminate |].
  cbn [append has_plus]. rewrite strip_minus_cons.
  destruct (Ascii.eqb c "-") eqn:Hm.
  - apply Ascii.eqb_eq in Hm. subst c. cbn [Ascii.eqb Bool.eqb].
    destruct (span_digits r) as [[| d ds] [| x rest]] eqn:Er; try discriminate.
    inversion Hu; subst. rewrite (span_digits_app r tail _ Er Htail). reflexivity.
  - destruct (Ascii.eqb c "+") eqn:Hp.
    + apply Ascii.eqb_eq in Hp. subst c. reflexivity.
    + destruct (span_digits (String c r)) as [[| d ds] [| x rest]] eqn:Er;
        try discriminate.
      inversion Hu; subst.
      change (String c (r ++ tail)) with (String c r ++ tail).
      rewrite (span_digits_app (String c r) tail _ Er Htail). reflexivity.
Qed.

(** C6, as the code has it. [processEvent] throws exactly when the first
    token of the buffered text is absent or [std::from_chars] reads no
    [int] from it, and the message then ends with the current event index;
    whatever the other tokens are, they never make it throw. For a token
    that is an integer numeral the reading fails exactly when the numeral
    has a plus sign or its value lies outside the range of [int]; a token
    that goes on after a numeral without plus sign and in range is read as
    that numeral. *)
Theorem processEvent_throws_iff_nup :
  forall s : ParseState,
    (nup_unreadable s ->
     processEvent s =
     Throw ("Failed to parse particle count from event number: "
            ++ to_string (cur_event s))) /\
    (forall w : string,
       processEvent s = Throw w ->
       nup_unreadable s /\
       w = "Failed to parse particle count from event number: "
           ++ to_string (cur_event s)) /\
    (forall (t : string) (rest : list string) (v : Z),
       tokens (charBuf s) = t :: rest ->
       integer_numeral t = Some v ->
       (nup_unreadable s <-> has_plus t = true \/ in_int v = false)) /\
    (forall (u tail : string) (rest : list string) (v : Z),
       tokens (charBuf s) = (u ++ tail) :: rest ->
       integer_numeral u = Some v ->
       has_plus u = false -> in_int v = true -> no_digit_ahead tail = true ->
       read_nup s = Some v /\ forall w : string, processEvent s <> Throw w).
Proof.
  intros s. split; [| split; [| split]].
  - intros Hbad. apply nup_unreadable_iff in Hbad.
    unfold read_nup in Hbad. unfold processEvent.
    destruct (consume_next (T := Z) (charBuf s)) as [[n |] sv0];
      [discriminate | reflexivity].
  - intros w E. destruct (read_nup s) as [n |] eqn:Hn.
    + exfalso. exact (processEvent_no_throw_after_nup s n w Hn E).
    + split; [apply nup_unreadable_iff; exact Hn |].
      unfold read_nup in Hn. unfold processEvent in E.
      destruct (consume_next (T := Z) (charBuf s)) as [[n |] sv0]; [discriminate |].
      inversion E. reflexivity.
  - intros t rest v Htok Hnum. unfold nup_unreadable. rewrite Htok.
    pose proof (from_chars_int_numeral t "" v Hnum eq_refl) as H.
    rewrite append_nil_r in H. rewrite H.
    destruct (has_plus t); [intuition |].
    destruct (in_int v); intuition discriminate.
  - intros u tail rest v Htok Hnum Hplus Hin Htail.
    assert (Hn : read_nup s = Some v).
    { rewrite read_nup_tokens, Htok.
      rewrite (from_chars_int_numeral u tail v Hnum Htail), Hplus, Hin. reflexivity. }
    split; [exact Hn |]. intros w. exact (processEvent_no_throw_after_nup s v w Hn).
Qed.

Lemma processEvent_throws_iff_nup_witness :
  nup_unreadable (set_charBuf "two 1 1.0" (set_cur_event 1 (fresh 2 1 2))) /\
  processEvent (set_charBuf "two 1 1.0" (set_cur_event 1 (fresh 2 1 2)))
  = Throw "Failed to parse particle count from event number: 1".
Proof.
  assert (H : nup_unreadable (set_charBuf "two 1 1.0" (set_cur_event 1 (fresh 2 1 2))))
    by (vm_compute; reflexivity).
  split; [exact H |].
  exact (proj1 (processEvent_throws_iff_nup _) H).
Defined.

(** C6 as stated fails in both directions. The counts [+2] and
    [2147483648] are numeric, and [processEvent] throws on them; the count
    [2abc] is not numeric, and [processEvent] returns, having read 2. *)
Lemma processEvent_numeric_mismatch :
  (tokens (charBuf plus_count_state) !! 0%nat = Some "+2" /\
   numeric "+2" = true /\
   processEvent plus_count_state
   = Throw "Failed to parse particle count from event number: 0") /\
  (tokens (charBuf large_count_state) !! 0%nat = Some "2147483648" /\
   numeric "2147483648" = true /\
   processEvent large_count_state
   = Throw "Failed to parse particle count from event number: 0") /\
  (tokens (charBuf trailing_count_state) !! 0%nat = Some "2abc" /\
   numeric "2abc" = false /\
   exists s' : ParseState,
     processEvent trailing_count_state = Ok s' /\
     ievt_arr s' !! 0%nat = Some 2).
Proof.
  split; [| split].
  - repeat split; vm_compute; reflexivity.
  - repeat split; vm_compute; reflexivity.
  - split; [vm_compute; reflexivity |]. split; [vm_compute; reflexivity |].
    eexists. split; vm_compute; reflexivity.
Qed.

(** ** The cells of the unchecked fields *)

(** What a returning [processEvent] leaves in the cell of a field: the
    value of the token when [std::from_chars] accepts it at the type of
    the field, and what the cell held when the token is missing or
    rejected. *)
Lemma processEvent_field (s s' : ParseState) (n : Z) (f : field) :
  processEvent s = Ok s' -> read_nup s = Some n ->
  field_of_event (Z.to_nat n) f ->
  field_cell s f s' =
  match tokens (charBuf s) !! token_index f with
  | Some t => match parsed f t with
              | Some v => Some v
              | None => field_cell s f s
              end
  | None => field_cell s f s
  end.
Proof.
  intros E Hn Hf. pose proof (processEvent_fits s s' n Hn E) as Hfit.
  apply processEvent_Ok in E.
  destruct E as (n' & Hn' & _ & Hcp & Hie & Hievt & Hfevt & sv & Hsv & E).
  assert (n' = n) by congruence. subst n'.
  apply read_particles_spec in E. destruct E as (_ & Hli & Hlf & Hin & Hrows & _).
  destruct Hfit as (_ & (Hfe0 & Hfe1) & Hpt).
  destruct f as [| i | q i | q i];
    cbn [field_of_event token_index parsed field_cell] in *.
  - rewrite Hievt, list_lookup_alter_eq, list_lookup_insert_ne by lia.
    destruct (lookup_lt_is_Some_2 (ievt_arr s) (Z.to_nat (cur_event s * 2 + 1)))
      as [old Hold]; [lia |].
    rewrite Hold.
    destruct (tokens (charBuf s) !! 1%nat) as [t |];
      cbn [fmap option_fmap option_map stored]; [| reflexivity].
    unfold from_chars, from_chars_Z. destruct (from_chars_int t); reflexivity.
  - rewrite Hfevt. unfold filled. rewrite decide_True by lia.
    destruct (lookup_lt_is_Some_2 (fevt_arr s)
                (Z.to_nat (cur_event s * (4 + n_weights s)) + i)) as [old Hold]; [lia |].
    rewrite Hold, lookup_drop.
    replace (Z.to_nat (cur_event s * (4 + n_weights s)) + i
             - Z.to_nat (cur_event s * (4 + n_weights s)))%nat with i by lia.
    destruct (tokens (charBuf s) !! (2 + i)%nat) as [t |];
      cbn [fmap option_fmap option_map stored]; [| reflexivity].
    unfold from_chars, from_chars_dbl. destruct (from_chars_double t); reflexivity.
  - destruct Hf as [Hq Hi].
    destruct (Hpt ltac:(lia)) as (Hp0 & Hpi & Hpf).
    destruct (Hrows q (S i) Hq ltac:(lia)) as [Hcell _].
    replace (7 * (Z.to_nat (cur_particle s) + q) + 1 + i)%nat
      with (7 * (Z.to_nat (cur_particle s) + q) + S i)%nat in * by lia.
    rewrite Hcell.
    destruct (lookup_lt_is_Some_2 (iptc_arr s)
                (7 * (Z.to_nat (cur_particle s) + q) + S i)) as [old Hold]; [lia |].
    rewrite Hold, Hsv, lookup_drop.
    replace (6 + (13 * q + i))%nat with (6 + 13 * q + i)%nat by lia.
    destruct (tokens (charBuf s) !! (6 + 13 * q + i)%nat) as [t |];
      cbn [fmap option_fmap option_map stored]; [| reflexivity].
    unfold from_chars, from_chars_Z. destruct (from_chars_int t); reflexivity.
  - destruct Hf as [Hq Hi].
    destruct (Hpt ltac:(lia)) as (Hp0 & Hpi & Hpf).
    destruct (Hrows q i Hq Hi) as [_ Hcell].
    rewrite Hcell.
    destruct (lookup_lt_is_Some_2 (fptc_arr s)
                (7 * (Z.to_nat (cur_particle s) + q) + i)) as [old Hold]; [lia |].
    rewrite Hold, Hsv, lookup_drop.
    replace (6 + (13 * q + 6 + i))%nat with (12 + 13 * q + i)%nat by lia.
    destruct (tokens (charBuf s) !! (12 + 13 * q + i)%nat) as [t |];
      cbn [fmap option_fmap option_map stored]; [| reflexivity].
    unfold from_chars, from_chars_dbl. destruct (from_chars_double t); reflexivity.
Qed.

Lemma unreadable_parsed (f : field) (tok : option string) :
  unreadable f tok ->
  match tok with
  | Some t => parsed f t = None
  | None => True
  end.
Proof.
  destruct tok as [t |]; [| auto].
  destruct f; cbn [unreadable parsed]; intros ->; reflexivity.
Qed.

(** The cells from the particle cursor on are as they were at the start
    of the run. *)
Lemma run_rows_ahead (events : list sax) :
  forall s s' : ParseState,
    run events s = Ok s' ->
    forall k : nat,
      (7 * Z.to_nat (cur_particle s') <= k)%nat ->
      iptc_arr s' !! k = iptc_arr s !! k /\ fptc_arr s' !! k = fptc_arr s !! k.
Proof.
  induction events as [| e events IH]; intros s s' E k Hk; cbn [run] in E.
  - inversion E; subst. auto.
  - bind_ok E. rename a into s1. pose proof (run_keeps_rows _ _ _ E) as (_ & Hp & _).
    destruct (IH s1 s' E k Hk) as [-> ->].
    apply handle_block in E0. destruct E0 as (_ & _ & _ & Hout). apply Hout. lia.
Qed.

(** Column 1 of a row of [i_evt] the Event Extractor was not at is as it
    was at the start of the run. *)
Lemma run_ievt_unwritten (events : list sax) :
  forall (s s' : ParseState) (row : Z),
    run events s = Ok s' -> 0 <= row ->
    ~ In row (map fst (extractions events s)) ->
    ievt_arr s' !! Z.to_nat (row * 2 + 1) = ievt_arr s !! Z.to_nat (row * 2 + 1).
Proof.
  induction events as [| e events IH]; intros s s' row E Hrow Hr;
    cbn [run extractions] in *.
  - inversion E; subst. reflexivity.
  - bind_ok E. rename a into s1. rewrite E0 in Hr.
    rewrite map_app, in_app_iff in Hr.
    rewrite (IH s1 s' row E Hrow) by tauto.
    apply handle_ievt in E0.
    destruct (extraction e s) as [[row' n] |]; [| rewrite E0; reflexivity].
    destruct E0 as (Hrow' & Hlen & f & ->).
    assert (Hne : row' <> row) by (intros ->; apply Hr; left; left; reflexivity).
    rewrite list_lookup_alter_ne, list_lookup_insert_ne by lia. reflexivity.
Qed.

Lemma handle_fevt (e : sax) (s s' : ParseState) (k : nat) :
  handle e s = Ok s' ->
  (forall row n : Z,
     extraction e s = Some (row, n) ->
     ~ (row * (4 + n_weights s) <= Z.of_nat k < row * (4 + n_weights s) + 4)) ->
  (is_wgt_end e = true ->
   Z.of_nat k <> cur_event s * (4 + n_weights s) + (4 + cur_weight s)) ->
  fevt_arr s' !! k = fevt_arr s !! k.
Proof.
  destruct e as [name attrs | name | buf]; cbn [handle extraction is_wgt_end];
    intros E Hx Hw.
  - unfold onStart in E. bind_ok E. rename a into s1.
    assert (H1 : fevt_arr s1 !! k = fevt_arr s !! k).
    { destruct (String.eqb name "event"); [inversion E0; subst; reflexivity |].
      destruct (capture s =? EVENT_HEADER); [| inversion E0; subst; reflexivity].
      bind_ok E0. rename a into s5. inversion E0; subst. clear E0.
      cbn [set_capture set_charBuf fevt_arr].
      pose proof E1 as E5. apply processEvent_Ok in E1.
      destruct E1 as (n & Hn & _ & _ & _ & _ & Hfevt & _).
      pose proof (processEvent_fits s s5 n Hn E5) as (_ & (Hfe0 & Hfe1) & _).
      rewrite Hn in Hx. specialize (Hx (cur_event s) n eq_refl).
      rewrite Hfevt. unfold filled. rewrite decide_False by lia. reflexivity. }
    destruct (String.eqb name "wgt"); inversion E; subst; exact H1.
  - unfold onEnd in E. destruct (String.eqb name "event").
    + inversion E; subst. reflexivity.
    + destruct (String.eqb name "wgt").
      * apply processWeight_Ok in E. destruct E as [-> Hc].
        cbn [set_capture set_charBuf set_fevt fevt_arr].
        specialize (Hw eq_refl). rewrite list_lookup_alter_ne by lia. reflexivity.
      * inversion E; subst. reflexivity.
  - inversion E; subst. unfold onChar. destruct (capture s =? 0); reflexivity.
Qed.

(** A cell of [f_evt] that no step of the run wrote is as it was at the
    start of the run. *)
Lemma run_fevt_unwritten (events : list sax) :
  forall (s s' : ParseState) (k : nat),
    run events s = Ok s' ->
    fevt_unwritten events s (Z.of_nat k) ->
    fevt_arr s' !! k = fevt_arr s !! k.
Proof.
  induction events as [| e events IH]; intros s s' k E [Hx Hw];
    cbn [run extractions weight_cells] in *.
  - inversion E; subst. reflexivity.
  - bind_ok E. rename a into s1. rewrite E0 in Hx, Hw.
    pose proof (handle_configuration _ _ _ E0) as (Hnw & _).
    rewrite (IH s1 s' k E).
    + apply (handle_fevt e s s1 k E0).
      * intros row n Hex. apply (Hx row n). rewrite Hex. left. reflexivity.
      * intros He. rewrite He in Hw. intros Hk. apply Hw. left. symmetry. exact Hk.
    + split.
      * intros row n Hin. rewrite Hnw. apply (Hx row n). apply in_or_app. right.
        exact Hin.
      * intros Hin. apply Hw. apply in_or_app. right. exact Hin.
Qed.

Lemma fresh_zeros (ne nw np : Z) :
  (forall k : nat, (k < List.length (ievt_arr (fresh ne nw np)))%nat ->
                   ievt_arr (fresh ne nw np) !! k = Some 0) /\
  (forall k : nat, (k < List.length (fevt_arr (fresh ne nw np)))%nat ->
                   fevt_arr (fresh ne nw np) !! k = Some dzero) /\
  (forall k : nat, (k < List.length (iptc_arr (fresh ne nw np)))%nat ->
                   iptc_arr (fresh ne nw np) !! k = Some 0) /\
  (forall k : nat, (k < List.length (fptc_arr (fresh ne nw np)))%nat ->
                   fptc_arr (fresh ne nw np) !! k = Some dzero).
Proof.
  unfold fresh. cbn [ievt_arr fevt_arr iptc_arr fptc_arr].
  rewrite !length_replicate.
  repeat split; intros k Hk; apply lookup_replicate_2; exact Hk.
Qed.

(** In a parse, the cell of a field that no earlier step wrote holds its
    zero when the extraction begins. *)
Lemma parse_cell_default (ne nw np : Z) (before : list sax) (s1 s2 : ParseState)
    (n : Z) (f : field) :
  run before (fresh ne nw np) = Ok s1 ->
  processEvent s1 = Ok s2 -> read_nup s1 = Some n ->
  field_of_event (Z.to_nat n) f ->
  unwritten before (fresh ne nw np) s1 f ->
  at_default s1 f s1.
Proof.
  intros Hrun E Hn Hf Hun.
  pose proof (processEvent_fits s1 s2 n Hn E) as ((Hie0 & Hie1) & (Hfe0 & Hfe1) & Hpt).
  pose proof (run_lengths _ _ _ Hrun) as (Hli & Hlf & Hlpi & Hlpf).
  pose proof (run_keeps_rows _ _ _ Hrun) as (He & Hp & _).
  cbn [fresh cur_event cur_particle] in He, Hp.
  destruct (fresh_zeros ne nw np) as (Hzi & Hzf & Hzpi & Hzpf).
  destruct f as [| i | q i | q i]; cbn [field_of_event unwritten at_default] in *.
  - rewrite (run_ievt_unwritten before _ s1 (cur_event s1) Hrun He Hun).
    apply Hzi. lia.
  - replace (Z.to_nat (cur_event s1 * (4 + n_weights s1)) + i)%nat
      with (Z.to_nat (cur_event s1 * (4 + n_weights s1) + Z.of_nat i)) by lia.
    rewrite (run_fevt_unwritten before _ s1 _ Hrun).
    + apply Hzf. lia.
    + rewrite Z2Nat.id by lia. exact Hun.
  - destruct Hf as [Hq Hi]. destruct (Hpt ltac:(lia)) as (_ & Hpi & _).
    destruct (run_rows_ahead before _ s1 Hrun
                (7 * (Z.to_nat (cur_particle s1) + q) + 1 + i)%nat ltac:(lia)) as [-> _].
    apply Hzpi. lia.
  - destruct Hf as [Hq Hi]. destruct (Hpt ltac:(lia)) as (_ & _ & Hpf).
    destruct (run_rows_ahead before _ s1 Hrun
                (7 * (Z.to_nat (cur_particle s1) + q) + i)%nat ltac:(lia)) as [_ ->].
    apply Hzpf. lia.
Qed.

Lemma at_default_cell (base : ParseState) (f : field) (s s' : ParseState) :
  field_cell base f s' = field_cell base f s -> at_default base f s -> at_default base f s'.
Proof.
  destruct f; cbn [field_cell at_default]; intros Heq Hd; rewrite Hd in Heq;
    cbn [fmap option_fmap option_map] in Heq;
    match type of Heq with
    | _ <$> ?x = _ => destruct x as [v |]; cbn in Heq; congruence
    end.
Qed.

(** C7, as the code has it. Once NUP is read, [processEvent] does not
    throw, and [processWeight] never throws. After a returning
    [processEvent] the cell of a field other than NUP holds the value
    [std::from_chars] read at the head of the token, and what it held
    before when the token is missing or rejected; so does the weight cell
    after [processWeight]. In a parse, what the cell held before is the
    zero it was initialized with, provided no earlier step wrote it: this
    is so for every particle field, for IDPRUP when the Event Extractor
    did not run on the event row before, and for a real of the event or a
    weight when moreover no weight was written to its cell. *)
Theorem rejected_fields_keep_cell :
  (forall s : ParseState,
     (forall (n : Z) (w : string), read_nup s = Some n -> processEvent s <> Throw w) /\
     (forall w : string, processWeight s <> Throw w) /\
     (forall (s' : ParseState) (n : Z) (f : field),
        processEvent s = Ok s' ->
        read_nup s = Some n ->
        field_of_event (Z.to_nat n) f ->
        field_cell s f s' =
        match tokens (charBuf s) !! token_index f with
        | Some t => match parsed f t with
                    | Some v => Some v
                    | None => field_cell s f s
                    end
        | None => field_cell s f s
        end) /\
     (forall s' : ParseState,
        processWeight s = Ok s' ->
        match head (tokens (charBuf s)) with
        | Some t => from_chars_double t = None
        | None => True
        end ->
        fevt_arr s' = fevt_arr s)) /\
  (forall (ne nw np : Z) (before : list sax) (s1 s2 : ParseState),
     run before (fresh ne nw np) = Ok s1 ->
     (forall (n : Z) (f : field),
        processEvent s1 = Ok s2 ->
        read_nup s1 = Some n ->
        field_of_event (Z.to_nat n) f ->
        unreadable f (tokens (charBuf s1) !! token_index f) ->
        unwritten before (fresh ne nw np) s1 f ->
        at_default s1 f s2) /\
     (processWeight s1 = Ok s2 ->
      match head (tokens (charBuf s1)) with
      | Some t => from_chars_double t = None
      | None => True
      end ->
      fevt_unwritten before (fresh ne nw np)
        (cur_event s1 * (4 + n_weights s1) + (4 + cur_weight s1)) ->
      fevt_arr s2 !! Z.to_nat (cur_event s1 * (4 + n_weights s1) + (4 + cur_weight s1))
      = Some dzero)).
Proof.
  split.
  - intros s. split; [| split; [| split]].
    + intros n w Hn. exact (processEvent_no_throw_after_nup s n w Hn).
    + apply processWeight_no_throw.
    + intros s' n f. apply processEvent_field.
    + intros s' E Hbad. apply processWeight_Ok in E. destruct E as [-> _]. simpl.
      apply list_alter_id. intros old. apply stored_unreadable_double. exact Hbad.
  - intros ne nw np before s1 s2 Hrun. split.
    + intros n f E Hn Hf Hbad Hun.
      apply (at_default_cell s1 f s1 s2).
      * rewrite (processEvent_field s1 s2 n f E Hn Hf).
        apply unreadable_parsed in Hbad.
        destruct (tokens (charBuf s1) !! token_index f) as [t |]; [| reflexivity].
        rewrite Hbad. reflexivity.
      * exact (parse_cell_default ne nw np before s1 s2 n f Hrun E Hn Hf Hun).
    + intros E Hbad Hun. apply processWeight_Ok in E. destruct E as [-> Hc].
      cbn [set_capture set_charBuf set_fevt fevt_arr].
      rewrite list_alter_id
        by (intros old; apply stored_unreadable_double; exact Hbad).
      rewrite (run_fevt_unwritten before _ s1 _ Hrun)
        by (rewrite Z2Nat.id by lia; exact Hun).
      pose proof (run_lengths _ _ _ Hrun) as (_ & Hlf & _).
      destruct (fresh_zeros ne nw np) as (_ & Hzf & _). apply Hzf. lia.
Qed.

Lemma rejected_fields_keep_cell_witness :
  run lenient_run (fresh 1 1 1) = Ok lenient_state /\
  processEvent lenient_state = Ok lenient_result /\
  tokens (charBuf lenient_state) !! token_index IDPRUP = Some "-" /\
  tokens (charBuf lenient_state) !! token_index (event_real 1) = Some "n/a" /\
  tokens (charBuf lenient_state) !! token_index (particle_int 0 4) = Some "x501" /\
  tokens (charBuf lenient_state) !! token_index (particle_real 0 5) = None /\
  at_default lenient_state IDPRUP lenient_result /\
  at_default lenient_state (event_real 1) lenient_result /\
  at_default lenient_state (particle_int 0 4) lenient_result /\
  at_default lenient_state (particle_real 0 5) lenient_result.
Proof.
  assert (Hrun : run lenient_run (fresh 1 1 1) = Ok lenient_state)
    by (vm_compute; reflexivity).
  assert (E : processEvent lenient_state = Ok lenient_result)
    by (vm_compute; reflexivity).
  assert (Hn : read_nup lenient_state = Some 1) by (vm_compute; reflexivity).
  assert (Hx : extractions lenient_run (fresh 1 1 1) = []) by (vm_compute; reflexivity).
  assert (Hw : weight_cells lenient_run (fresh 1 1 1) = []) by (vm_compute; reflexivity).
  pose proof (proj1 (proj2 rejected_fields_keep_cell 1 1 1 lenient_run lenient_state
                       lenient_result Hrun) 1) as H.
  split; [exact Hrun |]. split; [exact E |].
  do 4 (split; [vm_compute; reflexivity |]).
  split; [| split; [| split]]; apply H; try exact E; try exact Hn.
  - exact I.
  - vm_compute. reflexivity.
  - cbn [unwritten]. rewrite Hx. intros [].
  - vm_compute. lia.
  - vm_compute. reflexivity.
  - split; [rewrite Hx; intros row n [] | rewrite Hw; intros []].
  - vm_compute. split; lia.
  - vm_compute. reflexivity.
  - exact I.
  - vm_compute. split; lia.
  - exact I.
  - exact I.
Defined.

(** C7 as stated fails. A malformed token that starts with a number is
    not left out: the process id [12abc] is stored as 12, the real [1,5]
    as 1, the particle integer [3.7] as 3. And a cell whose token is
    rejected is left as it was, which is not always zero: in the parse of
    [spill_text] the second [wgt] element of the first event is written to
    the first cell of the second event row, and the token [n/a] of the
    second event leaves the 0.25 there. *)
Lemma malformed_fields_not_at_default :
  (processEvent prefix_state = Ok prefix_result /\
   (tokens (charBuf prefix_state) !! token_index IDPRUP = Some "12abc" /\
    malformed IDPRUP "12abc" = true /\
    field_cell prefix_state IDPRUP prefix_result = Some (int_value 12)) /\
   (tokens (charBuf prefix_state) !! token_index (event_real 0) = Some "1,5" /\
    malformed (event_real 0) "1,5" = true /\
    field_cell prefix_state (event_real 0) prefix_result
    = Some (real_value (Finite 1))) /\
   (tokens (charBuf prefix_state) !! token_index (particle_int 0 0) = Some "3.7" /\
    malformed (particle_int 0 0) "3.7" = true /\
    field_cell prefix_state (particle_int 0 0) prefix_result = Some (int_value 3))) /\
  (countDimensions "events.lhe" (Some spill_text) = Ok (2, 1, 2) /\
   malformed (event_real 0) "n/a" = true /\
   from_chars_double "n/a" = None /\
   exists (i_evt : ndarray Z) (f_evt : ndarray double)
          (i_ptc : ndarray Z) (f_ptc : ndarray double),
     parseLHE spill_expat "events.lhe" (Some spill_text)
     = Ok (i_evt, f_evt, i_ptc, f_ptc) /\
     row f_evt 0 = [Finite 1; Finite 2; Finite 3; Finite 4; Finite (1 # 2)] /\
     row f_evt 1 = [Finite (1 # 4); Finite 2; Finite 3; Finite 4; Finite (3 # 4)]).
Proof.
  split.
  - split; [vm_compute; reflexivity |]. repeat split; vm_compute; reflexivity.
  - split; [vm_compute; reflexivity |]. split; [vm_compute; reflexivity |].
    split; [vm_compute; reflexivity |].
    do 4 eexists. split; [vm_compute; reflexivity |].
    split; vm_compute; reflexivity.
Qed.

(** ** The rows of an event *)







